(** * IntentJS: a shallow embedding of the intent resolution pipeline

    The development follows the TypeScript sources of the repository:

    - [packages/core/src/utils/inputNormalizer.ts]  (module [Normalizer])
    - [packages/core/src/prompt/templates.ts]       (module [Prompt])
    - [packages/core/src/llm/types.ts], [providers/mock.ts] (module [LLM])
    - [packages/core/src/nlu/index.ts]              (modules [NLU], [HistoryStore])
    - [packages/core/src/router/index.ts]          (module [Router])

    The JavaScript substrate the sources rely on (strings, regular
    expressions, JSON, number coercion) is embedded first, in the modules
    [JsString], [Regex], [JsNum] and [Json]. *)

From Stdlib Require Import ZArith NArith Bool List Lia.
From stdpp Require Import gmap list strings.
Import ListNotations.

Set Implicit Arguments.

(* ===================================================================== *)
(** * JavaScript strings *)
(* ===================================================================== *)

(** A JavaScript string is a finite sequence of UTF-16 code units. Code
    units are kept as numbers of type [N]; nothing below requires them to be
    smaller than 65536. *)
Module JsString.

Abbreviation jsstring := (list N).

Definition code (a : Ascii.ascii) : N := Ascii.N_of_ascii a.

(** [lit s] is the JavaScript string whose code units are the bytes of the
    literal [s]; it is used for ASCII literals only. *)
Fixpoint lit (s : string) : jsstring :=
  match s with
  | EmptyString => []
  | String a s' => code a :: lit s'
  end.

(** [litq s] is [lit s] with every backquote of [s] standing for a double
    quote (code unit 34). The template literals of the sources contain
    double quotes and no backquote. *)
Definition unquote (c : N) : N := if N.eqb c 96 then 34%N else c.
Definition litq (s : string) : jsstring := map unquote (lit s).

Definition quote : jsstring := [34%N].

Definition eqb (s t : jsstring) : bool := bool_decide (s = t).

(** [!s] for a string: only the empty string is falsy. *)
Definition truthy (s : jsstring) : bool :=
  match s with [] => false | _ => true end.

(** [a || b] on strings, where [a] may be [undefined]. *)
Definition or_default (a : option jsstring) (b : jsstring) : jsstring :=
  match a with
  | Some s => if truthy s then s else b
  | None => b
  end.

(** WhiteSpace and LineTerminator code units of ECMAScript: the set that
    [String.prototype.trim] strips and that [\s] matches. *)
Definition is_space (c : N) : bool :=
  ((9 <=? c) && (c <=? 13) || (c =? 32) || (c =? 160) || (c =? 5760)
   || (8192 <=? c) && (c <=? 8202) || (c =? 8232) || (c =? 8233)
   || (c =? 8239) || (c =? 8287) || (c =? 12288) || (c =? 65279))%N.

(** LineTerminator: what [.] does not match. *)
Definition is_line_terminator (c : N) : bool :=
  ((c =? 10) || (c =? 13) || (c =? 8232) || (c =? 8233))%N.

Definition is_digit (c : N) : bool := ((48 <=? c) && (c <=? 57))%N.
Definition is_upper (c : N) : bool := ((65 <=? c) && (c <=? 90))%N.
Definition is_lower (c : N) : bool := ((97 <=? c) && (c <=? 122))%N.

(** [\w]: A-Z, a-z, 0-9 and underscore. *)
Definition is_word (c : N) : bool :=
  is_upper c || is_lower c || is_digit c || (c =? 95)%N.

Fixpoint trim_start (s : jsstring) : jsstring :=
  match s with
  | c :: s' => if is_space c then trim_start s' else s
  | [] => []
  end.

Definition trim_end (s : jsstring) : jsstring := rev (trim_start (rev s)).

(** [s.trim()] *)
Definition trim (s : jsstring) : jsstring := trim_end (trim_start s).

(** [xs.join(sep)] on an array of strings. *)
Fixpoint join (sep : jsstring) (xs : list jsstring) : jsstring :=
  match xs with
  | [] => []
  | [x] => x
  | x :: xs' => x ++ sep ++ join sep xs'
  end.

(** [s.split(' ').length]: one more than the number of separators. *)
Definition split_count (sep : N) (s : jsstring) : nat :=
  S (length (filter (fun c => N.eqb c sep) s)).

End JsString.
Export JsString.

(* ===================================================================== *)
(** * Regular expressions *)
(* ===================================================================== *)

(** The fragment of ECMAScript regular expressions that the sources use:
    pattern characters, [.], [\s], [\b], [^], sequence, alternation and the
    greedy star, with the [i] flag. Matching is the backtracking search of
    the language definition: alternatives are tried left to right, a star
    tries one more iteration before it tries to stop, and the first success
    decides where the match ends. *)
Module Regex.

Inductive regex : Type :=
| Eps
| Chr (c : N)
| Dot
| Space
| WordB
| Bol
| Seq (r1 r2 : regex)
| Alt (r1 r2 : regex)
| Star (r : regex).

Definition Plus (r : regex) : regex := Seq r (Star r).

(** The pattern that matches the characters of [s] in order. *)
Fixpoint Str (s : jsstring) : regex :=
  match s with
  | [] => Eps
  | [c] => Chr c
  | c :: s' => Seq (Chr c) (Str s')
  end.

Fixpoint Alts (rs : list regex) : regex :=
  match rs with
  | [] => Eps
  | [r] => r
  | r :: rs' => Alt r (Alts rs')
  end.

(** Canonicalize of the [i] flag (without [u]): a code unit below 128 is
    mapped to its upper case; a code unit from 128 on never canonicalizes
    to one below 128, so it cannot match any of the ASCII pattern
    characters of this program and is left as it is. *)
Definition canon (c : N) : N := if is_lower c then (c - 32)%N else c.

Definition chr_eq (ic : bool) (c x : N) : bool :=
  if ic then N.eqb (canon c) (canon x) else N.eqb c x.

Definition is_word_at (c : option N) : bool :=
  match c with Some x => is_word x | None => false end.

(** [rmatch ic r prev s k]: match [r] at the start of [s], where [prev] is
    the code unit before [s] in the subject ([None] at index 0), and hand
    the position reached to the continuation [k]. *)
Fixpoint rmatch (ic : bool) (r : regex) (prev : option N) (s : jsstring)
         (k : option N -> jsstring -> option jsstring) : option jsstring :=
  match r with
  | Eps => k prev s
  | Chr c =>
      match s with
      | x :: s' => if chr_eq ic c x then k (Some x) s' else None
      | [] => None
      end
  | Dot =>
      match s with
      | x :: s' => if is_line_terminator x then None else k (Some x) s'
      | [] => None
      end
  | Space =>
      match s with
      | x :: s' => if is_space x then k (Some x) s' else None
      | [] => None
      end
  | WordB =>
      if xorb (is_word_at prev) (is_word_at (head s)) then k prev s else None
  | Bol =>
      match prev with None => k prev s | Some _ => None end
  | Seq r1 r2 =>
      rmatch ic r1 prev s (fun p s' => rmatch ic r2 p s' k)
  | Alt r1 r2 =>
      match rmatch ic r1 prev s k with
      | Some rest => Some rest
      | None => rmatch ic r2 prev s k
      end
  | Star r1 =>
      (fix iter (n : nat) (prev : option N) (s : jsstring) : option jsstring :=
         match n with
         | O => k prev s
         | S n' =>
             match rmatch ic r1 prev s
                     (fun p s' =>
                        (* an iteration that matches the empty string is rejected *)
                        if (length s' <? length s)%nat then iter n' p s' else None)
             with
             | Some rest => Some rest
             | None => k prev s
             end
         end) (length s) prev s
  end.

(** The rest of the subject after the match of [r] that starts here. *)
Definition match_here (ic : bool) (r : regex) (prev : option N) (s : jsstring)
  : option jsstring :=
  rmatch ic r prev s (fun _ rest => Some rest).

(** [exec]: the leftmost match; the text before it and the rest after it. *)
Fixpoint exec_from (ic : bool) (r : regex) (prev : option N) (s : jsstring)
  : option (jsstring * jsstring) :=
  match match_here ic r prev s with
  | Some rest => Some ([], rest)
  | None =>
      match s with
      | [] => None
      | x :: s' =>
          match exec_from ic r (Some x) s' with
          | Some (before, rest) => Some (x :: before, rest)
          | None => None
          end
      end
  end.

(** [r.test(s)] *)
Definition test (ic : bool) (r : regex) (s : jsstring) : bool :=
  match exec_from ic r None s with Some _ => true | None => false end.

(** [s.replace(r, repl)] for a regular expression without the [g] flag and
    a replacement text without [$]. *)
Definition replace (ic : bool) (r : regex) (repl : jsstring) (s : jsstring)
  : jsstring :=
  match exec_from ic r None s with
  | Some (before, rest) => before ++ repl ++ rest
  | None => s
  end.

(** [s.replace(r, repl)] with the [g] flag. [skip] counts the code units
    that still belong to the match found last. After an empty match the
    search moves on by one code unit. *)
Fixpoint replace_all_from (ic : bool) (r : regex) (repl : jsstring)
         (prev : option N) (s : jsstring) (skip : nat) : jsstring :=
  match skip with
  | S n =>
      match s with
      | x :: s' => replace_all_from ic r repl (Some x) s' n
      | [] => []
      end
  | O =>
      match match_here ic r prev s with
      | Some rest =>
          match s with
          | [] => repl
          | x :: s' =>
              match (length s - length rest)%nat with
              | O => repl ++ x :: replace_all_from ic r repl (Some x) s' 0
              | S n => repl ++ replace_all_from ic r repl (Some x) s' n
              end
          end
      | None =>
          match s with
          | [] => []
          | x :: s' => x :: replace_all_from ic r repl (Some x) s' 0
          end
      end
  end.

Definition replace_all (ic : bool) (r : regex) (repl : jsstring) (s : jsstring)
  : jsstring :=
  replace_all_from ic r repl None s 0.

End Regex.

(* ===================================================================== *)
(** * Input normalization: utils/inputNormalizer.ts *)
(* ===================================================================== *)

Module Normalizer.
Import Regex.

(** [/\s+/g] *)
Definition multiple_spaces : regex := Plus Space.

(** [/^(please|can you|could you|i want to|i would like to)\s+/i] *)
Definition leading_phrase : regex :=
  Seq Bol
    (Seq (Alts [Str (lit "please"); Str (lit "can you"); Str (lit "could you");
                Str (lit "i want to"); Str (lit "i would like to")])
         (Plus Space)).

(** The entries of [actionMappings], in insertion order. *)
Definition actionMappings : list (jsstring * jsstring) :=
  [ (lit "show me", lit "show");
    (lit "go to", lit "navigate to");
    (lit "take me to", lit "navigate to");
    (lit "open", lit "navigate to");
    (lit "navigate", lit "navigate to");
    (lit "bring up", lit "show");
    (lit "display", lit "show");
    (lit "find", lit "search for");
    (lit "look for", lit "search for");
    (lit "search", lit "search for");
    (lit "filter by", lit "filter");
    (lit "sort by", lit "sort");
    (lit "order by", lit "sort") ].

(** [new RegExp(`^${pattern}\\s+`, 'i')] *)
Definition action_regExp (pattern : jsstring) : regex :=
  Seq Bol (Seq (Str pattern) (Plus Space)).

(** The loop over [actionMappings]: the first pattern that matches is
    replaced and the loop is left. *)
Fixpoint apply_action_mapping (entries : list (jsstring * jsstring))
         (normalized : jsstring) : jsstring :=
  match entries with
  | [] => normalized
  | (pattern, replacement) :: entries' =>
      let regExp := action_regExp pattern in
      if test true regExp normalized
      then replace true regExp (replacement ++ lit " ") normalized
      else apply_action_mapping entries' normalized
  end.

(** The entries of [typoCorrections], in insertion order. *)
Definition typoCorrections : list (jsstring * jsstring) :=
  [ (lit "dasboard", lit "dashboard");
    (lit "dashbord", lit "dashboard");
    (lit "setting", lit "settings");
    (lit "setings", lit "settings");
    (lit "report", lit "reports");
    (lit "statistic", lit "statistics");
    (lit "analytic", lit "analytics");
    (lit "notifcation", lit "notification");
    (lit "acount", lit "account");
    (lit "proflie", lit "profile") ].

(** [new RegExp(`\\b${typo}\\b`, 'gi')] *)
Definition typo_regExp (typo : jsstring) : regex :=
  Seq WordB (Seq (Str typo) WordB).

Definition apply_typo_corrections (entries : list (jsstring * jsstring))
           (normalized : jsstring) : jsstring :=
  fold_left
    (fun normalized '(typo, correction) =>
       replace_all true (typo_regExp typo) correction normalized)
    entries normalized.

Definition normalizeInput (input : jsstring) : jsstring :=
  if negb (truthy input) then []
  else
    let normalized := trim input in
    let normalized := replace_all false multiple_spaces (lit " ") normalized in
    let normalized := replace true leading_phrase [] normalized in
    let normalized := apply_action_mapping actionMappings normalized in
    apply_typo_corrections typoCorrections normalized.

(** [/\b(password|credit card|social security|ssn|private key)\b/i] *)
Definition sensitivePatterns : list regex :=
  [ Seq WordB
      (Seq (Alts [Str (lit "password"); Str (lit "credit card");
                  Str (lit "social security"); Str (lit "ssn");
                  Str (lit "private key")])
           WordB) ].

Definition hasSensitiveContent (input : jsstring) : bool :=
  existsb (fun pattern => test true pattern input) sensitivePatterns.

End Normalizer.

(* ===================================================================== *)
(** * Exceptions *)
(* ===================================================================== *)

(** The values that the program throws or catches are error objects; only
    their [message] is ever read. The message texts of built-in errors are
    chosen by the engine; the ones below stand for them and no statement
    depends on their wording. *)
Inductive JsError : Type :=
| SyntaxError (message : jsstring)
| TypeError (message : jsstring)
| Error (message : jsstring).

Definition error_message (e : JsError) : jsstring :=
  match e with
  | SyntaxError m | TypeError m | Error m => m
  end.

(** The outcome of evaluating an expression or of awaiting a promise. *)
Inductive Outcome (A : Type) : Type :=
| Returned (a : A)
| Thrown (e : JsError).
Arguments Returned {A} a.
Arguments Thrown {A} e.

(* ===================================================================== *)
(** * Numbers *)
(* ===================================================================== *)

(** Number values. Every number written in a JSON text or in the sources is
    a decimal fraction [mant * 10 ^ dexp]; it is kept exactly, the rounding
    to binary64 is not modelled (negative zero is zero). The program only
    compares numbers and prints them. *)
Module JsNum.

Record decimal : Type := Dec { mant : Z; dexp : Z }.

Inductive number : Type :=
| NaN
| PInf
| NInf
| Fin (d : decimal).

(** Trailing zeros of the mantissa move into the exponent, so that equal
    numbers have equal representations. *)
Fixpoint strip_zeros (n : nat) (m e : Z) : decimal :=
  match n with
  | O => Dec m e
  | S n' =>
      if (m =? 0)%Z then Dec 0 0
      else if (m mod 10 =? 0)%Z then strip_zeros n' (m / 10) (e + 1)
      else Dec m e
  end.

Definition normalize (m e : Z) : decimal :=
  strip_zeros (S (Z.to_nat (Z.log2 (Z.abs m)))) m e.

Definition of_Z (z : Z) : number := Fin (normalize z 0).

Definition zero : number := Fin (Dec 0 0).
Definition one : number := Fin (Dec 1 0).

Definition scale (d : decimal) (e : Z) : Z := (mant d * 10 ^ (dexp d - e))%Z.

Definition dec_compare (a b : decimal) : comparison :=
  let e := Z.min (dexp a) (dexp b) in
  Z.compare (scale a e) (scale b e).

(** [x < y]; false when either side is NaN. *)
Definition lt (x y : number) : bool :=
  match x, y with
  | NaN, _ | _, NaN => false
  | PInf, _ => false
  | _, NInf => false
  | NInf, _ => true
  | _, PInf => true
  | Fin a, Fin b => match dec_compare a b with Lt => true | _ => false end
  end.

(** [x <= y]; false when either side is NaN. *)
Definition le (x y : number) : bool :=
  match x, y with
  | NaN, _ | _, NaN => false
  | NInf, _ => true
  | _, PInf => true
  | PInf, _ => false
  | _, NInf => false
  | Fin a, Fin b => match dec_compare a b with Gt => false | _ => true end
  end.

(** [Math.min(x, y)] and [Math.max(x, y)] on numbers. *)
Definition min (x y : number) : number :=
  match x, y with
  | NaN, _ | _, NaN => NaN
  | _, _ => if lt y x then y else x
  end.

Definition max (x y : number) : number :=
  match x, y with
  | NaN, _ | _, NaN => NaN
  | _, _ => if lt x y then y else x
  end.

(** [!x] is true for zero and NaN. *)
Definition truthy (x : number) : bool :=
  match x with
  | NaN => false
  | Fin d => negb (mant d =? 0)%Z
  | _ => true
  end.

(** ** Digits *)

Definition digit_value (c : N) : Z := Z.of_N (c - 48).

Definition digits_value (ds : jsstring) : Z :=
  fold_left (fun acc c => (acc * 10 + digit_value c)%Z) ds 0%Z.

Fixpoint span_digits (s : jsstring) : jsstring * jsstring :=
  match s with
  | c :: s' =>
      if is_digit c
      then let '(ds, rest) := span_digits s' in (c :: ds, rest)
      else ([], s)
  | [] => ([], [])
  end.

Fixpoint uint_codes (u : Decimal.uint) : jsstring :=
  match u with
  | Decimal.Nil => []
  | Decimal.D0 u' => 48%N :: uint_codes u'
  | Decimal.D1 u' => 49%N :: uint_codes u'
  | Decimal.D2 u' => 50%N :: uint_codes u'
  | Decimal.D3 u' => 51%N :: uint_codes u'
  | Decimal.D4 u' => 52%N :: uint_codes u'
  | Decimal.D5 u' => 53%N :: uint_codes u'
  | Decimal.D6 u' => 54%N :: uint_codes u'
  | Decimal.D7 u' => 55%N :: uint_codes u'
  | Decimal.D8 u' => 56%N :: uint_codes u'
  | Decimal.D9 u' => 57%N :: uint_codes u'
  end.

(** The decimal digits of a non-negative integer. *)
Definition nat_digits (z : Z) : jsstring := uint_codes (N.to_uint (Z.to_N z)).

(** The number written as sign, integer digits, fraction digits and
    exponent. *)
Definition of_parts (negative : bool) (int_digits frac_digits : jsstring)
           (exponent : Z) : number :=
  let m := digits_value (int_digits ++ frac_digits) in
  Fin (normalize (if negative then - m else m)%Z
                 (exponent - Z.of_nat (length frac_digits))).

(** ** Number::toString *)

Definition zeros (n : Z) : jsstring := repeat 48%N (Z.to_nat n).

(** For [x = s * 10 ^ (n - k)] with [k] digits in [s] and [k] minimal. *)
Definition positive_to_string (d : decimal) : jsstring :=
  let s := nat_digits (mant d) in
  let k := Z.of_nat (length s) in
  let n := (k + dexp d)%Z in
  if ((k <=? n) && (n <=? 21))%Z then s ++ zeros (n - k)
  else if ((0 <? n) && (n <=? 21))%Z then
    take (Z.to_nat n) s ++ lit "." ++ drop (Z.to_nat n) s
  else if ((-6 <? n) && (n <=? 0))%Z then
    lit "0." ++ zeros (- n) ++ s
  else
    let e := (n - 1)%Z in
    let sign := if (e <? 0)%Z then lit "-" else lit "+" in
    let tail := drop 1 s in
    take 1 s ++ (match tail with [] => [] | _ => lit "." ++ tail end)
           ++ lit "e" ++ sign ++ nat_digits (Z.abs e).

Definition to_string (x : number) : jsstring :=
  match x with
  | NaN => lit "NaN"
  | PInf => lit "Infinity"
  | NInf => lit "-Infinity"
  | Fin d =>
      let d := normalize (mant d) (dexp d) in
      if (mant d =? 0)%Z then lit "0"
      else if (mant d <? 0)%Z
           then lit "-" ++ positive_to_string (Dec (- mant d) (dexp d))
           else positive_to_string d
  end.

(** ** StringToNumber *)

(** [e] or [E], an optional sign and digits; [None] when an exponent part
    starts and is malformed. *)
Definition exponent_part (s : jsstring) : option (Z * jsstring) :=
  match s with
  | c :: s1 =>
      if ((c =? 101) || (c =? 69))%N then
        let '(negative, s2) :=
          match s1 with
          | 43%N :: s2 => (false, s2)
          | 45%N :: s2 => (true, s2)
          | _ => (false, s1)
          end in
        let '(ds, rest) := span_digits s2 in
        match ds with
        | [] => None
        | _ => Some ((if negative then - digits_value ds else digits_value ds)%Z, rest)
        end
      else Some (0%Z, s)
  | [] => Some (0%Z, [])
  end.

(** StrUnsignedDecimalLiteral without [Infinity], to the end of the text. *)
Definition unsigned_decimal (negative : bool) (s : jsstring) : number :=
  let '(int_digits, s1) := span_digits s in
  let '(has_dot, (frac_digits, s2)) :=
    match s1 with
    | 46%N :: s1' => (true, span_digits s1')
    | _ => (false, ([], s1))
    end in
  match int_digits, frac_digits with
  | [], [] => NaN
  | _, _ =>
      match exponent_part s2 with
      | Some (e, []) => of_parts negative int_digits frac_digits e
      | _ => NaN
      end
  end.

Definition hex_value (c : N) : option Z :=
  if is_digit c then Some (Z.of_N (c - 48))
  else if ((97 <=? c) && (c <=? 102))%N then Some (Z.of_N (c - 87))
  else if ((65 <=? c) && (c <=? 70))%N then Some (Z.of_N (c - 55))
  else None.

(** The digits of a NonDecimalIntegerLiteral in the given radix. *)
Fixpoint radix_value (radix : Z) (acc : Z) (s : jsstring) : option Z :=
  match s with
  | [] => Some acc
  | c :: s' =>
      match hex_value c with
      | Some v => if (v <? radix)%Z then radix_value radix (acc * radix + v)%Z s' else None
      | None => None
      end
  end.

Definition non_decimal (radix : Z) (s : jsstring) : number :=
  match s with
  | [] => NaN
  | _ => match radix_value radix 0 s with Some z => of_Z z | None => NaN end
  end.

Definition of_string (s : jsstring) : number :=
  let t := trim s in
  if bool_decide (t = []) then zero
  else if bool_decide (t = lit "Infinity") || bool_decide (t = lit "+Infinity") then PInf
  else if bool_decide (t = lit "-Infinity") then NInf
  else
    match t with
    | 48%N :: 120%N :: ds | 48%N :: 88%N :: ds => non_decimal 16 ds
    | 48%N :: 111%N :: ds | 48%N :: 79%N :: ds => non_decimal 8 ds
    | 48%N :: 98%N :: ds | 48%N :: 66%N :: ds => non_decimal 2 ds
    | 43%N :: ds => unsigned_decimal false ds
    | 45%N :: ds => unsigned_decimal true ds
    | _ => unsigned_decimal false t
    end.

End JsNum.

(* ===================================================================== *)
(** * JSON values, JSON.parse and JSON.stringify *)
(* ===================================================================== *)

(** The values that [JSON.parse] builds. An object is the list of its own
    properties in the order in which JavaScript enumerates them. *)
Module Json.
Import JsNum.

#[warnings="-register-all"] Inductive value : Type :=
| JNull
| JBool (b : bool)
| JNum (n : number)
| JStr (s : jsstring)
| JArr (items : list value)
| JObj (props : list (jsstring * value)).

Fixpoint lookup_prop (props : list (jsstring * value)) (k : jsstring)
  : option value :=
  match props with
  | [] => None
  | (k', v) :: props' => if eqb k k' then Some v else lookup_prop props' k
  end.

Definition has_own (props : list (jsstring * value)) (k : jsstring) : bool :=
  match lookup_prop props k with Some _ => true | None => false end.

(** A property name is an array index when it is the canonical decimal
    text of an integer below [2^32 - 1]; such names are enumerated first,
    in ascending order. *)
Definition array_index (k : jsstring) : option Z :=
  match k with
  | [] => None
  | c :: k' =>
      if forallb is_digit k
         && (negb (N.eqb c 48) || bool_decide (k' = []))
         && (digits_value k <? 4294967295)%Z
      then Some (digits_value k) else None
  end.

(** Defining or assigning the own property [k]. An existing property
    keeps its place; a new one goes after the properties enumerated
    before it. *)
Fixpoint set_prop (props : list (jsstring * value)) (k : jsstring) (v : value)
  : list (jsstring * value) :=
  match props with
  | [] => [(k, v)]
  | (k', v') :: props' =>
      if eqb k k' then (k, v) :: props'
      else
        match array_index k, array_index k' with
        | Some i, Some i' =>
            if (i <? i')%Z then (k, v) :: props
            else (k', v') :: set_prop props' k v
        | Some _, None => (k, v) :: props
        | None, _ => (k', v') :: set_prop props' k v
        end
  end.

(** [x.k] for a property name [k] that no prototype defines (as [action]
    and [confidence]): the own property of an object, [undefined] on
    arrays and primitives, a TypeError on [null]. *)
Definition get_member (x : value) (k : jsstring) : Outcome (option value) :=
  match x with
  | JNull => Thrown (TypeError (lit "Cannot read properties of null"))
  | JObj props => Returned (lookup_prop props k)
  | _ => Returned None
  end.

(** [x.k = v] on an object. *)
Definition set_member (x : value) (k : jsstring) (v : value) : value :=
  match x with
  | JObj props => JObj (set_prop props k v)
  | _ => x
  end.

(** ToBoolean *)
Definition truthy (x : value) : bool :=
  match x with
  | JNull => false
  | JBool b => b
  | JNum n => JsNum.truthy n
  | JStr s => JsString.truthy s
  | JArr _ | JObj _ => true
  end.

Definition cannot_convert : JsError :=
  TypeError (lit "Cannot convert object to primitive value").

(** ToString. An array is joined with commas, [null] elements giving the
    empty text; an object without an own [toString] property prints as
    [[object Object]], and one with such a property, which is not callable,
    cannot be converted. *)
Fixpoint to_string (x : value) : Outcome jsstring :=
  match x with
  | JNull => Returned (lit "null")
  | JBool true => Returned (lit "true")
  | JBool false => Returned (lit "false")
  | JNum n => Returned (JsNum.to_string n)
  | JStr s => Returned s
  | JArr items =>
      (fix elements (xs : list value) (acc : list jsstring)
         : Outcome jsstring :=
         match xs with
         | [] => Returned (join (lit ",") (rev acc))
         | y :: xs' =>
             match (match y with JNull => Returned [] | _ => to_string y end) with
             | Returned t => elements xs' (t :: acc)
             | Thrown e => Thrown e
             end
         end) items []
  | JObj props =>
      if has_own props (lit "toString") then Thrown cannot_convert
      else Returned (lit "[object Object]")
  end.

(** ToNumber *)
Definition to_number (x : value) : Outcome number :=
  match x with
  | JNull => Returned zero
  | JBool true => Returned one
  | JBool false => Returned zero
  | JNum n => Returned n
  | JStr s => Returned (of_string s)
  | JArr _ =>
      match to_string x with
      | Returned t => Returned (of_string t)
      | Thrown e => Thrown e
      end
  | JObj props =>
      if has_own props (lit "toString") then Thrown cannot_convert
      else Returned NaN
  end.

(** ** JSON.stringify *)

Definition hex_digit (n : N) : N := if (n <? 10)%N then (48 + n)%N else (87 + n)%N.

(** [\uXXXX] with lower-case digits. *)
Definition unicode_escape (c : N) : jsstring :=
  lit "\u" ++ [hex_digit (c / 4096 mod 16); hex_digit (c / 256 mod 16);
               hex_digit (c / 16 mod 16); hex_digit (c mod 16)]%N.

Definition is_lead (c : N) : bool := ((55296 <=? c) && (c <=? 56319))%N.
Definition is_trail (c : N) : bool := ((56320 <=? c) && (c <=? 57343))%N.

(** The body of QuoteJSONString. [paired] tells that the code unit before
    was a leading surrogate, so that a trailing one here completes a pair. *)
Fixpoint quote_body (paired : bool) (s : jsstring) : jsstring :=
  match s with
  | [] => []
  | c :: s' =>
      let next_is_trail := match s' with d :: _ => is_trail d | [] => false end in
      if N.eqb c 34 then lit "\" ++ [34%N] ++ quote_body false s'
      else if N.eqb c 92 then lit "\\" ++ quote_body false s'
      else if N.eqb c 8 then lit "\b" ++ quote_body false s'
      else if N.eqb c 12 then lit "\f" ++ quote_body false s'
      else if N.eqb c 10 then lit "\n" ++ quote_body false s'
      else if N.eqb c 13 then lit "\r" ++ quote_body false s'
      else if N.eqb c 9 then lit "\t" ++ quote_body false s'
      else if (c <? 32)%N then unicode_escape c ++ quote_body false s'
      else if is_lead c then
        if next_is_trail then c :: quote_body true s'
        else unicode_escape c ++ quote_body false s'
      else if is_trail c then
        if paired then c :: quote_body false s'
        else unicode_escape c ++ quote_body false s'
      else c :: quote_body false s'
  end.

Definition quote_string (s : jsstring) : jsstring :=
  [34%N] ++ quote_body false s ++ [34%N].

Definition newline : jsstring := [10%N].

(** SerializeJSONProperty with the gap [gap] at the indentation [indent];
    the empty gap gives the compact form. *)
Fixpoint serialize (gap indent : jsstring) (x : value) : jsstring :=
  let stepback := indent in
  let indent := indent ++ gap in
  let wrap (opening closing : jsstring) (partial : list jsstring) : jsstring :=
    match partial with
    | [] => opening ++ closing
    | _ =>
        match gap with
        | [] => opening ++ join (lit ",") partial ++ closing
        | _ =>
            opening ++ newline ++ indent
              ++ join (lit "," ++ newline ++ indent) partial
              ++ newline ++ stepback ++ closing
        end
    end in
  match x with
  | JNull => lit "null"
  | JBool true => lit "true"
  | JBool false => lit "false"
  | JNum (Fin d) => JsNum.to_string (Fin d)
  | JNum _ => lit "null"
  | JStr s => quote_string s
  | JArr items =>
      wrap (lit "[") (lit "]") (map (serialize gap indent) items)
  | JObj props =>
      wrap (lit "{") (lit "}")
        (map (fun kv : jsstring * value =>
                quote_string (fst kv) ++ lit ":"
                  ++ (match gap with [] => [] | _ => lit " " end)
                  ++ serialize gap indent (snd kv))
             props)
  end.

(** [JSON.stringify(x)] *)
Definition stringify (x : value) : jsstring := serialize [] [] x.

(** [JSON.stringify(x, null, 2)] *)
Definition stringify_indent2 (x : value) : jsstring := serialize (lit "  ") [] x.

(** ** JSON.parse *)

Definition is_ws (c : N) : bool :=
  ((c =? 32) || (c =? 9) || (c =? 10) || (c =? 13))%N.

Fixpoint skip_ws (s : jsstring) : jsstring :=
  match s with
  | c :: s' => if is_ws c then skip_ws s' else s
  | [] => []
  end.

Definition hex4 (a b c d : N) : option N :=
  match hex_value a, hex_value b, hex_value c, hex_value d with
  | Some x, Some y, Some z, Some w =>
      Some (Z.to_N (((x * 16 + y) * 16 + z) * 16 + w))
  | _, _, _, _ => None
  end.

(** The characters of a string up to its closing quote, [acc] holding the
    ones read so far in reverse order. *)
Fixpoint parse_chars (s : jsstring) (acc : jsstring)
  : option (jsstring * jsstring) :=
  match s with
  | [] => None
  | c :: s1 =>
      if N.eqb c 34 then Some (rev acc, s1)
      else if N.eqb c 92 then
        match s1 with
        | [] => None
        | e :: s2 =>
            if N.eqb e 34 then parse_chars s2 (34%N :: acc)
            else if N.eqb e 92 then parse_chars s2 (92%N :: acc)
            else if N.eqb e 47 then parse_chars s2 (47%N :: acc)
            else if N.eqb e 98 then parse_chars s2 (8%N :: acc)
            else if N.eqb e 102 then parse_chars s2 (12%N :: acc)
            else if N.eqb e 110 then parse_chars s2 (10%N :: acc)
            else if N.eqb e 114 then parse_chars s2 (13%N :: acc)
            else if N.eqb e 116 then parse_chars s2 (9%N :: acc)
            else if N.eqb e 117 then
              match s2 with
              | h1 :: h2 :: h3 :: h4 :: s3 =>
                  match hex4 h1 h2 h3 h4 with
                  | Some u => parse_chars s3 (u :: acc)
                  | None => None
                  end
              | _ => None
              end
            else None
        end
      else if (c <? 32)%N then None
      else parse_chars s1 (c :: acc)
  end.

(** A number: an optional minus sign, an integer part without a
    superfluous leading zero, an optional fraction and exponent. *)
Definition parse_number (s : jsstring) : option (number * jsstring) :=
  let '(negative, s1) :=
    match s with
    | 45%N :: s1 => (true, s1)
    | _ => (false, s)
    end in
  let '(int_digits, s2) := span_digits s1 in
  match int_digits with
  | [] => None
  | 48%N :: _ :: _ => None
  | _ =>
      let fraction :=
        match s2 with
        | 46%N :: s3 =>
            let '(ds, s4) := span_digits s3 in
            match ds with [] => None | _ => Some (ds, s4) end
        | _ => Some ([], s2)
        end in
      match fraction with
      | None => None
      | Some (frac_digits, s4) =>
          match exponent_part s4 with
          | Some (e, rest) => Some (of_parts negative int_digits frac_digits e, rest)
          | None => None
          end
      end
  end.

Definition expect (word : jsstring) (v : value) (s : jsstring)
  : option (value * jsstring) :=
  if bool_decide (take (length word) s = word)
  then Some (v, drop (length word) s) else None.

(** A JSON value at the start of [s], after white space. [fuel] bounds the
    nesting depth and the number of elements; [parse] supplies more than
    the text can use. *)
Fixpoint parse_value (fuel : nat) (s : jsstring) : option (value * jsstring) :=
  match fuel with
  | O => None
  | S fuel' =>
      match skip_ws s with
      | [] => None
      | c :: s1 =>
          if N.eqb c 110 then expect (lit "null") JNull (c :: s1)
          else if N.eqb c 116 then expect (lit "true") (JBool true) (c :: s1)
          else if N.eqb c 102 then expect (lit "false") (JBool false) (c :: s1)
          else if N.eqb c 34 then
            match parse_chars s1 [] with
            | Some (str, rest) => Some (JStr str, rest)
            | None => None
            end
          else if N.eqb c 91 then
            match skip_ws s1 with
            | 93%N :: rest => Some (JArr [], rest)
            | _ =>
                (fix elements (n : nat) (acc : list value) (s : jsstring)
                   : option (value * jsstring) :=
                   match n with
                   | O => None
                   | S n' =>
                       match parse_value fuel' s with
                       | Some (v, s2) =>
                           match skip_ws s2 with
                           | 44%N :: s3 => elements n' (v :: acc) s3
                           | 93%N :: rest => Some (JArr (rev (v :: acc)), rest)
                           | _ => None
                           end
                       | None => None
                       end
                   end) fuel' [] s1
            end
          else if N.eqb c 123 then
            match skip_ws s1 with
            | 125%N :: rest => Some (JObj [], rest)
            | _ =>
                (fix members (n : nat) (props : list (jsstring * value))
                     (s : jsstring) : option (value * jsstring) :=
                   match n with
                   | O => None
                   | S n' =>
                       match skip_ws s with
                       | 34%N :: s2 =>
                           match parse_chars s2 [] with
                           | Some (key, s3) =>
                               match skip_ws s3 with
                               | 58%N :: s4 =>
                                   match parse_value fuel' s4 with
                                   | Some (v, s5) =>
                                       let props := set_prop props key v in
                                       match skip_ws s5 with
                                       | 44%N :: s6 => members n' props s6
                                       | 125%N :: rest => Some (JObj props, rest)
                                       | _ => None
                                       end
                                   | None => None
                                   end
                               | _ => None
                               end
                           | None => None
                           end
                       | _ => None
                       end
                   end) fuel' [] s1
            end
          else
            match parse_number (c :: s1) with
            | Some (n, rest) => Some (JNum n, rest)
            | None => None
            end
      end
  end.

Definition not_valid_json : JsError :=
  SyntaxError (lit "Unexpected token in JSON").

(** [JSON.parse(text)] *)
Definition parse (text : jsstring) : Outcome value :=
  match parse_value (S (length text)) text with
  | Some (v, rest) =>
      match skip_ws rest with
      | [] => Returned v
      | _ => Thrown not_valid_json
      end
  | None => Thrown not_valid_json
  end.

End Json.

(* ===================================================================== *)
(** * The prompt builder: prompt/types.ts and prompt/templates.ts *)
(* ===================================================================== *)

Module Prompt.

Record PromptTemplateOptions : Type := {
  maxLength : option Z;
  includeContext : option bool;
  includeHistory : option bool;
  historyLimit : option Z
}.

Record PromptContext : Type := {
  page : option jsstring;
  availableActions : option (list jsstring);
  availableTargets : option (list jsstring);
  appState : option Json.value
}.

Record PromptHistoryItem : Type := {
  input : jsstring;
  intent : Json.value;
  timestamp : Z
}.

(** The options object [{}]. *)
Definition no_options : PromptTemplateOptions :=
  {| maxLength := None; includeContext := None;
     includeHistory := None; historyLimit := None |}.

(** The context object [{}]. *)
Definition empty_context : PromptContext :=
  {| page := None; availableActions := None;
     availableTargets := None; appState := None |}.

(** [xs.slice(start)] for an integer [start]: a negative [start] counts
    from the end. *)
Definition slice_from {A : Type} (start : Z) (xs : list A) : list A :=
  let len := Z.of_nat (length xs) in
  let k := if (start <? 0)%Z then Z.max (len + start) 0 else Z.min start len in
  drop (Z.to_nat k) xs.

Definition preamble : jsstring := litq "
You are an intent parser for a JavaScript application. Your task is to convert natural language inputs from users 
into structured intent objects. The intent should be returned as valid JSON with the following structure:

{
  `action`: string,               // The primary action the user wants to perform
  `target`: string,               // Optional: What the action applies to
  `params`: object,               // Optional: Any parameters needed
  `confidence`: number            // Optional: Confidence score between 0 and 1
}

User input: `".

Definition closing : jsstring := litq "
Return ONLY the JSON intent object and nothing else. Do not include explanations or additional text.
".

Definition newline_then (line : jsstring) : jsstring := [10%N] ++ line.

(** The right arrow U+2192 of the history lines. *)
Definition arrow : jsstring := [8594%N].

Definition context_block (context : PromptContext) : jsstring :=
  litq "
Current context:
- Current page: " ++ or_default (page context) (lit "unknown") ++ newline_then
    (match availableActions context with
     | Some actions => lit "- Available actions: " ++ join (lit ", ") actions
     | None => []
     end)
  ++ newline_then
    (match availableTargets context with
     | Some targets => lit "- Available targets: " ++ join (lit ", ") targets
     | None => []
     end)
  ++ newline_then
    (match appState context with
     | Some state =>
         if Json.truthy state
         then lit "- App state: " ++ Json.stringify_indent2 state
         else []
     | None => []
     end)
  ++ [10%N].

Definition history_line (item : PromptHistoryItem) : jsstring :=
  litq "- Input: `" ++ input item ++ litq "` " ++ arrow
    ++ lit " Intent: " ++ Json.stringify (intent item).

Definition history_block (limitedHistory : list PromptHistoryItem) : jsstring :=
  litq "
Recent history:
" ++ join [10%N] (map history_line limitedHistory) ++ [10%N].

Definition createDefaultIntentPrompt
           (input : jsstring)
           (context : option PromptContext)
           (history : option (list PromptHistoryItem))
           (options : option PromptTemplateOptions) : jsstring :=
  let options := default no_options options in
  let includeContext := default true (includeContext options) in
  let includeHistory := default false (includeHistory options) in
  let historyLimit := default 3%Z (historyLimit options) in
  let prompt := preamble ++ input ++ litq "`
" in
  let prompt :=
    match context with
    | Some context =>
        if includeContext then prompt ++ context_block context else prompt
    | None => prompt
    end in
  let prompt :=
    match history with
    | Some history =>
        if includeHistory && (0 <? length history)%nat then
          let limitedHistory := slice_from (- historyLimit) history in
          prompt ++ history_block limitedHistory
        else prompt
    | None => prompt
    end in
  prompt ++ closing.

End Prompt.

(* ===================================================================== *)
(** * The language-model capability: llm/types.ts, llm/providers *)
(* ===================================================================== *)

(** The world outside the program: the clock that [Date.now()] reads, in
    milliseconds, and the state [ext] of whatever a provider talks to. *)
Record World (E : Type) : Type := {
  clock : Z;
  ext : E
}.
Arguments clock {E} w.
Arguments ext {E} w.

Definition Date_now {E : Type} (w : World E) : Z := clock w.

(** Time passing while a timer is awaited. *)
Definition sleep {E : Type} (ms : Z) (w : World E) : World E :=
  {| clock := clock w + ms; ext := ext w |}.

Module LLM.
Import Regex.

(** [LLMProviderOptions], also used as [Partial<LLMProviderOptions>]: a
    field that is not set is [None]. *)
Record LLMProviderOptions : Type := {
  apiKey : option jsstring;
  model : option jsstring;
  temperature : option JsNum.number;
  maxTokens : option Z;
  stopSequences : option (list jsstring);
  endpoint : option jsstring
}.

Record LLMRequest : Type := {
  prompt : jsstring;
  options : option LLMProviderOptions
}.

Record Usage : Type := {
  promptTokens : Z;
  completionTokens : Z;
  totalTokens : Z
}.

Record LLMResponse : Type := {
  content : jsstring;
  usage : option Usage;
  error : option jsstring
}.

(** A provider: awaiting [generate] yields a response or a rejection and
    changes the world. *)
Record LLMProvider (E : Type) : Type := {
  name : jsstring;
  generate : LLMRequest -> World E -> Outcome LLMResponse * World E
}.
Arguments name {E} _.
Arguments generate {E} _.

(** ** providers/mock.ts *)

Definition dot_star (parts : list jsstring) : regex :=
  (fix go (parts : list jsstring) : regex :=
     match parts with
     | [] => Eps
     | [part] => Str part
     | part :: parts' => Seq (Str part) (Seq (Star Dot) (go parts'))
     end) parts.

(** [/navigate|go|open|show.*<page>/i] *)
Definition navigate_pattern (page : jsstring) : regex :=
  Alts [Str (lit "navigate"); Str (lit "go"); Str (lit "open");
        dot_star [lit "show"; page]].

(** [/hello|hi|hey/i] *)
Definition greeting_pattern : regex :=
  Alts [Str (lit "hello"); Str (lit "hi"); Str (lit "hey")].

Definition num (m e : Z) : Json.value := Json.JNum (JsNum.Fin (JsNum.Dec m e)).
Definition str (s : string) : Json.value := Json.JStr (lit s).

(** [patternResponses]; every pattern carries the [i] flag. *)
Definition patternResponses : list (regex * jsstring) :=
  [ (dot_star [lit "show"; lit "sales"; lit "last month"],
     Json.stringify (Json.JObj [(lit "action", str "filter"); (lit "target", str "sales");
                                (lit "params", Json.JObj [(lit "dateRange", str "last_month")]);
                                (lit "confidence", num 95 (-2))]));
    (navigate_pattern (lit "dashboard"),
     Json.stringify (Json.JObj [(lit "action", str "navigate"); (lit "target", str "dashboard");
                                (lit "confidence", num 95 (-2))]));
    (navigate_pattern (lit "settings"),
     Json.stringify (Json.JObj [(lit "action", str "navigate"); (lit "target", str "settings");
                                (lit "confidence", num 95 (-2))]));
    (navigate_pattern (lit "profile"),
     Json.stringify (Json.JObj [(lit "action", str "navigate"); (lit "target", str "profile");
                                (lit "confidence", num 95 (-2))]));
    (dot_star [lit "export"; lit "pdf"],
     Json.stringify (Json.JObj [(lit "action", str "export"); (lit "target", str "current");
                                (lit "params", Json.JObj [(lit "format", str "pdf")]);
                                (lit "confidence", num 9 (-1))]));
    (dot_star [lit "export"; lit "csv"],
     Json.stringify (Json.JObj [(lit "action", str "export"); (lit "target", str "current");
                                (lit "params", Json.JObj [(lit "format", str "csv")]);
                                (lit "confidence", num 9 (-1))]));
    (dot_star [lit "filter"; lit "region"; lit "europe"],
     Json.stringify (Json.JObj [(lit "action", str "filter"); (lit "target", str "data");
                                (lit "params", Json.JObj [(lit "region", str "europe")]);
                                (lit "confidence", num 92 (-2))]));
    (dot_star [lit "sort"; lit "by"; lit "date"],
     Json.stringify (Json.JObj [(lit "action", str "sort"); (lit "target", str "data");
                                (lit "params", Json.JObj [(lit "field", str "date")]);
                                (lit "confidence", num 88 (-2))]));
    (greeting_pattern,
     Json.stringify (Json.JObj [(lit "action", str "greet");
                                (lit "confidence", num 8 (-1))])) ].

(** The loop over [patternResponses]: the response of the first pattern
    that matches. *)
Fixpoint first_match (rules : list (regex * jsstring)) (input : jsstring)
  : option jsstring :=
  match rules with
  | [] => None
  | (pattern, response) :: rules' =>
      if test true pattern input then Some response
      else first_match rules' input
  end.

Definition fallback (input : jsstring) : Json.value :=
  Json.JObj [(lit "action", str "unknown");
             (lit "params", Json.JObj [(lit "rawInput", Json.JStr input)]);
             (lit "confidence", num 4 (-1))].

Definition MockProvider_generate {E : Type} (request : LLMRequest) (w : World E)
  : Outcome LLMResponse * World E :=
  let w := sleep 300 w in
  let input := prompt request in
  let words := Z.of_nat (split_count 32 input) in
  match first_match patternResponses input with
  | Some response =>
      (Returned {| content := response;
                   usage := Some {| promptTokens := words;
                                    completionTokens := Z.of_nat (length response);
                                    totalTokens := words + Z.of_nat (length response) |};
                   error := None |}, w)
  | None =>
      (Returned {| content := Json.stringify (fallback input);
                   usage := Some {| promptTokens := words;
                                    completionTokens := 20;
                                    totalTokens := words + 20 |};
                   error := None |}, w)
  end.

Definition MockProvider {E : Type} (options : LLMProviderOptions) : LLMProvider E :=
  {| name := lit "mock"; generate := MockProvider_generate |}.

(** ** providers/index.ts *)

(** [{ ...base, ...over }] *)
Definition spread_options (base over : LLMProviderOptions) : LLMProviderOptions :=
  {| apiKey := from_option Some (apiKey base) (apiKey over);
     model := from_option Some (model base) (model over);
     temperature := from_option Some (temperature base) (temperature over);
     maxTokens := from_option Some (maxTokens base) (maxTokens over);
     stopSequences := from_option Some (stopSequences base) (stopSequences over);
     endpoint := from_option Some (endpoint base) (endpoint over) |}.

Section Providers.
Context {E : Type}.

(** The two providers that post the prompt to a remote endpoint. What
    their [generate] answers is decided by the network; they are taken
    as given. *)
Variable OpenAIProvider AnthropicProvider : LLMProviderOptions -> LLMProvider E.

Definition createLLMProvider (type : jsstring) (options : LLMProviderOptions)
  : Outcome (LLMProvider E) :=
  if eqb type (lit "openai") then Returned (OpenAIProvider options)
  else if eqb type (lit "anthropic") then Returned (AnthropicProvider options)
  else if eqb type (lit "mock") then Returned (MockProvider options)
  else Thrown (Error (lit "Unsupported LLM provider: " ++ type)).
End Providers.

End LLM.

(* ===================================================================== *)
(** * The resolution loop: nlu/types.ts and nlu/index.ts *)
(* ===================================================================== *)

Module NLUTypes.

(** [maxRetries] counts retries and is a natural number here. *)
Record NLUOptions : Type := {
  llmProvider : jsstring;
  llmOptions : option LLM.LLMProviderOptions;
  promptOptions : option Prompt.PromptTemplateOptions;
  defaultContext : option Prompt.PromptContext;
  keepHistory : option bool;
  historyLimit : option Z;
  debug : option bool;
  retryOnFailure : option bool;
  maxRetries : option nat;
  minConfidence : option JsNum.number
}.

(** The intent of a result is the object that [JSON.parse] built: the
    program does not check it against the type [Intent]. *)
Record ParseResult : Type := {
  success : bool;
  intent : option Json.value;
  error : option jsstring;
  rawLLMResponse : option jsstring;
  processingTime : option Z;
  retries : option Z;
  correctionSuggestion : option jsstring
}.

End NLUTypes.

Module NLU.
Import NLUTypes.
Local Open Scope Z_scope.

(** An instance of the class [NaturalLanguageUnderstanding]. *)
Record NaturalLanguageUnderstanding (E : Type) : Type := {
  llmProvider : LLM.LLMProvider E;
  options : NLUOptions;
  history : list Prompt.PromptHistoryItem
}.
Arguments llmProvider {E} _.
Arguments options {E} _.
Arguments history {E} _.

(** A boolean option that may be [undefined], used as a condition. *)
Definition is_set (b : option bool) : bool := default false b.

(** [{ ...defaults, ...context }] on prompt contexts. *)
Definition spread_context (defaults over : option Prompt.PromptContext)
  : Prompt.PromptContext :=
  let defaults := default Prompt.empty_context defaults in
  let over := default Prompt.empty_context over in
  {| Prompt.page := from_option Some (Prompt.page defaults) (Prompt.page over);
     Prompt.availableActions :=
       from_option Some (Prompt.availableActions defaults) (Prompt.availableActions over);
     Prompt.availableTargets :=
       from_option Some (Prompt.availableTargets defaults) (Prompt.availableTargets over);
     Prompt.appState := from_option Some (Prompt.appState defaults) (Prompt.appState over) |}.

Definition dummy_key : LLM.LLMProviderOptions :=
  {| LLM.apiKey := Some (lit "dummy-key"); LLM.model := None;
     LLM.temperature := None; LLM.maxTokens := None;
     LLM.stopSequences := None; LLM.endpoint := None |}.

Section Instance.
Context {E : Type}.
Variable OpenAIProvider AnthropicProvider
  : LLM.LLMProviderOptions -> LLM.LLMProvider E.

(** The constructor: the defaults of [keepHistory], [historyLimit] and
    [debug] give way to the options passed. *)
Definition constructor (options : NLUOptions)
  : Outcome (NaturalLanguageUnderstanding E) :=
  let this_options :=
    {| NLUTypes.llmProvider := NLUTypes.llmProvider options;
       llmOptions := llmOptions options;
       promptOptions := promptOptions options;
       defaultContext := defaultContext options;
       keepHistory := Some (default true (keepHistory options));
       historyLimit := Some (default 10%Z (historyLimit options));
       debug := Some (default false (debug options));
       retryOnFailure := retryOnFailure options;
       maxRetries := maxRetries options;
       minConfidence := minConfidence options |} in
  let llmOptions :=
    match llmOptions options with
    | Some over => LLM.spread_options dummy_key over
    | None => dummy_key
    end in
  match LLM.createLLMProvider OpenAIProvider AnthropicProvider
          (NLUTypes.llmProvider options) llmOptions with
  | Returned provider =>
      Returned {| llmProvider := provider; options := this_options; history := [] |}
  | Thrown e => Thrown e
  end.
End Instance.

Definition set_history {E : Type} (this : NaturalLanguageUnderstanding E)
           (history : list Prompt.PromptHistoryItem)
  : NaturalLanguageUnderstanding E :=
  {| llmProvider := llmProvider this; options := options this; history := history |}.

(** [addToHistory], called at the time [now]. *)
Definition addToHistory {E : Type} (this : NaturalLanguageUnderstanding E)
           (input : jsstring) (intent : Json.value) (now : Z)
  : NaturalLanguageUnderstanding E :=
  let history :=
    history this ++ [{| Prompt.input := input; Prompt.intent := intent;
                        Prompt.timestamp := now |}] in
  match historyLimit (options this) with
  | Some limit =>
      if negb (limit =? 0)%Z && (limit <? Z.of_nat (length history))%Z
      then set_history this (Prompt.slice_from (- limit) history)
      else set_history this history
  | None => set_history this history
  end.

(** [getHistory]: the elements of the history, in a new array. *)
Definition getHistory {E : Type} (this : NaturalLanguageUnderstanding E)
  : list Prompt.PromptHistoryItem :=
  history this.

Definition clearHistory {E : Type} (this : NaturalLanguageUnderstanding E)
  : NaturalLanguageUnderstanding E :=
  set_history this [].

(** ** Decoding the text of the model *)

(** What the inner [try] block does with the text: it ends with an intent,
    with the missing-action result, or in the [catch] clause. *)
Inductive Decoded : Type :=
| Intent (intent : Json.value)
| MissingAction
| Caught (e : JsError).

Definition is_truthy (x : option Json.value) : bool :=
  match x with Some v => Json.truthy v | None => false end.

(** [Math.max(0, Math.min(1, c))] *)
Definition clamp (c : JsNum.number) : JsNum.number :=
  JsNum.max JsNum.zero (JsNum.min JsNum.one c).

Definition decode (content : jsstring) : Decoded :=
  match Json.parse content with
  | Thrown e => Caught e
  | Returned intent =>
      match Json.get_member intent (lit "action") with
      | Thrown e => Caught e
      | Returned action =>
          if negb (is_truthy action) then MissingAction
          else
            match Json.get_member intent (lit "confidence") with
            | Thrown e => Caught e
            | Returned None => Intent intent
            | Returned (Some confidence) =>
                match Json.to_number confidence with
                | Thrown e => Caught e
                | Returned c =>
                    Intent (Json.set_member intent (lit "confidence")
                              (Json.JNum (clamp c)))
                end
            end
      end
  end.

(** [intent.confidence] of a decoded intent, [None] for [undefined]. *)
Definition confidence_of (intent : Json.value) : option Json.value :=
  match Json.get_member intent (lit "confidence") with
  | Returned c => c
  | Thrown _ => None
  end.

(** [intent.confidence !== undefined && intent.confidence < minConfidence];
    the confidence of a decoded intent is a number. *)
Definition low_confidence (intent : Json.value) (minConfidence : JsNum.number)
  : bool :=
  match confidence_of intent with
  | Some (Json.JNum c) => JsNum.lt c minConfidence
  | _ => false
  end.

Definition confidence_text (intent : Json.value) : jsstring :=
  match confidence_of intent with
  | Some v => match Json.to_string v with Returned t => t | Thrown _ => [] end
  | None => lit "undefined"
  end.

(** ** parseIntent *)

(** [if (llmResponse.error)]: the error is set and is not the empty
    string. *)
Definition has_error (llmResponse : LLM.LLMResponse) : bool :=
  is_set (JsString.truthy <$> LLM.error llmResponse).

(** An invocation of [generate]: the request and what awaiting it gave. *)
Abbreviation Invocation := (LLM.LLMRequest * Outcome LLM.LLMResponse)%type.

(** How one pass through the body of the [while] loop ends. *)
Inductive Control (E : Type) : Type :=
| Continue (lastResult : option ParseResult)
| Break (lastResult : option ParseResult)
| Return (result : ParseResult) (this : NaturalLanguageUnderstanding E).
Arguments Continue {E} lastResult.
Arguments Break {E} lastResult.
Arguments Return {E} result this.

Definition failure (error : jsstring) (rawLLMResponse : option jsstring)
           (processingTime : Z) (retries : option Z)
           (correctionSuggestion : option jsstring) : ParseResult :=
  {| success := false; intent := None; error := Some error;
     rawLLMResponse := rawLLMResponse;
     processingTime := Some processingTime; retries := retries;
     correctionSuggestion := correctionSuggestion |}.

Section ParseIntent.
Context {E : Type}.
Variable this : NaturalLanguageUnderstanding E.
Variable input : jsstring.
Variable context : option Prompt.PromptContext.

Definition retryOnFailure_ : bool := default true (retryOnFailure (options this)).
Definition maxRetries_ : nat := default 1%nat (maxRetries (options this)).
Definition minConfidence_ : JsNum.number :=
  default (JsNum.Fin (JsNum.Dec 6 (-1))) (minConfidence (options this)).
Definition debug_ : bool := is_set (debug (options this)).

(** The body of the loop after [attempts++]. It yields how the pass ends,
    the world after it and the invocations of [generate] it made. *)
Definition attempt (startTime : Z) (attempts : nat)
           (lastResult : option ParseResult) (w : World E)
  : Control E * World E * list Invocation :=
  let normalizedInput := Normalizer.normalizeInput input in
  if Normalizer.hasSensitiveContent normalizedInput then
    (Return (failure (lit "Input contains sensitive content") None
                     (Date_now w - startTime) None None) this,
     w, [])
  else
    let mergedContext := spread_context (defaultContext (options this)) context in
    let prompt :=
      Prompt.createDefaultIntentPrompt normalizedInput (Some mergedContext)
        (if is_set (keepHistory (options this)) then Some (history this) else None)
        (promptOptions (options this)) in
    let request := {| LLM.prompt := prompt; LLM.options := None |} in
    match LLM.generate (llmProvider this) request w with
    | (Thrown error, w) =>
        (Break (Some (failure (lit "Unexpected error: " ++ error_message error)
                              None (Date_now w - startTime)
                              (Some (Z.of_nat attempts - 1)) None)),
         w, [(request, Thrown error)])
    | (Returned llmResponse, w) =>
        let sent := [(request, Returned llmResponse)] in
        if has_error llmResponse then
          (Break (Some (failure
                          (lit "LLM error: " ++ default [] (LLM.error llmResponse))
                          (Some (LLM.content llmResponse))
                          (Date_now w - startTime)
                          (Some (Z.of_nat attempts - 1)) None)),
           w, sent)
        else
          match decode (LLM.content llmResponse) with
          | MissingAction =>
              (Continue
                 (Some (failure
                          (litq "Failed to parse intent: Missing required `action` field in intent")
                          (Some (LLM.content llmResponse))
                          (Date_now w - startTime)
                          (Some (Z.of_nat attempts - 1)) None)),
               w, sent)
          | Caught error =>
              (Continue
                 (Some (failure
                          (lit "Failed to parse intent: " ++ error_message error)
                          (Some (LLM.content llmResponse))
                          (Date_now w - startTime)
                          (Some (Z.of_nat attempts - 1)) None)),
               w, sent)
          | Intent intent =>
              if low_confidence intent minConfidence_ then
                if (attempts <=? maxRetries_)%nat && retryOnFailure_ then
                  (Continue lastResult, w, sent)
                else
                  (Return (failure
                             (lit "Low confidence intent (" ++ confidence_text intent ++ lit ")")
                             (Some (LLM.content llmResponse))
                             (Date_now w - startTime)
                             (Some (Z.of_nat attempts - 1))
                             (Some (lit "Can you rephrase or clarify your command?")))
                          this,
                   w, sent)
              else
                let this' :=
                  if is_set (keepHistory (options this))
                  then addToHistory this normalizedInput intent (Date_now w)
                  else this in
                (Return {| success := true; intent := Some intent; error := None;
                           rawLLMResponse :=
                             if debug_ then Some (LLM.content llmResponse) else None;
                           processingTime := Some (Date_now w - startTime);
                           retries := Some (Z.of_nat attempts - 1);
                           correctionSuggestion := None |}
                        this',
                 w, sent)
          end
    end.

(** What a call of [parseIntent] leaves behind: the value returned
    ([None] for [null]), the instance, the world, and the invocations of
    [generate], in order. *)
Record Run : Type := {
  result : option ParseResult;
  instance : NaturalLanguageUnderstanding E;
  world : World E;
  calls : list Invocation
}.

(** [while (attempts <= maxRetries) { attempts++; ... }]. The loop is
    entered with [fuel] passes allowed; [parseIntent] allows one more
    than [maxRetries], which the loop cannot use up. *)
Fixpoint attempts_loop (startTime : Z) (fuel : nat) (attempts : nat)
         (lastResult : option ParseResult) (w : World E)
         (calls : list Invocation) : Run :=
  if (attempts <=? maxRetries_)%nat then
    match fuel with
    | O => {| result := lastResult; instance := this; world := w; calls := calls |}
    | S fuel' =>
        let attempts := S attempts in
        match attempt startTime attempts lastResult w with
        | (Continue lastResult, w, sent) =>
            attempts_loop startTime fuel' attempts lastResult w (calls ++ sent)
        | (Break lastResult, w, sent) =>
            {| result := lastResult; instance := this; world := w;
               calls := calls ++ sent |}
        | (Return r this', w, sent) =>
            {| result := Some r; instance := this'; world := w;
               calls := calls ++ sent |}
        end
    end
  else {| result := lastResult; instance := this; world := w; calls := calls |}.

Definition parseIntent (w : World E) : Run :=
  let startTime := Date_now w in
  attempts_loop startTime (S maxRetries_) 0 None w [].

End ParseIntent.

End NLU.

(* ===================================================================== *)
(** * Intents and responses: packages/types/src/index.ts *)
(* ===================================================================== *)

Module Types.

Record Intent : Type := {
  action : jsstring;
  target : option jsstring;
  params : option Json.value;
  confidence : option JsNum.number
}.

Record IntentResponse (D : Type) : Type := {
  success : bool;
  message : option jsstring;
  data : option D
}.
Arguments success {D} _.
Arguments message {D} _.
Arguments data {D} _.

End Types.

(* ===================================================================== *)
(** * The router: router/index.ts, with the registry of
      packages/actions/src/executors/index.ts *)
(* ===================================================================== *)

Module Router.
Import Types.

(** The property names that every object inherits from [Object.prototype].
    [actionExecutors] is an object literal, so [actionExecutors[name]] is
    defined for them even when nothing was registered under [name]. *)
Definition object_prototype_keys : list jsstring :=
  [ lit "constructor"; lit "hasOwnProperty"; lit "isPrototypeOf";
    lit "propertyIsEnumerable"; lit "toLocaleString"; lit "toString";
    lit "valueOf"; lit "__proto__"; lit "__defineGetter__";
    lit "__defineSetter__"; lit "__lookupGetter__"; lit "__lookupSetter__" ].

Definition inherited (name : jsstring) : bool :=
  bool_decide (name ∈ object_prototype_keys).

(** What the program does that a caller can observe besides the response. *)
Inductive Event : Type :=
| MiddlewareRan (index : nat)
| ExecutorRan (name : jsstring).

Section Routing.
(** [W] is the state that handlers and middleware act on, [C] the type of
    executor contexts and [D] the type of the values handlers return. *)
Context {W C D : Type}.

Definition ExecutorFunction : Type :=
  Intent -> option C -> W -> Outcome D * W.

(** A middleware returns an intent, or [None] for [null]. *)
Definition Middleware : Type :=
  Intent -> W -> Outcome (option Intent) * W.

Record RouterOptions : Type := {
  defaultErrorMessage : option jsstring;
  fallbackAction : option jsstring;
  debug : option bool;
  middleware : option (list Middleware)
}.

(** The options object [{}]. *)
Definition no_options : RouterOptions :=
  {| defaultErrorMessage := None; fallbackAction := None;
     debug := None; middleware := None |}.

(** [{ ...defaultOptions, ...options }] *)
Definition merge_options (options : RouterOptions) : RouterOptions :=
  {| defaultErrorMessage :=
       Some (default (lit "Action execution failed") (defaultErrorMessage options));
     fallbackAction := fallbackAction options;
     debug := Some (default false (debug options));
     middleware := middleware options |}.

(** Calling a member of [Object.prototype] as an executor: what the
    built-in function returns or throws ([__proto__] is not callable,
    so calling it throws). *)
Variable call_inherited : jsstring -> ExecutorFunction.

(** [actionExecutors[name]], for the registry whose own properties are
    [actionExecutors]; [None] is [undefined]. *)
Definition lookup_executor (actionExecutors : gmap jsstring ExecutorFunction)
           (name : jsstring) : option ExecutorFunction :=
  match actionExecutors !! name with
  | Some executor => Some executor
  | None => if inherited name then Some (call_inherited name) else None
  end.

(** [registerExecutor] *)
Definition registerExecutor (actionExecutors : gmap jsstring ExecutorFunction)
           (action : jsstring) (executor : ExecutorFunction)
  : gmap jsstring ExecutorFunction :=
  <[action := executor]> actionExecutors.

(** How the loop over the middleware ends. *)
Inductive Chain : Type :=
| Passed (currentIntent : Intent)
| Rejected
| Threw (error : JsError).

(** [for (const middlewareFn of mergedOptions.middleware)], the function
    at hand having the index [index]. *)
Fixpoint run_middleware (fns : list Middleware) (index : nat)
         (currentIntent : Intent) (w : W) (trace : list Event)
  : Chain * W * list Event :=
  match fns with
  | [] => (Passed currentIntent, w, trace)
  | middlewareFn :: fns' =>
      let trace := trace ++ [MiddlewareRan index] in
      match middlewareFn currentIntent w with
      | (Thrown error, w) => (Threw error, w, trace)
      | (Returned None, w) => (Rejected, w, trace)
      | (Returned (Some result), w) =>
          run_middleware fns' (S index) result w trace
      end
  end.

Definition respond (success : bool) (message : option jsstring) (data : option D)
  : IntentResponse D :=
  {| success := success; message := message; data := data |}.

Definition router_error (error : JsError) : IntentResponse D :=
  respond false (Some (lit "Router error: " ++ error_message error)) None.

(** The part of [routeIntent] after the middleware. *)
Definition dispatch (actionExecutors : gmap jsstring ExecutorFunction)
           (mergedOptions : RouterOptions)
           (intent : Intent) (context : option C) (w : W) (trace : list Event)
  : IntentResponse D * W * list Event :=
  let executor := lookup_executor actionExecutors (action intent) in
  let fallback :=
    match executor, fallbackAction mergedOptions with
    | None, Some fallbackAction =>
        if JsString.truthy fallbackAction then
          match lookup_executor actionExecutors fallbackAction with
          | Some fallbackExecutor => Some (fallbackAction, fallbackExecutor)
          | None => None
          end
        else None
    | _, _ => None
    end in
  match fallback with
  | Some (fallbackAction, fallbackExecutor) =>
      let trace := trace ++ [ExecutorRan fallbackAction] in
      match fallbackExecutor intent context w with
      | (Returned data, w) =>
          (respond true
             (Some (lit "Executed fallback action: " ++ fallbackAction))
             (Some data), w, trace)
      | (Thrown error, w) => (router_error error, w, trace)
      end
  | None =>
      match executor with
      | None =>
          (respond false (Some (lit "Unknown action: " ++ action intent)) None,
           w, trace)
      | Some executor =>
          let trace := trace ++ [ExecutorRan (action intent)] in
          match executor intent context w with
          | (Returned data, w) => (respond true None (Some data), w, trace)
          | (Thrown error, w) =>
              (respond false
                 (if JsString.truthy (error_message error)
                  then Some (error_message error)
                  else defaultErrorMessage mergedOptions)
                 None, w, trace)
          end
      end
  end.

(** [routeIntent]: the response, the state left behind, and the
    middleware and executors that ran, in order. *)
Definition routeIntent (actionExecutors : gmap jsstring ExecutorFunction)
           (intent : Intent) (context : option C) (options : RouterOptions)
           (w : W)
  : IntentResponse D * W * list Event :=
  let mergedOptions := merge_options options in
  match middleware mergedOptions with
  | Some (middlewareFn :: fns) =>
      match run_middleware (middlewareFn :: fns) 0 intent w [] with
      | (Rejected, w, trace) =>
          (respond false (Some (lit "Intent rejected by middleware")) None,
           w, trace)
      | (Threw error, w, trace) => (router_error error, w, trace)
      | (Passed currentIntent, w, trace) =>
          dispatch actionExecutors mergedOptions currentIntent context w trace
      end
  | _ => dispatch actionExecutors mergedOptions intent context w []
  end.

(** [createValidationMiddleware] *)
Definition createValidationMiddleware
           (validActions validTargets : option (list jsstring)) : Middleware :=
  fun intent w =>
    let bad_action :=
      match validActions with
      | Some (a :: actions) => negb (bool_decide (action intent ∈ a :: actions))
      | _ => false
      end in
    let bad_target :=
      match validTargets, target intent with
      | Some (t :: targets), Some target =>
          JsString.truthy target && negb (bool_decide (target ∈ t :: targets))
      | _, _ => false
      end in
    if bad_action then (Returned None, w)
    else if bad_target then (Returned None, w)
    else (Returned (Some intent), w).

(** ** The middleware that fills in defaults *)

(** The elements of an array or the code units of a string under their
    indices, from the index [i] on. *)
Fixpoint indexed {A : Type} (i : nat) (xs : list A) : list (jsstring * A) :=
  match xs with
  | [] => []
  | x :: xs' => (JsNum.nat_digits (Z.of_nat i), x) :: indexed (S i) xs'
  end.

(** The own enumerable properties of a value, which an object spread
    [{ ...x }] copies: the properties of an object, the elements of an
    array, the code units of a string; [undefined], [null], numbers and
    booleans have none. *)
Definition own_enumerable (x : option Json.value) : list (jsstring * Json.value) :=
  match x with
  | Some (Json.JObj props) => props
  | Some (Json.JArr items) => indexed 0 items
  | Some (Json.JStr s) => indexed 0 (map (fun c => Json.JStr [c]) s)
  | _ => []
  end.

(** [{ ...a, ...b }]: the properties of [a], then those of [b], defined one
    after the other on a new object. *)
Definition spread (a b : option Json.value) : list (jsstring * Json.value) :=
  fold_left (fun props kv => Json.set_prop props kv.1 kv.2)
            (own_enumerable a ++ own_enumerable b) [].

(** [createDefaultsMiddleware(defaults)], with [defaults.target] and
    [defaults.params] as its two arguments. *)
Definition createDefaultsMiddleware
           (defaults_target : option jsstring) (defaults_params : option Json.value)
  : Middleware :=
  fun intent w =>
    (Returned
       (Some {| action := action intent;
                target :=
                  match target intent with
                  | Some t => if JsString.truthy t then Some t else defaults_target
                  | None => defaults_target
                  end;
                params := Some (Json.JObj (spread defaults_params (params intent)));
                confidence := confidence intent |}),
     w).

End Routing.

End Router.

(* ===================================================================== *)
(** * The history as objects in a store *)
(* ===================================================================== *)

(** Arrays and history items are objects with an identity. [NLU.history]
    above is the sequence of items that [this.history] refers to; here the
    references are kept, so that an array handed out to a caller and the
    array of the instance can be told apart. *)
Module HistoryStore.

Abbreviation loc := nat.

Inductive object : Type :=
| Array (elements : list loc)
| Item (item : Prompt.PromptHistoryItem).

Abbreviation store := (gmap loc object).

(** The part of an instance that the history methods use: the store, the
    reference held in [this.history] and [this.options.historyLimit]. *)
Record State : Type := {
  objects : store;
  this_history : loc;
  historyLimit : option Z
}.

(** A new object. *)
Definition alloc (h : store) (o : object) : loc * store :=
  let l := fresh (dom h) in (l, <[l := o]> h).

Definition elements_at (h : store) (l : loc) : list loc :=
  match h !! l with
  | Some (Array xs) => xs
  | _ => []
  end.

Definition item_at (h : store) (l : loc) : option Prompt.PromptHistoryItem :=
  match h !! l with
  | Some (Item item) => Some item
  | _ => None
  end.

(** The field initialiser [history = []]. *)
Definition init (limit : option Z) : State :=
  let '(a, h) := alloc ∅ (Array []) in
  {| objects := h; this_history := a; historyLimit := limit |}.

(** [addToHistory]: the new item is pushed onto the array in place; when
    the array has grown beyond the limit, [slice] builds a new array and
    [this.history] is set to it. *)
Definition addToHistory (st : State) (input : jsstring) (intent : Json.value)
           (now : Z) : State :=
  let '(i, h) :=
    alloc (objects st)
          (Item {| Prompt.input := input; Prompt.intent := intent;
                   Prompt.timestamp := now |}) in
  let pushed := elements_at h (this_history st) ++ [i] in
  let h := <[this_history st := Array pushed]> h in
  let truncate :=
    match historyLimit st with
    | Some limit => negb (limit =? 0)%Z && (limit <? Z.of_nat (length pushed))%Z
    | None => false
    end in
  if truncate then
    let '(a, h) :=
      alloc h (Array (Prompt.slice_from (- default 0%Z (historyLimit st)) pushed)) in
    {| objects := h; this_history := a; historyLimit := historyLimit st |}
  else
    {| objects := h; this_history := this_history st; historyLimit := historyLimit st |}.

(** [getHistory]: [[...this.history]] is a new array with the elements of
    [this.history]; the reference to it is returned. *)
Definition getHistory (st : State) : loc * State :=
  let '(r, h) := alloc (objects st) (Array (elements_at (objects st) (this_history st))) in
  (r, {| objects := h; this_history := this_history st;
         historyLimit := historyLimit st |}).

(** [clearHistory] *)
Definition clearHistory (st : State) : State :=
  let '(a, h) := alloc (objects st) (Array []) in
  {| objects := h; this_history := a; historyLimit := historyLimit st |}.

(** What the holder of a reference to an array can do with the array:
    push a new item, or replace its elements by any rearrangement of them
    ([pop], [shift], [splice], [reverse], [sort], an assignment to an index
    or to [length], ...). *)
Inductive ArrayOp : Type :=
| PushNew (item : Prompt.PromptHistoryItem)
| Rearrange (f : list loc -> list loc).

Definition apply_op (r : loc) (st : State) (op : ArrayOp) : State :=
  match op with
  | PushNew item =>
      let '(i, h) := alloc (objects st) (Item item) in
      {| objects := <[r := Array (elements_at h r ++ [i])]> h;
         this_history := this_history st; historyLimit := historyLimit st |}
  | Rearrange f =>
      {| objects := <[r := Array (f (elements_at (objects st) r))]> (objects st);
         this_history := this_history st; historyLimit := historyLimit st |}
  end.

(** An assignment to a field of the item object at [l]. *)
Definition update_item (l : loc) (g : Prompt.PromptHistoryItem -> Prompt.PromptHistoryItem)
           (st : State) : State :=
  match item_at (objects st) l with
  | Some item =>
      {| objects := <[l := Item (g item)]> (objects st);
         this_history := this_history st; historyLimit := historyLimit st |}
  | None => st
  end.

(** The items that [this.history] holds, as the prompt builder and
    [NLU.history] see them. *)
Definition view (st : State) : list Prompt.PromptHistoryItem :=
  omap (item_at (objects st)) (elements_at (objects st) (this_history st)).

(** The items of the array at [r]. *)
Definition items_of (st : State) (r : loc) : list Prompt.PromptHistoryItem :=
  omap (item_at (objects st)) (elements_at (objects st) r).

(** [this.history] refers to an array whose elements refer to items. *)
Definition well_formed (st : State) : Prop :=
  exists xs, objects st !! this_history st = Some (Array xs)
             /\ Forall (fun l => is_Some (item_at (objects st) l)) xs.

End HistoryStore.

(* ===================================================================== *)
(** * The executors: packages/actions/src/executors/index.ts *)
(* ===================================================================== *)

(** The executors act on the world of the program. What they print with
    [console.log] is not kept; converting the printed values to text is
    modelled, since it can throw. *)
Module Executors.
Import Types.

(** What the executors of this file return: a text, or an object whose
    fields may be [undefined]; and the intent itself, which is what
    [Object(intent)] returns when [constructor] is used as an action. *)
Inductive Data : Type :=
| TextData (text : jsstring)
| ObjectData (fields : list (jsstring * option Json.value))
| IntentData (intent : Intent).

(** [a || b] on values that may be [undefined]. *)
Definition or_else (a b : option Json.value) : option Json.value :=
  match a with
  | Some v => if Json.truthy v then a else b
  | None => b
  end.

(** [params?.k] for a property name [k] that no prototype defines:
    [undefined] unless [params] is an object with the own property [k]. *)
Definition optional_member (params : option Json.value) (k : jsstring)
  : option Json.value :=
  match params with
  | Some (Json.JObj props) => Json.lookup_prop props k
  | _ => None
  end.

(** The text of a value in a template literal. *)
Definition text_of (x : option Json.value) : Outcome jsstring :=
  match x with
  | Some v => Json.to_string v
  | None => Returned (lit "undefined")
  end.

(** [!!x] *)
Definition is_truthy (x : option Json.value) : bool :=
  match x with
  | Some v => Json.truthy v
  | None => false
  end.

Definition string (s : jsstring) : option Json.value := Some (Json.JStr s).
Definition boolean (b : bool) : option Json.value := Some (Json.JBool b).

Section Executors.
Context {E C : Type}.

(** [new Date(t).toISOString()] for the time [t] that [Date.now()] shows. *)
Variable toISOString : Z -> jsstring.

Definition ExecutorFunction : Type := @Router.ExecutorFunction (World E) C Data.

Definition navigateExecutor : ExecutorFunction :=
  fun intent context w =>
    let page :=
      or_else (or_else (Json.JStr <$> target intent)
                       (optional_member (params intent) (lit "page")))
              (string (lit "home")) in
    match text_of page with
    | Thrown error => (Thrown error, w)
    | Returned _ =>
        (Returned (ObjectData [(lit "destination", page);
                               (lit "success", boolean true)]), w)
    end.

Definition filterExecutor : ExecutorFunction :=
  fun intent context w =>
    let filterTarget := or_default (target intent) (lit "data") in
    (Returned (ObjectData [(lit "target", string filterTarget);
                           (lit "filters", params intent);
                           (lit "success", boolean true)]), w).

Definition sortExecutor : ExecutorFunction :=
  fun intent context w =>
    let sortTarget := or_default (target intent) (lit "data") in
    let field :=
      or_else (optional_member (params intent) (lit "field")) (string (lit "default")) in
    let direction :=
      or_else (optional_member (params intent) (lit "direction")) (string (lit "asc")) in
    match text_of field with
    | Thrown error => (Thrown error, w)
    | Returned _ =>
        match text_of direction with
        | Thrown error => (Thrown error, w)
        | Returned _ =>
            (Returned (ObjectData [(lit "target", string sortTarget);
                                   (lit "sortField", field);
                                   (lit "sortDirection", direction);
                                   (lit "success", boolean true)]), w)
        end
    end.

Definition exportExecutor : ExecutorFunction :=
  fun intent context w =>
    let exportTarget := or_default (target intent) (lit "current") in
    let format :=
      or_else (optional_member (params intent) (lit "format")) (string (lit "pdf")) in
    match text_of format with
    | Thrown error => (Thrown error, w)
    | Returned _ =>
        (Returned (ObjectData [(lit "target", string exportTarget);
                               (lit "format", format);
                               (lit "timestamp", string (toISOString (Date_now w)));
                               (lit "success", boolean true)]), w)
    end.

Definition searchExecutor : ExecutorFunction :=
  fun intent context w =>
    let query :=
      or_else (or_else (optional_member (params intent) (lit "query"))
                       (optional_member (params intent) (lit "term")))
              (string []) in
    match text_of query with
    | Thrown error => (Thrown error, w)
    | Returned _ =>
        (Returned (ObjectData [(lit "query", query);
                               (lit "success", boolean (is_truthy query));
                               (lit "message",
                                string (if is_truthy query
                                        then lit "Search initiated"
                                        else lit "No search query provided"))]), w)
    end.

Definition submitExecutor : ExecutorFunction :=
  fun intent context w =>
    let form := or_default (target intent) (lit "form") in
    (Returned (ObjectData [(lit "form", string form);
                           (lit "data", params intent);
                           (lit "timestamp", string (toISOString (Date_now w)));
                           (lit "success", boolean true)]), w).

Definition greetExecutor : ExecutorFunction :=
  fun intent context w =>
    match text_of (or_else (optional_member (params intent) (lit "name"))
                           (string (lit "world"))) with
    | Thrown error => (Thrown error, w)
    | Returned name => (Returned (TextData (lit "Hello, " ++ name ++ lit "!")), w)
    end.

(** The own properties of [actionExecutors] as the module defines it. *)
Definition registered : list (jsstring * ExecutorFunction) :=
  [ (lit "sayHello", greetExecutor);
    (lit "goToPage", navigateExecutor);
    (lit "navigate", navigateExecutor);
    (lit "filter", filterExecutor);
    (lit "sort", sortExecutor);
    (lit "export", exportExecutor);
    (lit "search", searchExecutor);
    (lit "submit", submitExecutor);
    (lit "greet", greetExecutor);
    (lit "open", navigateExecutor);
    (lit "show", filterExecutor) ].

Definition actionExecutors : gmap jsstring ExecutorFunction :=
  list_to_map registered.

(** What [executeChain] pushes for an action without an executor. *)
Definition no_executor_found (action : jsstring) : Data :=
  ObjectData [(lit "success", boolean false);
              (lit "error", string (lit "No executor found for action: " ++ action))].

Variable call_inherited : jsstring -> ExecutorFunction.

(** The loop of [executeChain], with the results pushed so far. An
    executor that throws ends the loop: the promise is rejected. *)
Fixpoint executeChain_loop (executors : gmap jsstring ExecutorFunction)
         (intents : list Intent) (context : option C) (w : World E)
         (results : list Data) : Outcome (list Data) * World E :=
  match intents with
  | [] => (Returned results, w)
  | intent :: intents' =>
      match Router.lookup_executor call_inherited executors (action intent) with
      | Some executor =>
          match executor intent context w with
          | (Returned result, w) =>
              executeChain_loop executors intents' context w (results ++ [result])
          | (Thrown error, w) => (Thrown error, w)
          end
      | None =>
          executeChain_loop executors intents' context w
                            (results ++ [no_executor_found (action intent)])
      end
  end.

Definition executeChain (executors : gmap jsstring ExecutorFunction)
           (intents : list Intent) (context : option C) (w : World E)
  : Outcome (list Data) * World E :=
  executeChain_loop executors intents context w [].

End Executors.

End Executors.

(* ===================================================================== *)
(** * Notions used in the statements *)
(* ===================================================================== *)

(** The failure that [parseIntent] builds from a response with an error. *)
Definition model_error {E : Type} (startTime : Z) (response : LLM.LLMResponse)
           (w : World E) (retries : Z) : NLUTypes.ParseResult :=
  NLU.failure (lit "LLM error: " ++ default [] (LLM.error response))
              (Some (LLM.content response))
              (Date_now w - startTime) (Some retries) None.

(** The text of the response is not decoded to an intent. *)
Definition decode_fails (response : LLM.LLMResponse) : Prop :=
  match NLU.decode (LLM.content response) with
  | NLU.Intent _ => False
  | _ => True
  end.

(** The invocations all gave a response without an error. *)
Definition all_answered (calls : list NLU.Invocation) : Prop :=
  Forall (fun call : NLU.Invocation =>
            match call.2 with
            | Returned response => NLU.has_error response = false
            | Thrown _ => False
            end) calls.

(** The value of [lastResult] is not a successful result. *)
Definition is_failure (lastResult : option NLUTypes.ParseResult) : Prop :=
  forall r, lastResult = Some r -> NLUTypes.success r = false.

(** The instance after a pass that returns the intent [intent] at the time
    shown by [w]. *)
Definition after_success {E : Type} (this : NLU.NaturalLanguageUnderstanding E)
           (input : jsstring) (intent : Json.value) (w : World E)
  : NLU.NaturalLanguageUnderstanding E :=
  if NLU.is_set (NLUTypes.keepHistory (NLU.options this))
  then NLU.addToHistory this (Normalizer.normalizeInput input) intent (Date_now w)
  else this.

(** [0 <= x <= 1] *)
Definition in_unit_interval (x : JsNum.number) : Prop :=
  JsNum.le JsNum.zero x = true /\ JsNum.le x JsNum.one = true.

(** The response is decoded to an intent whose confidence is not below
    [minConfidence]. *)
Definition accepted (minConfidence : JsNum.number) (response : jsstring) : bool :=
  match NLU.decode response with
  | NLU.Intent intent => negb (NLU.low_confidence intent minConfidence)
  | _ => false
  end.

(** The prompt that an instance without default context and prompt options
    sends for an input. *)
Definition mock_prompt (input : jsstring) (context : option Prompt.PromptContext)
  : jsstring :=
  Prompt.createDefaultIntentPrompt (Normalizer.normalizeInput input)
    (Some (NLU.spread_context None context)) None None.


(** The middleware with the indices [first] to [first + count - 1] ran. *)
Definition ran_middleware (first count : nat) : list Router.Event :=
  map Router.MiddlewareRan (seq first count).

(** The fallback cannot be used: none is configured, or its name is the
    empty string, or [actionExecutors] has nothing under its name. *)
Definition no_usable_fallback {W C D : Type}
           (call_inherited : jsstring -> @Router.ExecutorFunction W C D)
           (actionExecutors : gmap jsstring (@Router.ExecutorFunction W C D))
           (options : @Router.RouterOptions W) : Prop :=
  match Router.fallbackAction options with
  | None => True
  | Some name =>
      name = [] \/ Router.lookup_executor call_inherited actionExecutors name = None
  end.

(** The objects of [h] other than [r] are in [h'] as they were. *)
Definition preserved_except (r : HistoryStore.loc) (h h' : HistoryStore.store) : Prop :=
  forall l o, l <> r -> h !! l = Some o -> h' !! l = Some o.




(** The failure that [parseIntent] builds from a response that cannot be
    decoded; [None] when the response is decoded to an intent. *)
Definition decode_failure {E : Type} (startTime : Z) (response : LLM.LLMResponse)
           (w : World E) (retries : Z) : option NLUTypes.ParseResult :=
  match NLU.decode (LLM.content response) with
  | NLU.MissingAction =>
      Some (NLU.failure
              (litq "Failed to parse intent: Missing required `action` field in intent")
              (Some (LLM.content response)) (Date_now w - startTime) (Some retries) None)
  | NLU.Caught error =>
      Some (NLU.failure (lit "Failed to parse intent: " ++ error_message error)
              (Some (LLM.content response)) (Date_now w - startTime) (Some retries) None)
  | NLU.Intent _ => None
  end.

(** The failure that [parseIntent] returns for an intent whose confidence
    is below [minConfidence] when it is not retried. *)
Definition low_confidence_failure {E : Type} (startTime : Z)
           (response : LLM.LLMResponse) (intent : Json.value)
           (w : World E) (retries : Z) : NLUTypes.ParseResult :=
  NLU.failure (lit "Low confidence intent (" ++ NLU.confidence_text intent ++ lit ")")
              (Some (LLM.content response)) (Date_now w - startTime) (Some retries)
              (Some (lit "Can you rephrase or clarify your command?")).

(** The items of the history that the prompt shows for the limit [limit]:
    the last [limit] ones for a positive limit, all of them for the limit
    0, and all but the first [- limit] for a negative one. *)
Definition shown_history (limit : Z) (history : list Prompt.PromptHistoryItem)
  : list Prompt.PromptHistoryItem :=
  if (limit =? 0)%Z then history
  else if (0 <? limit)%Z then drop (length history - Z.to_nat limit) history
  else drop (Z.to_nat (- limit)) history.

(** The loop of [Json.parse_value] over the members of an object, with
    [fuel] for the values of the members and [n] for their number. *)
Fixpoint parse_members (fuel n : nat) (props : list (jsstring * Json.value))
         (s : jsstring) : option (Json.value * jsstring) :=
  match n with
  | O => None
  | S n' =>
      match Json.skip_ws s with
      | 34%N :: s2 =>
          match Json.parse_chars s2 [] with
          | Some (key, s3) =>
              match Json.skip_ws s3 with
              | 58%N :: s4 =>
                  match Json.parse_value fuel s4 with
                  | Some (v, s5) =>
                      let props := Json.set_prop props key v in
                      match Json.skip_ws s5 with
                      | 44%N :: s6 => parse_members fuel n' props s6
                      | 125%N :: rest => Some (Json.JObj props, rest)
                      | _ => None
                      end
                  | None => None
                  end
              | _ => None
              end
          | None => None
          end
      | _ => None
      end
  end.

(** The text [w] is the text [phrase] up to the case of its letters. *)
Definition same_letters (phrase w : jsstring) : Prop :=
  Forall2 (fun c x => Regex.chr_eq true c x = true) phrase w.

(** The code unit at the end of [before], or [prev] when [before] is
    empty: what stands in front of the text that follows [before]. *)
Definition last_or (prev : option N) (before : jsstring) : option N :=
  match last before with
  | Some c => Some c
  | None => prev
  end.

(** What a pattern matches, as a relation: [Matches ic r prev s prev' s']
    says that [r] matches the text between [s] and its suffix [s'], where
    [prev] stands in front of [s] and [prev'] in front of [s']. *)
Inductive Matches (ic : bool)
  : Regex.regex -> option N -> jsstring -> option N -> jsstring -> Prop :=
| Matches_Eps prev s : Matches ic Regex.Eps prev s prev s
| Matches_Chr c x prev s :
    Regex.chr_eq ic c x = true -> Matches ic (Regex.Chr c) prev (x :: s) (Some x) s
| Matches_Dot x prev s :
    is_line_terminator x = false -> Matches ic Regex.Dot prev (x :: s) (Some x) s
| Matches_Space x prev s :
    is_space x = true -> Matches ic Regex.Space prev (x :: s) (Some x) s
| Matches_WordB prev s :
    xorb (Regex.is_word_at prev) (Regex.is_word_at (head s)) = true ->
    Matches ic Regex.WordB prev s prev s
| Matches_Bol s : Matches ic Regex.Bol None s None s
| Matches_Seq r1 r2 prev s p1 s1 p2 s2 :
    Matches ic r1 prev s p1 s1 -> Matches ic r2 p1 s1 p2 s2 ->
    Matches ic (Regex.Seq r1 r2) prev s p2 s2
| Matches_Alt_l r1 r2 prev s p1 s1 :
    Matches ic r1 prev s p1 s1 -> Matches ic (Regex.Alt r1 r2) prev s p1 s1
| Matches_Alt_r r1 r2 prev s p2 s2 :
    Matches ic r2 prev s p2 s2 -> Matches ic (Regex.Alt r1 r2) prev s p2 s2
| Matches_Star_stop r prev s : Matches ic (Regex.Star r) prev s prev s
| Matches_Star_more r prev s p1 s1 p2 s2 :
    Matches ic r prev s p1 s1 -> (length s1 < length s)%nat ->
    Matches ic (Regex.Star r) p1 s1 p2 s2 ->
    Matches ic (Regex.Star r) prev s p2 s2.

(** A text whose white space consists of single spaces between other
    characters; [after_word] tells whether a space may come next. *)
Fixpoint spaced (after_word : bool) (s : jsstring) : bool :=
  match s with
  | [] => after_word
  | c :: s' =>
      if is_space c then N.eqb c 32 && after_word && spaced false s'
      else spaced true s'
  end.

(** The empty text, or a text that begins and ends with a character that
    is not white space and holds no white space but single spaces. *)
Definition tidy (s : jsstring) : bool :=
  match s with
  | [] => true
  | _ => spaced false s
  end.

(** The text does not begin, or does not end, with white space. *)
Definition begins_with_text (s : jsstring) : Prop :=
  match s with
  | c :: _ => is_space c = false
  | [] => True
  end.

Definition ends_with_text (s : jsstring) : Prop :=
  match last s with
  | Some c => is_space c = false
  | None => True
  end.

(* ===================================================================== *)
(** * Instances used in the examples *)
(* ===================================================================== *)

Module Examples.
Import NLUTypes.

(** [{ llmProvider: type }] *)
Definition only_provider (type : jsstring) : NLUOptions :=
  {| llmProvider := type; llmOptions := None; promptOptions := None;
     defaultContext := None; keepHistory := None; historyLimit := None;
     debug := None; retryOnFailure := None; maxRetries := None;
     minConfidence := None |}.

(** [new NaturalLanguageUnderstanding({ llmProvider: 'mock' })], as an
    instance record: the options after the constructor has filled in its
    defaults, the stub provider, and an empty history. *)
Definition mock_nlu (E : Type) : NLU.NaturalLanguageUnderstanding E :=
  {| NLU.llmProvider := LLM.MockProvider NLU.dummy_key;
     NLU.options :=
       {| llmProvider := lit "mock"; llmOptions := None; promptOptions := None;
          defaultContext := None; keepHistory := Some true;
          historyLimit := Some 10%Z; debug := Some false;
          retryOnFailure := None; maxRetries := None; minConfidence := None |};
     NLU.history := [] |}.

(** A world whose clock shows one second. *)
Definition w0 : World unit := {| clock := 1000; ext := tt |}.

(** A provider whose every response carries the error [overloaded]. *)
Definition failing_generate (request : LLM.LLMRequest) (w : World unit)
  : Outcome LLM.LLMResponse * World unit :=
  (Returned {| LLM.content := []; LLM.usage := None;
               LLM.error := Some (lit "overloaded") |}, w).

Definition failing_provider : LLM.LLMProvider unit :=
  {| LLM.name := lit "failing"; LLM.generate := failing_generate |}.

(** A provider that answers every request with the text [content]. *)
Definition constant_provider (content : jsstring) : LLM.LLMProvider unit :=
  {| LLM.name := lit "constant";
     LLM.generate := fun _ w =>
       (Returned {| LLM.content := content; LLM.usage := None; LLM.error := None |}, w) |}.

(** An instance with the given provider, three retries allowed and the
    other options as the constructor leaves them. *)
Definition nlu_with (provider : LLM.LLMProvider unit) (limit : Z)
  : NLU.NaturalLanguageUnderstanding unit :=
  {| NLU.llmProvider := provider;
     NLU.options :=
       {| llmProvider := lit "custom"; llmOptions := None; promptOptions := None;
          defaultContext := None; keepHistory := Some true;
          historyLimit := Some limit; debug := Some false;
          retryOnFailure := None; maxRetries := Some 3%nat; minConfidence := None |};
     NLU.history := [] |}.

(** The response of [failing_provider]. *)
Definition failing_response : LLM.LLMResponse :=
  {| LLM.content := []; LLM.usage := None; LLM.error := Some (lit "overloaded") |}.

Definition high_json : jsstring := litq "{`action`:`greet`,`confidence`:`high`}".


(** ** Routing *)

(** The state of these examples counts the middleware that ran. *)
Definition counting : @Router.Middleware nat :=
  fun intent w => (Returned (Some intent), S w).

Definition only_navigate : @Router.Middleware nat :=
  Router.createValidationMiddleware (Some [lit "navigate"]) None.

Definition delete_intent : Types.Intent :=
  {| Types.action := lit "delete"; Types.target := Some (lit "account");
     Types.params := None; Types.confidence := None |}.

Definition navigate_intent : Types.Intent :=
  {| Types.action := lit "navigate"; Types.target := Some (lit "settings");
     Types.params := None; Types.confidence := None |}.

Definition constructor_intent : Types.Intent :=
  {| Types.action := lit "constructor"; Types.target := None;
     Types.params := None; Types.confidence := None |}.

Definition guarded : @Router.RouterOptions nat :=
  {| Router.defaultErrorMessage := None; Router.fallbackAction := None;
     Router.debug := None;
     Router.middleware := Some [counting; only_navigate; counting] |}.

(** What the members of [Object.prototype] give when they are called as
    executors, in strict mode: [Object(intent, context)] returns the
    intent, [toString] describes the missing receiver, [__proto__] is an
    object and cannot be called, and the other members fail to convert the
    missing receiver to an object. *)
Inductive Data : Type :=
| AnIntent (intent : Types.Intent)
| Text (text : jsstring).

Definition call_object_prototype (name : jsstring)
  : @Router.ExecutorFunction nat unit Data :=
  fun intent context w =>
    if eqb name (lit "constructor") then (Returned (AnIntent intent), w)
    else if eqb name (lit "toString") then (Returned (Text (lit "[object Undefined]")), w)
    else if eqb name (lit "__proto__") then (Thrown (TypeError (lit "executor is not a function")), w)
    else (Thrown (TypeError (lit "Cannot convert undefined or null to object")), w).

(** A registry with one executor. *)
Definition greeter : @Router.ExecutorFunction nat unit Data :=
  fun intent context w => (Returned (Text (lit "Hello, world!")), w).

Definition one_executor : gmap jsstring (@Router.ExecutorFunction nat unit Data) :=
  {[ lit "greet" := greeter ]}.

(** ** The history in a store *)

Definition two_items : HistoryStore.State :=
  HistoryStore.addToHistory
    (HistoryStore.addToHistory (HistoryStore.init (Some 10%Z))
       (lit "hello") (Json.JStr (lit "first")) 1)
    (lit "open settings") (Json.JStr (lit "second")) 2.

Definition some_item : Prompt.PromptHistoryItem :=
  {| Prompt.input := lit "injected"; Prompt.intent := Json.JNull;
     Prompt.timestamp := 0 |}.

Definition caller_ops : list HistoryStore.ArrayOp :=
  [ HistoryStore.Rearrange (@rev nat); HistoryStore.PushNew some_item;
    HistoryStore.Rearrange (fun _ => []) ].

(** An answer whose confidence is below the default threshold. *)
Definition unsure_json : jsstring := litq "{`action`:`unknown`,`confidence`:0.4}".

(** ** More routing *)

(** An executor that throws, and one whose error has no message. *)
Definition thrower : @Router.ExecutorFunction nat unit Data :=
  fun intent context w => (Thrown (Error (lit "disk full")), S w).

Definition silent_thrower : @Router.ExecutorFunction nat unit Data :=
  fun intent context w => (Thrown (Error []), w).

Definition three_executors : gmap jsstring (@Router.ExecutorFunction nat unit Data) :=
  <[ lit "save" := thrower ]> (<[ lit "drop" := silent_thrower ]> one_executor).

Definition save_intent : Types.Intent :=
  {| Types.action := lit "save"; Types.target := None;
     Types.params := None; Types.confidence := None |}.

Definition drop_intent : Types.Intent :=
  {| Types.action := lit "drop"; Types.target := None;
     Types.params := None; Types.confidence := None |}.

(** [{ fallbackAction: name }] *)
Definition with_fallback (name : jsstring) : @Router.RouterOptions nat :=
  {| Router.defaultErrorMessage := None; Router.fallbackAction := Some name;
     Router.debug := None; Router.middleware := None |}.

(** ** The history in the prompt *)

Definition item (input : string) (action : string) : Prompt.PromptHistoryItem :=
  {| Prompt.input := lit input;
     Prompt.intent := Json.JObj [(lit "action", Json.JStr (lit action))];
     Prompt.timestamp := 0 |}.

Definition four_items : list Prompt.PromptHistoryItem :=
  [item "hello" "greet"; item "open settings" "navigate";
   item "sort by date" "sort"; item "export as pdf" "export"].

(** [{ includeHistory: true, historyLimit: limit }] *)
Definition with_history (limit : option Z) : Prompt.PromptTemplateOptions :=
  {| Prompt.maxLength := None; Prompt.includeContext := None;
     Prompt.includeHistory := Some true; Prompt.historyLimit := limit |}.

(** ** Defaults *)

Definition sort_intent : Types.Intent :=
  {| Types.action := lit "sort"; Types.target := Some [];
     Types.params := Some (Json.JObj [(lit "field", Json.JStr (lit "date"))]);
     Types.confidence := None |}.

Definition sort_defaults : Json.value :=
  Json.JObj [(lit "field", Json.JStr (lit "name"));
             (lit "direction", Json.JStr (lit "asc"))].

End Examples.

(* ===================================================================== *)
(** * Properties of the resolution loop *)
(* ===================================================================== *)

Unset Implicit Arguments.

Section ResolutionLoop.
Context {E : Type}.
Variable this : NLU.NaturalLanguageUnderstanding E.
Variable input : jsstring.
Variable context : option Prompt.PromptContext.

Lemma attempts_loop_step startTime fuel attempts lastResult w calls :
  (attempts <= (NLU.maxRetries_ this))%nat ->
  NLU.attempts_loop this input context startTime (S fuel) attempts lastResult w calls =
    match NLU.attempt this input context startTime (S attempts) lastResult w with
    | (NLU.Continue lastResult, w, sent) =>
        NLU.attempts_loop this input context startTime fuel (S attempts) lastResult w (calls ++ sent)
    | (NLU.Break lastResult, w, sent) =>
        {| NLU.result := lastResult; NLU.instance := this; NLU.world := w;
           NLU.calls := calls ++ sent |}
    | (NLU.Return r this', w, sent) =>
        {| NLU.result := Some r; NLU.instance := this'; NLU.world := w;
           NLU.calls := calls ++ sent |}
    end.
Proof.
  intros Hle. simpl.
  destruct (Nat.leb_spec attempts (NLU.maxRetries_ this)) as [_|Hlt]; [reflexivity | lia].
Qed.

Lemma attempts_loop_exit startTime fuel attempts lastResult w calls :
  (NLU.maxRetries_ this < attempts)%nat ->
  NLU.attempts_loop this input context startTime fuel attempts lastResult w calls =
    {| NLU.result := lastResult; NLU.instance := this; NLU.world := w;
       NLU.calls := calls |}.
Proof.
  intros Hlt. destruct fuel; simpl;
    destruct (Nat.leb_spec attempts (NLU.maxRetries_ this)); (reflexivity || lia).
Qed.

(** The passes that [parseIntent] allows are enough: with that many or
    more, the loop ends because its condition fails or because the body
    leaves it, and the number allowed does not matter. *)
Lemma attempts_loop_fuel startTime fuel1 fuel2 attempts lastResult w calls :
  (S (NLU.maxRetries_ this) - attempts <= fuel1)%nat ->
  (S (NLU.maxRetries_ this) - attempts <= fuel2)%nat ->
  NLU.attempts_loop this input context startTime fuel1 attempts lastResult w calls =
  NLU.attempts_loop this input context startTime fuel2 attempts lastResult w calls.
Proof.
  revert fuel2 attempts lastResult w calls.
  induction fuel1 as [|fuel1 IH]; intros fuel2 attempts lastResult w calls H1 H2.
  - rewrite !attempts_loop_exit by lia. reflexivity.
  - destruct (Nat.leb_spec attempts (NLU.maxRetries_ this)) as [Hle|Hlt].
    + destruct fuel2 as [|fuel2]; [lia|].
      rewrite !attempts_loop_step by assumption.
      destruct (NLU.attempt this input context startTime (S attempts) lastResult w) as [[[lr|lr|r t] w'] sent];
        try reflexivity.
      apply IH; lia.
    + rewrite !attempts_loop_exit by lia. reflexivity.
Qed.

(** One pass invokes [generate] at most once. *)
Lemma attempt_invokes_at_most_once startTime attempts lastResult w :
  (length (NLU.attempt this input context startTime attempts lastResult w).2 <= 1)%nat.
Proof.
  unfold NLU.attempt.
  repeat case_match; simpl; lia.
Qed.

Lemma attempts_loop_invocations startTime fuel attempts lastResult w calls :
  (length (NLU.calls (NLU.attempts_loop this input context startTime fuel attempts lastResult w calls))
   <= length calls + (S (NLU.maxRetries_ this) - attempts))%nat.
Proof.
  revert attempts lastResult w calls.
  induction fuel as [|fuel IH]; intros attempts lastResult w calls.
  - destruct (Nat.leb_spec attempts (NLU.maxRetries_ this)) as [Hle|Hlt].
    + simpl. destruct (Nat.leb_spec attempts (NLU.maxRetries_ this)); simpl; lia.
    + rewrite attempts_loop_exit by lia. simpl. lia.
  - destruct (Nat.leb_spec attempts (NLU.maxRetries_ this)) as [Hle|Hlt].
    + rewrite attempts_loop_step by assumption.
      pose proof (attempt_invokes_at_most_once startTime (S attempts) lastResult w) as Hone.
      destruct (NLU.attempt this input context startTime (S attempts) lastResult w) as [[[lr|lr|r t] w'] sent];
        simpl in Hone |- *.
      * etransitivity; [apply IH|]. rewrite length_app. lia.
      * rewrite length_app. lia.
      * rewrite length_app. lia.
    + rewrite attempts_loop_exit by lia. simpl. lia.
Qed.

(** ** What a pass does, by the outcome of its invocation *)

(** A pass on a sensitive input returns without an invocation; any other
    pass makes exactly one. A rejected promise or a response with an error
    leaves the loop by [break]; a response that cannot be decoded goes on
    with [continue]. *)
Lemma attempt_spec startTime attempts lastResult w :
  match NLU.attempt this input context startTime attempts lastResult w with
  | (ctl, w', sent) =>
      (Normalizer.hasSensitiveContent (Normalizer.normalizeInput input) = true
       /\ sent = [] /\ exists r, ctl = NLU.Return r this)
      \/
      (Normalizer.hasSensitiveContent (Normalizer.normalizeInput input) = false
       /\ exists request outcome,
           sent = [(request, outcome)]
           /\ match outcome with
              | Thrown _ => exists lr, ctl = NLU.Break lr
              | Returned response =>
                  if NLU.has_error response
                  then ctl = NLU.Break
                               (Some (model_error startTime response w'
                                                  (Z.of_nat attempts - 1)))
                  else (forall lr, ctl <> NLU.Break lr)
                       /\ (decode_fails response -> exists lr, ctl = NLU.Continue lr)
              end)
  end.
Proof.
  unfold NLU.attempt.
  destruct (Normalizer.hasSensitiveContent _) eqn:Hs; cbv beta iota zeta.
  { left. eauto. }
  destruct (LLM.generate _ _ _) as [[response|e] w']; cbv beta iota zeta.
  2:{ right. split; [reflexivity|]. eexists _, _. split; [reflexivity|].
      cbv beta iota. eauto. }
  fold (NLU.has_error response).
  destruct (NLU.has_error response) eqn:Herr; cbv beta iota zeta.
  { right. split; [reflexivity|]. eexists _, _. split; [reflexivity|].
    cbv beta iota. rewrite Herr. reflexivity. }
  destruct (NLU.decode _) as [intent | |e] eqn:Hd; cbv beta iota zeta.
  - destruct (NLU.low_confidence _ _); [destruct (_ && _)|]; cbv beta iota zeta;
      (right; split; [reflexivity|];
       eexists _, _; split; [reflexivity|]; cbv beta iota; rewrite Herr;
       split; [congruence | unfold decode_fails; rewrite Hd; intros []]).
  - right. split; [reflexivity|].
    eexists _, _. split; [reflexivity|]. cbv beta iota. rewrite Herr.
    split; [congruence | eauto].
  - right. split; [reflexivity|].
    eexists _, _. split; [reflexivity|]. cbv beta iota. rewrite Herr.
    split; [congruence | eauto].
Qed.

Lemma attempts_loop_calls_prefix startTime fuel attempts lastResult w calls :
  calls `prefix_of` NLU.calls (NLU.attempts_loop this input context startTime fuel attempts lastResult w calls).
Proof.
  revert attempts lastResult w calls.
  induction fuel as [|fuel IH]; intros attempts lastResult w calls.
  - simpl. destruct (_ <=? _)%nat; reflexivity.
  - destruct (Nat.leb_spec attempts (NLU.maxRetries_ this)) as [Hle|Hlt].
    + rewrite attempts_loop_step by assumption.
      destruct (NLU.attempt this input context startTime (S attempts) lastResult w) as [[[lr|lr|r t] w'] sent];
        simpl.
      * etransitivity; [|apply IH]. apply prefix_app_r. reflexivity.
      * apply prefix_app_r. reflexivity.
      * apply prefix_app_r. reflexivity.
    + rewrite attempts_loop_exit by lia. reflexivity.
Qed.

(** The invocation whose response carries an error is the last one. *)
Lemma attempts_loop_model_error startTime fuel attempts lastResult w calls :
  all_answered calls ->
  length calls = attempts ->
  let run := NLU.attempts_loop this input context startTime fuel attempts lastResult w calls in
  forall i request response,
    NLU.calls run !! i = Some (request, Returned response) ->
    NLU.has_error response = true ->
    S i = length (NLU.calls run)
    /\ NLU.result run =
         Some (model_error startTime response (NLU.world run) (Z.of_nat i))
    /\ NLU.instance run = this.
Proof.
  revert attempts lastResult w calls.
  induction fuel as [|fuel IH]; intros attempts lastResult w calls Hok Hlen run.
  - intros i request response Hi Herr. exfalso.
    assert (NLU.calls run = calls) as Hc
        by (subst run; simpl; destruct (_ <=? _)%nat; reflexivity).
    rewrite Hc in Hi.
    eapply Forall_lookup_1 in Hok; [|exact Hi]. simpl in Hok. congruence.
  - destruct (Nat.leb_spec attempts (NLU.maxRetries_ this)) as [Hle|Hlt].
    2:{ intros i request response Hi Herr. exfalso. subst run.
        rewrite attempts_loop_exit in Hi by lia. simpl in Hi.
        eapply Forall_lookup_1 in Hok; [|exact Hi]. simpl in Hok. congruence. }
    subst run. rewrite attempts_loop_step by assumption.
    pose proof (attempt_spec startTime (S attempts) lastResult w) as Hspec.
    destruct (NLU.attempt this input context startTime (S attempts) lastResult w) as [[ctl w'] sent].
    destruct Hspec as [(_ & -> & r & ->) | (_ & rq & out & -> & Hout)].
    { simpl. rewrite app_nil_r. intros i request response Hi Herr. exfalso.
      eapply Forall_lookup_1 in Hok; [|exact Hi]. simpl in Hok. congruence. }
    destruct out as [resp|e].
    + destruct (NLU.has_error resp) eqn:Hresp.
      * subst ctl. simpl. intros i request response Hi Herr.
        destruct (decide (i < length calls)%nat) as [Hlt|Hge].
        { exfalso. rewrite lookup_app_l in Hi by assumption.
          eapply Forall_lookup_1 in Hok; [|exact Hi]. simpl in Hok. congruence. }
        rewrite lookup_app_r in Hi by lia.
        destruct (i - length calls)%nat as [|n] eqn:Hn; simpl in Hi; [|discriminate].
        injection Hi as <- <-.
        assert (i = length calls) as -> by lia.
        rewrite length_app. simpl. split; [lia|]. split; [|reflexivity].
        do 2 f_equal. lia.
      * destruct Hout as [Hnb _].
        assert (all_answered (calls ++ [(rq, Returned resp)])) as Hok'.
        { apply Forall_app. split; [assumption|]. constructor; [exact Hresp|constructor]. }
        destruct ctl as [lr|lr|r t].
        -- apply IH; [assumption|]. rewrite length_app. simpl. lia.
        -- exfalso. eapply Hnb. reflexivity.
        -- simpl. intros i request response Hi Herr. exfalso.
           eapply Forall_lookup_1 in Hok'; [|exact Hi]. simpl in Hok'. congruence.
    + destruct Hout as [lr ->]. simpl. intros i request response Hi Herr. exfalso.
      destruct (decide (i < length calls)%nat) as [Hlt|Hge].
      { rewrite lookup_app_l in Hi by assumption.
        eapply Forall_lookup_1 in Hok; [|exact Hi]. simpl in Hok. congruence. }
      rewrite lookup_app_r in Hi by lia.
      destruct (i - length calls)%nat; simpl in Hi; discriminate.
Qed.

(** While the condition of the loop holds and the input is not sensitive,
    the loop makes one more invocation. *)
Lemma attempts_loop_invokes startTime fuel attempts lastResult w calls :
  (attempts <= (NLU.maxRetries_ this))%nat ->
  Normalizer.hasSensitiveContent (Normalizer.normalizeInput input) = false ->
  (length calls
   < length (NLU.calls (NLU.attempts_loop this input context startTime (S fuel) attempts lastResult w calls)))%nat.
Proof.
  intros Hle Hs. rewrite attempts_loop_step by assumption.
  pose proof (attempt_spec startTime (S attempts) lastResult w) as Hspec.
  destruct (NLU.attempt this input context startTime (S attempts) lastResult w) as [[ctl w'] sent].
  destruct Hspec as [(Hs' & _) | (_ & rq & out & -> & _)]; [congruence|].
  destruct ctl as [lr|lr|r t]; simpl.
  - eapply Nat.lt_le_trans; [|apply prefix_length, attempts_loop_calls_prefix].
    rewrite length_app. simpl. lia.
  - rewrite length_app. simpl. lia.
  - rewrite length_app. simpl. lia.
Qed.

(** A response that cannot be decoded is followed by another invocation
    when retries remain. *)
Lemma attempts_loop_decode_failure startTime fuel attempts lastResult w calls :
  length calls = attempts ->
  (S (NLU.maxRetries_ this) - attempts <= fuel)%nat ->
  let run := NLU.attempts_loop this input context startTime fuel attempts lastResult w calls in
  forall i request response,
    (length calls <= i)%nat ->
    NLU.calls run !! i = Some (request, Returned response) ->
    NLU.has_error response = false ->
    decode_fails response ->
    (i < (NLU.maxRetries_ this))%nat ->
    (S i < length (NLU.calls run))%nat.
Proof.
  revert attempts lastResult w calls.
  induction fuel as [|fuel IH]; intros attempts lastResult w calls Hlen Hfuel run
    i request response Hge Hi Herr Hdec Hmax.
  - exfalso. subst run. apply lookup_lt_Some in Hi.
    simpl in Hi. destruct (_ <=? _)%nat; simpl in Hi; lia.
  - destruct (Nat.leb_spec attempts (NLU.maxRetries_ this)) as [Hle|Hlt].
    2:{ exfalso. subst run. apply lookup_lt_Some in Hi.
        rewrite attempts_loop_exit in Hi by lia. simpl in Hi. lia. }
    subst run. rewrite attempts_loop_step in Hi |- * by assumption.
    pose proof (attempt_spec startTime (S attempts) lastResult w) as Hspec.
    destruct (NLU.attempt this input context startTime (S attempts) lastResult w) as [[ctl w'] sent].
    destruct Hspec as [(_ & -> & r & ->) | (Hs & rq & out & -> & Hout)].
    { exfalso. simpl in Hi. rewrite app_nil_r in Hi.
      apply lookup_lt_Some in Hi. lia. }
    destruct (decide (i = length calls)) as [->|Hne].
    + (* the invocation of this pass *)
      assert (out = Returned response) as ->.
      { destruct ctl as [lr|lr|r t]; simpl in Hi.
        - pose proof (attempts_loop_calls_prefix startTime fuel (S attempts) lr w'
                        (calls ++ [(rq, out)])) as Hp.
          assert ((calls ++ [(rq, out)]) !! length calls = Some (rq, out)) as Hl
              by (rewrite lookup_app_r, Nat.sub_diag by lia; reflexivity).
          pose proof (prefix_lookup_Some _ _ _ _ Hl Hp) as Hl2. congruence.
        - rewrite lookup_app_r, Nat.sub_diag in Hi by lia. simpl in Hi. congruence.
        - rewrite lookup_app_r, Nat.sub_diag in Hi by lia. simpl in Hi. congruence. }
      rewrite Herr in Hout. destruct Hout as [_ Hcont].
      destruct (Hcont Hdec) as [lr ->].
      destruct fuel as [|fuel]; [lia|].
      eapply Nat.le_lt_trans; [|apply attempts_loop_invokes; [lia|assumption]].
      rewrite length_app. simpl. lia.
    + (* an invocation of a later pass *)
      destruct ctl as [lr|lr|r t]; simpl in Hi |- *.
      * apply (IH (S attempts) lr w' (calls ++ [(rq, out)])) with request response;
          try assumption; rewrite ?length_app; simpl; lia.
      * exfalso. apply lookup_lt_Some in Hi. rewrite length_app in Hi. simpl in Hi. lia.
      * exfalso. apply lookup_lt_Some in Hi. rewrite length_app in Hi. simpl in Hi. lia.
Qed.

(** C1, as the program has it. A response that carries an error is not
    retried: the invocation that produced it is the last one of the call,
    and [parseIntent] returns the failure [LLM error: ...] made from that
    response, with [retries] the number of invocations before it, whatever
    remains of [maxRetries]. A response that cannot be decoded is retried:
    when fewer than [maxRetries] invocations came before it, another
    invocation follows. *)
Theorem model_error_ends_the_call_decode_failure_is_retried (w : World E) :
  let run := NLU.parseIntent this input context w in
  forall i request response,
    NLU.calls run !! i = Some (request, Returned response) ->
    (NLU.has_error response = true ->
     S i = length (NLU.calls run)
     /\ NLU.result run =
          Some (model_error (Date_now w) response (NLU.world run) (Z.of_nat i))
     /\ NLU.instance run = this)
    /\ (NLU.has_error response = false -> decode_fails response ->
        (i < (NLU.maxRetries_ this))%nat -> (S i < length (NLU.calls run))%nat).
Proof.
  intros run i request response Hi. split.
  - intros Herr.
    eapply attempts_loop_model_error with (calls := []) (attempts := 0%nat);
      [constructor | reflexivity | exact Hi | exact Herr].
  - intros Herr Hdec Hmax.
    eapply attempts_loop_decode_failure with (calls := []) (attempts := 0%nat);
      [reflexivity | lia | simpl; lia | exact Hi | exact Herr | exact Hdec | exact Hmax].
Qed.

(** C3. With [maxRetries = k], a call of [parseIntent] returns after at
    most [k + 1] invocations of the provider's [generate], for every
    input, context, provider and state of the world. *)
Theorem parseIntent_respects_retry_budget (w : World E) (k : nat) :
  (NLU.maxRetries_ this) = k ->
  (length (NLU.calls (NLU.parseIntent this input context w)) <= k + 1)%nat.
Proof.
  intros <-. unfold NLU.parseIntent.
  etransitivity; [apply attempts_loop_invocations|]. simpl. lia.
Qed.

Lemma parseIntent_on_sensitive_input (w : World E) :
  Normalizer.hasSensitiveContent (Normalizer.normalizeInput input) = true ->
  NLU.parseIntent this input context w =
    {| NLU.result :=
         Some (NLU.failure (lit "Input contains sensitive content") None 0 None None);
       NLU.instance := this;
       NLU.world := w;
       NLU.calls := [] |}.
Proof.
  intros Hs. unfold NLU.parseIntent.
  rewrite attempts_loop_step by lia.
  unfold NLU.attempt. rewrite Hs. unfold Date_now.
  rewrite Z.sub_diag. reflexivity.
Qed.


End ResolutionLoop.

Lemma parseIntent_respects_retry_budget_witness :
  let run := NLU.parseIntent (Examples.nlu_with (Examples.constant_provider (lit "not json")) 10)
                             (lit "open the dashboard") None Examples.w0 in
  (length (NLU.calls run) <= 3 + 1)%nat.
Proof.
  apply (parseIntent_respects_retry_budget
           (Examples.nlu_with (Examples.constant_provider (lit "not json")) 10)
           (lit "open the dashboard") None Examples.w0 3%nat).
  reflexivity.
Defined.


(* ===================================================================== *)
(** * The stub provider behind the prompt builder *)
(* ===================================================================== *)

Section Search.
Import Regex.



End Search.

Section MockProvider.





Lemma canned_responses_accepted :
  forallb (accepted (JsNum.Fin (JsNum.Dec 6 (-1)))) (map snd LLM.patternResponses) = true.
Proof. vm_compute. reflexivity. Qed.



Local Opaque Prompt.createDefaultIntentPrompt LLM.patternResponses
      Normalizer.normalizeInput Normalizer.hasSensitiveContent.


End MockProvider.


(** The constructor, given the provider type [mock] and nothing else, builds
    the instance [Examples.mock_nlu]. *)
Lemma constructor_mock (E : Type)
      (OpenAIProvider AnthropicProvider : LLM.LLMProviderOptions -> LLM.LLMProvider E) :
  NLU.constructor OpenAIProvider AnthropicProvider (Examples.only_provider (lit "mock"))
  = Returned (Examples.mock_nlu E).
Proof. reflexivity. Qed.

(** C2, on the program. With the stub provider and the default options the
    input [asdkjasd] is not answered by the fallback intent: the stub tests
    its patterns on the whole prompt, whose closing instruction contains
    [hi] (in [nothing]), so the last pattern matches and the canned [greet]
    response with confidence 0.8 is returned. [parseIntent] succeeds on the
    first pass, with no retry. *)
Theorem mock_greets_unmatched_input :
  let run := NLU.parseIntent (Examples.mock_nlu unit) (lit "asdkjasd") None Examples.w0 in
  LLM.first_match LLM.patternResponses (lit "asdkjasd") = None
  /\ LLM.first_match LLM.patternResponses (mock_prompt (lit "asdkjasd") None)
     = Some (litq "{`action`:`greet`,`confidence`:0.8}")
  /\ (exists processingTime,
         NLU.result run =
           Some {| NLUTypes.success := true;
                   NLUTypes.intent :=
                     Some (Json.JObj
                             [(lit "action", Json.JStr (lit "greet"));
                              (lit "confidence",
                               Json.JNum (JsNum.Fin (JsNum.Dec 8 (-1))))]);
                   NLUTypes.error := None;
                   NLUTypes.rawLLMResponse := None;
                   NLUTypes.processingTime := Some processingTime;
                   NLUTypes.retries := Some 0%Z;
                   NLUTypes.correctionSuggestion := None |})
  /\ length (NLU.calls run) = 1%nat.
Proof.
  vm_compute. split; [reflexivity|]. split; [reflexivity|].
  split; [eexists; reflexivity | reflexivity].
Qed.


(* ===================================================================== *)
(** * Clamping the confidence *)
(* ===================================================================== *)

Section Clamp.
Import JsNum.

Lemma dec_compare_antisym a b : dec_compare b a = CompOpp (dec_compare a b).
Proof.
  unfold dec_compare. rewrite (Z.min_comm (dexp b) (dexp a)).
  apply Z.compare_antisym.
Qed.

Lemma scale_compare_zero d e :
  (e <= dexp d)%Z -> Z.compare 0 (scale d e) = Z.compare 0 (mant d).
Proof.
  intros He. unfold scale.
  assert (0 < 10 ^ (dexp d - e))%Z as Hp by (apply Z.pow_pos_nonneg; lia).
  destruct (Z.compare_spec 0 (mant d * 10 ^ (dexp d - e)));
    destruct (Z.compare_spec 0 (mant d)); try reflexivity; nia.
Qed.

Lemma dec_compare_zero_l d : dec_compare (Dec 0 0) d = Z.compare 0 (mant d).
Proof.
  unfold dec_compare. cbn [dexp mant].
  rewrite <- (scale_compare_zero d (Z.min 0 (dexp d))) by lia.
  unfold scale at 1. cbn [mant]. rewrite Z.mul_0_l. reflexivity.
Qed.

Lemma dec_compare_zero_r d : dec_compare d (Dec 0 0) = Z.compare (mant d) 0.
Proof.
  rewrite dec_compare_antisym, dec_compare_zero_l, <- Z.compare_antisym. reflexivity.
Qed.

(** A negative number is below one. *)
Lemma negative_below_one d :
  dec_compare d (Dec 0 0) = Lt -> dec_compare d (Dec 1 0) = Lt.
Proof.
  rewrite dec_compare_zero_r. intros Hneg.
  destruct (Z.compare_spec (mant d) 0) as [?|Hm|?]; try discriminate.
  unfold dec_compare. cbn [dexp mant]. apply Z.compare_lt_iff.
  pose proof (scale_compare_zero d (Z.min (dexp d) 0) ltac:(lia)) as Hs.
  assert (0 < scale (Dec 1 0) (Z.min (dexp d) 0))%Z.
  { unfold scale. cbn [mant dexp]. rewrite Z.mul_1_l. apply Z.pow_pos_nonneg; lia. }
  destruct (Z.compare_spec 0 (scale d (Z.min (dexp d) 0)));
    destruct (Z.compare_spec 0 (mant d)); try discriminate; lia.
Qed.

(** [Math.max(0, Math.min(1, x))] of a number that is not NaN lies in
    [0, 1]: a value below 0 becomes 0, a value above 1 becomes 1, and a
    value strictly in between is kept. NaN stays NaN. *)
Lemma clamp_spec (x : number) :
  x <> NaN ->
  in_unit_interval (NLU.clamp x)
  /\ (lt x zero = true -> NLU.clamp x = zero)
  /\ (lt one x = true -> NLU.clamp x = one)
  /\ (lt zero x = true -> lt x one = true -> NLU.clamp x = x).
Proof.
  intros Hx. unfold in_unit_interval.
  destruct x as [| | |d]; [congruence| | |].
  - vm_compute. repeat split; auto; discriminate.
  - vm_compute. repeat split; auto; discriminate.
  - unfold NLU.clamp, min, max, lt, le, one, zero.
    pose proof (dec_compare_antisym d (Dec 1 0)) as H1.
    pose proof (dec_compare_antisym d (Dec 0 0)) as H0.
    pose proof (negative_below_one d) as Hn.
    destruct (dec_compare d (Dec 1 0)) eqn:E1; cbn [CompOpp] in H1;
      rewrite ?H1; cbn [lt];
      destruct (dec_compare d (Dec 0 0)) eqn:E0; cbn [CompOpp] in H0;
      rewrite ?H0, ?H1, ?E0, ?E1;
      try (specialize (Hn eq_refl); discriminate);
      repeat split; intros; try discriminate; auto;
      vm_compute; auto.
Qed.

Lemma clamp_NaN : NLU.clamp NaN = NaN.
Proof. reflexivity. Qed.

End Clamp.

(* ===================================================================== *)
(** * The confidence of a returned intent *)
(* ===================================================================== *)

Section Confidence.

Lemma lookup_set_prop props k v :
  Json.lookup_prop (Json.set_prop props k v) k = Some v.
Proof.
  assert (eqb k k = true) as Hkk by (apply bool_decide_eq_true; reflexivity).
  induction props as [|[k' v'] props IH]; simpl.
  - rewrite Hkk. reflexivity.
  - destruct (eqb k k') eqn:Hk; simpl.
    + rewrite Hkk. reflexivity.
    + destruct (Json.array_index k) as [i|]; [destruct (Json.array_index k') as [i'|]|].
      * destruct (i <? i')%Z; simpl; rewrite ?Hkk, ?Hk; auto.
      * simpl. rewrite Hkk. reflexivity.
      * simpl. rewrite Hk. exact IH.
Qed.

(** What the inner [try] block has done when it ends with an intent: the
    text was parsed; when the parsed object has no [confidence] it is the
    intent, otherwise the intent is that object with its [confidence]
    replaced by the clamped number that the value coerces to. *)
Lemma decode_intent_spec content intent :
  NLU.decode content = NLU.Intent intent ->
  exists raw,
    Json.parse content = Returned raw
    /\ match NLU.confidence_of raw with
       | None => intent = raw
       | Some c =>
           exists n,
             Json.to_number c = Returned n
             /\ intent = Json.set_member raw (lit "confidence") (Json.JNum (NLU.clamp n))
             /\ NLU.confidence_of intent = Some (Json.JNum (NLU.clamp n))
       end.
Proof.
  unfold NLU.decode, NLU.confidence_of.
  generalize (lit "confidence"). generalize (lit "action"). intros ka kc.
  destruct (Json.parse content) as [raw|e]; [|discriminate].
  destruct (Json.get_member raw ka) as [action|e]; [|discriminate].
  destruct (negb (NLU.is_truthy action)); [discriminate|].
  destruct (Json.get_member raw kc) as [[c|]|e] eqn:Hc; try discriminate.
  - destruct (Json.to_number c) as [n|e] eqn:Hn; [|discriminate].
    intros Heq. injection Heq as <-. exists raw. split; [reflexivity|].
    rewrite Hc.
    exists n. split; [exact Hn|]. split; [reflexivity|].
    destruct raw; try discriminate. cbn [Json.set_member Json.get_member].
    rewrite lookup_set_prop. reflexivity.
  - intros Heq. injection Heq as <-. exists raw. split; [reflexivity|].
    rewrite Hc. reflexivity.
Qed.

Context {E : Type}.
Variable this : NLU.NaturalLanguageUnderstanding E.
Variable input : jsstring.
Variable context : option Prompt.PromptContext.

(** Only the last statement of the body builds a successful result: it
    carries the intent that was decoded from the response of this pass,
    whose confidence is not below [minConfidence], and the same intent goes
    into the history. *)
Lemma attempt_success_spec startTime attempts lastResult w :
  is_failure lastResult ->
  match NLU.attempt this input context startTime attempts lastResult w with
  | (NLU.Continue lr, _, _) => is_failure lr
  | (NLU.Break lr, _, _) => is_failure lr
  | (NLU.Return r this', w', sent) =>
      NLUTypes.success r = true ->
      exists request response intent,
        sent = [(request, Returned response)]
        /\ NLU.decode (LLM.content response) = NLU.Intent intent
        /\ NLU.low_confidence intent (NLU.minConfidence_ this) = false
        /\ NLUTypes.intent r = Some intent
        /\ this' = after_success this input intent w'
  end.
Proof.
  intros Hlast. unfold NLU.attempt.
  destruct (Normalizer.hasSensitiveContent _); cbv beta iota zeta.
  { discriminate. }
  destruct (LLM.generate _ _ _) as [[response|e] w']; cbv beta iota zeta.
  2:{ intros r [= <-]. reflexivity. }
  destruct (NLU.has_error _); cbv beta iota zeta.
  { intros r [= <-]. reflexivity. }
  destruct (NLU.decode _) as [intent| |e] eqn:Hd; cbv beta iota zeta.
  - destruct (NLU.low_confidence _ _) eqn:Hlow; [destruct (_ && _)|];
      cbv beta iota zeta.
    + exact Hlast.
    + discriminate.
    + intros _. eexists _, _, _. repeat split; eauto.
  - intros r [= <-]. reflexivity.
  - intros r [= <-]. reflexivity.
Qed.

Lemma attempts_loop_success startTime fuel attempts lastResult w calls :
  is_failure lastResult ->
  let run := NLU.attempts_loop this input context startTime fuel attempts
                               lastResult w calls in
  forall r,
    NLU.result run = Some r ->
    NLUTypes.success r = true ->
    exists request response intent,
      last (NLU.calls run) = Some (request, Returned response)
      /\ NLU.decode (LLM.content response) = NLU.Intent intent
      /\ NLU.low_confidence intent (NLU.minConfidence_ this) = false
      /\ NLUTypes.intent r = Some intent
      /\ NLU.instance run = after_success this input intent (NLU.world run).
Proof.
  revert attempts lastResult w calls.
  induction fuel as [|fuel IH]; intros attempts lastResult w calls Hlast run r Hr Hs.
  - exfalso. subst run. simpl in Hr.
    destruct (_ <=? _)%nat; simpl in Hr; apply Hlast in Hr; congruence.
  - destruct (Nat.leb_spec attempts (NLU.maxRetries_ this)) as [Hle|Hlt].
    2:{ exfalso. subst run. rewrite attempts_loop_exit in Hr by lia.
        simpl in Hr. apply Hlast in Hr. congruence. }
    subst run. rewrite attempts_loop_step in Hr |- * by assumption.
    pose proof (attempt_success_spec startTime (S attempts) lastResult w Hlast) as Hspec.
    destruct (NLU.attempt this input context startTime (S attempts) lastResult w)
      as [[[lr|lr|r' t] w'] sent].
    + apply IH; assumption.
    + exfalso. simpl in Hr. apply Hspec in Hr. congruence.
    + simpl in Hr. injection Hr as ->.
      destruct (Hspec Hs) as (request & response & intent & -> & Hd & Hlow & Hi & ->).
      exists request, response, intent. simpl.
      rewrite last_snoc. repeat split; assumption.
Qed.

(** C6, as the program has it. When [parseIntent] succeeds, the intent it
    returns was decoded from the response of the last invocation, and the
    history entry of the call holds the same intent. When the object in
    that response has a [confidence], the returned confidence is
    [Math.max(0, Math.min(1, c))] for the number [c] that the value
    coerces to, and it is this clamped number that is not below
    [minConfidence]. If [c] is a number other than NaN, the returned
    confidence lies in [0, 1], a value below 0 having become 0 and a value
    above 1 having become 1. *)
Theorem returned_confidence_is_clamped (w : World E) (r : NLUTypes.ParseResult) :
  let run := NLU.parseIntent this input context w in
  NLU.result run = Some r ->
  NLUTypes.success r = true ->
  exists request response raw intent,
    last (NLU.calls run) = Some (request, Returned response)
    /\ Json.parse (LLM.content response) = Returned raw
    /\ NLUTypes.intent r = Some intent
    /\ NLU.instance run = after_success this input intent (NLU.world run)
    /\ match NLU.confidence_of raw with
       | None => intent = raw
       | Some confidence =>
           exists c,
             Json.to_number confidence = Returned c
             /\ NLU.confidence_of intent = Some (Json.JNum (NLU.clamp c))
             /\ JsNum.lt (NLU.clamp c) (NLU.minConfidence_ this) = false
             /\ (c <> JsNum.NaN ->
                 in_unit_interval (NLU.clamp c)
                 /\ (JsNum.lt c JsNum.zero = true -> NLU.clamp c = JsNum.zero)
                 /\ (JsNum.lt JsNum.one c = true -> NLU.clamp c = JsNum.one))
       end.
Proof.
  intros run Hr Hs.
  destruct (attempts_loop_success (Date_now w) (S (NLU.maxRetries_ this)) 0 None w []
              ltac:(intros ? [=]) r Hr Hs)
    as (request & response & intent & Hlast & Hd & Hlow & Hi & Hinst).
  destruct (decode_intent_spec _ _ Hd) as (raw & Hparse & Hconf).
  exists request, response, raw, intent.
  repeat (split; [assumption|]).
  destruct (NLU.confidence_of raw) as [confidence|]; [|assumption].
  destruct Hconf as (c & Hc & -> & Hci).
  exists c. split; [assumption|]. split; [assumption|].
  split.
  - unfold NLU.low_confidence in Hlow. rewrite Hci in Hlow. exact Hlow.
  - intros Hnan. destruct (clamp_spec c Hnan) as (Hu & Hz & Ho & _). auto.
Qed.

End Confidence.

(* ===================================================================== *)
(** * The bound on the history *)
(* ===================================================================== *)

Section HistoryBound.
Context {E : Type}.








End HistoryBound.

(* ===================================================================== *)
(** * Properties of the router *)
(* ===================================================================== *)

Section RouterProperties.
Import Router Types.
Context {W C D : Type}.
Variable call_inherited : jsstring -> @ExecutorFunction W C D.
Variable actionExecutors : gmap jsstring (@ExecutorFunction W C D).

Lemma run_middleware_passed (fns : list (@Middleware W)) index currentIntent w trace
      intent' w' trace' :
  run_middleware fns index currentIntent w trace = (Passed intent', w', trace') ->
  trace' = trace ++ ran_middleware index (length fns).
Proof.
  revert index currentIntent w trace.
  induction fns as [|fn fns IH]; intros index currentIntent w trace; simpl.
  - intros [= <- <- <-]. unfold ran_middleware. simpl. rewrite app_nil_r. reflexivity.
  - destruct (fn currentIntent w) as [[[result|]|e] w1]; try discriminate.
    intros H. apply IH in H. rewrite H, <- app_assoc. reflexivity.
Qed.

Lemma run_middleware_app (before after : list (@Middleware W)) index currentIntent
      w trace :
  run_middleware (before ++ after) index currentIntent w trace =
    match run_middleware before index currentIntent w trace with
    | (Passed intent', w', trace') =>
        run_middleware after (index + length before) intent' w' trace'
    | stopped => stopped
    end.
Proof.
  revert index currentIntent w trace.
  induction before as [|fn before IH]; intros index currentIntent w trace; simpl.
  - rewrite Nat.add_0_r. reflexivity.
  - destruct (fn currentIntent w) as [[[result|]|e] w1]; try reflexivity.
    rewrite IH. replace (S index + length before)%nat
      with (index + S (length before))%nat by lia. reflexivity.
Qed.

(** [routeIntent] is the middleware followed by the dispatch. *)
Lemma routeIntent_after_middleware intent context (options : @RouterOptions W)
      w intent' w' trace :
  run_middleware (default [] (middleware options)) 0 intent w [] = (Passed intent', w', trace) ->
  Router.routeIntent call_inherited actionExecutors intent context options w
  = dispatch call_inherited actionExecutors (merge_options options) intent' context w' trace.
Proof.
  unfold Router.routeIntent. cbn [middleware merge_options].
  destruct (middleware options) as [[|fn fns]|]; cbn [default from_option id].
  - simpl. intros [= <- <- <-]. reflexivity.
  - intros ->. reflexivity.
  - simpl. intros [= <- <- <-]. reflexivity.
Qed.

(** C7, as the program has it. When the middleware before the one with
    index [i] return intents and that one returns [null], [routeIntent]
    answers with [success: false] and the message [Intent rejected by
    middleware]; the middleware with the indices 0 to [i] have run, in
    order, and nothing else has: no later middleware and no executor. *)
Theorem middleware_rejection_short_circuits
        intent context (options : @RouterOptions W) w
        (before after : list (@Middleware W)) (rejecting : @Middleware W)
        intent_i w_i trace_i w' :
  middleware options = Some (before ++ rejecting :: after) ->
  run_middleware before 0 intent w [] = (Passed intent_i, w_i, trace_i) ->
  rejecting intent_i w_i = (Returned None, w') ->
  Router.routeIntent call_inherited actionExecutors intent context options w
  = (respond false (Some (lit "Intent rejected by middleware")) None,
     w',
     ran_middleware 0 (S (length before))).
Proof.
  intros Hmw Hbefore Hreject.
  pose proof (run_middleware_passed _ _ _ _ _ _ _ _ Hbefore) as Htrace.
  simpl in Htrace.
  assert (run_middleware (before ++ rejecting :: after) 0 intent w []
          = (Rejected, w', ran_middleware 0 (S (length before)))) as Hrun.
  { rewrite run_middleware_app, Hbefore. simpl. rewrite Hreject.
    rewrite Htrace. unfold ran_middleware.
    rewrite seq_S, map_app. reflexivity. }
  unfold Router.routeIntent. cbn [middleware merge_options]. rewrite Hmw.
  destruct (before ++ rejecting :: after) as [|fn fns] eqn:Hfns.
  - destruct before; discriminate.
  - rewrite Hrun. reflexivity.
Qed.

(** C8, as the program has it. When the intent that leaves the middleware
    has an action under which [actionExecutors] has nothing, that is, no
    registered executor and no property inherited from [Object.prototype],
    and no fallback can be used, [routeIntent] answers with
    [success: false] and the message [Unknown action: ] followed by the
    action; no executor has run. *)
Theorem unknown_action_response intent context (options : @RouterOptions W)
        w intent' w' trace :
  run_middleware (default [] (middleware options)) 0 intent w [] = (Passed intent', w', trace) ->
  actionExecutors !! action intent' = None ->
  inherited (action intent') = false ->
  no_usable_fallback call_inherited actionExecutors options ->
  Router.routeIntent call_inherited actionExecutors intent context options w
  = (respond false (Some (lit "Unknown action: " ++ action intent')) None, w', trace).
Proof.
  intros Hmw Hown Hproto Hfb.
  rewrite (routeIntent_after_middleware _ _ _ _ _ _ _ Hmw).
  assert (lookup_executor call_inherited actionExecutors (action intent') = None)
    as Hlook by (unfold lookup_executor; rewrite Hown, Hproto; reflexivity).
  unfold dispatch. rewrite Hlook.
  cbn [fallbackAction merge_options].
  unfold no_usable_fallback in Hfb.
  destruct (fallbackAction options) as [name|]; [|reflexivity].
  destruct Hfb as [->|Hnone]; [reflexivity|].
  rewrite Hnone. destruct (JsString.truthy name); reflexivity.
Qed.

End RouterProperties.

(* ===================================================================== *)
(** * The array that getHistory returns *)
(* ===================================================================== *)

Section ReturnedArray.
Import HistoryStore.

Lemma alloc_spec (h : store) (o : object) :
  h !! (alloc h o).1 = None /\ (alloc h o).2 = <[(alloc h o).1 := o]> h.
Proof.
  unfold alloc. simpl. split; [|reflexivity].
  apply not_elem_of_dom. apply is_fresh.
Qed.

Lemma preserved_except_refl r h : preserved_except r h h.
Proof. intros l o _ H. exact H. Qed.

Lemma preserved_except_trans r h1 h2 h3 :
  preserved_except r h1 h2 -> preserved_except r h2 h3 -> preserved_except r h1 h3.
Proof. intros H12 H23 l o Hl H. eapply H23, H12; eassumption. Qed.

Lemma apply_op_spec (r : loc) (st : State) (op : ArrayOp) :
  preserved_except r (objects st) (objects (apply_op r st op))
  /\ this_history (apply_op r st op) = this_history st
  /\ historyLimit (apply_op r st op) = historyLimit st.
Proof.
  destruct op as [item|f]; unfold apply_op.
  - destruct (alloc_spec (objects st) (Item item)) as [Hfresh Heq].
    destruct (alloc (objects st) (Item item)) as [i h].
    cbn [fst snd objects this_history historyLimit] in *. subst h.
    repeat split. intros l o Hl Hlo.
    rewrite lookup_insert_ne by congruence.
    rewrite lookup_insert_ne by congruence. exact Hlo.
  - cbn [objects this_history historyLimit].
    repeat split. intros l o Hl Hlo.
    rewrite lookup_insert_ne by congruence. exact Hlo.
Qed.

Lemma apply_ops_spec (r : loc) (ops : list ArrayOp) (st : State) :
  preserved_except r (objects st) (objects (fold_left (apply_op r) ops st))
  /\ this_history (fold_left (apply_op r) ops st) = this_history st
  /\ historyLimit (fold_left (apply_op r) ops st) = historyLimit st.
Proof.
  revert st. induction ops as [|op ops IH]; intros st; simpl.
  - repeat split. apply preserved_except_refl.
  - destruct (apply_op_spec r st op) as (Hp & Ht & Hl).
    destruct (IH (apply_op r st op)) as (Hp' & Ht' & Hl').
    repeat split; [|congruence|congruence].
    eapply preserved_except_trans; eassumption.
Qed.

Lemma omap_step (A B : Type) (f : A -> option B) (x : A) (xs : list A) :
  omap f (x :: xs) = match f x with Some y => y :: omap f xs | None => omap f xs end.
Proof. reflexivity. Qed.

Lemma omap_agree (A B : Type) (f g : A -> option B) (xs : list A) :
  Forall (fun x => f x = g x) xs -> omap f xs = omap g xs.
Proof.
  induction 1 as [|x xs Hx _ IH]; simpl; [reflexivity|].
  rewrite Hx. change (list_omap A B f xs) with (omap f xs).
  change (list_omap A B g xs) with (omap g xs). rewrite IH. reflexivity.
Qed.

(** The array of the instance and its items are the same in a store that
    has kept all objects but [r]. *)
Lemma view_preserved (r : loc) (st st' : State) :
  well_formed st ->
  objects st !! r = None ->
  preserved_except r (objects st) (objects st') ->
  this_history st' = this_history st ->
  elements_at (objects st') (this_history st') = elements_at (objects st) (this_history st)
  /\ view st' = view st.
Proof.
  intros (xs & Harr & Hitems) Hr Hp Ht.
  assert (this_history st <> r) as Hne by congruence.
  assert (elements_at (objects st') (this_history st')
          = elements_at (objects st) (this_history st)) as Hel.
  { unfold elements_at. rewrite Ht, Harr, (Hp _ _ Hne Harr). reflexivity. }
  split; [exact Hel|].
  unfold view. rewrite Hel. unfold elements_at. rewrite Harr.
  apply omap_agree. eapply Forall_impl; [exact Hitems|].
  intros l [item Hl]. unfold item_at in Hl |- *.
  destruct (objects st !! l) as [[|item']|] eqn:Hol; try discriminate.
  assert (l <> r) as Hlr by congruence.
  rewrite (Hp _ _ Hlr Hol). reflexivity.
Qed.

Lemma getHistory_spec (st : State) :
  well_formed st ->
  let r := (getHistory st).1 in
  let st1 := (getHistory st).2 in
  objects st !! r = None
  /\ r <> this_history st
  /\ this_history st1 = this_history st
  /\ preserved_except r (objects st) (objects st1)
  /\ elements_at (objects st1) r = elements_at (objects st) (this_history st).
Proof.
  intros (xs & Harr & Hitems) r st1. subst r st1. unfold getHistory.
  destruct (alloc_spec (objects st) (Array (elements_at (objects st) (this_history st))))
    as [Hfresh Heq].
  destruct (alloc (objects st) _) as [r h].
  cbn [fst snd objects this_history historyLimit] in *. subst h.
  repeat split.
  - exact Hfresh.
  - congruence.
  - intros l o Hl Hlo. rewrite lookup_insert_ne by congruence. exact Hlo.
  - unfold elements_at at 1. rewrite lookup_insert_eq. reflexivity.
Qed.

(** C10. [getHistory] returns a reference to a new array that holds the
    references to the items of the history. Whatever the caller then does
    to that array (pushing new items, removing or reordering elements),
    [this.history] refers to the same array with the same elements as
    before: a later [getHistory] returns an array with those elements, and
    the prompt builder reads the same items. The items are shared: an
    assignment to a field of an item reached through the returned array
    shows in the history of the instance. *)
Theorem getHistory_returns_a_fresh_array (st : State) (ops : list ArrayOp) :
  well_formed st ->
  let r := (getHistory st).1 in
  let st1 := (getHistory st).2 in
  let st2 := fold_left (apply_op r) ops st1 in
  (* a new array with the same element references *)
  objects st !! r = None
  /\ r <> this_history st
  /\ elements_at (objects st1) r = elements_at (objects st) (this_history st)
  (* the array of the instance is not affected by what is done to it *)
  /\ this_history st2 = this_history st
  /\ elements_at (objects st2) (this_history st2)
     = elements_at (objects st) (this_history st)
  /\ view st2 = view st
  /\ elements_at (objects (getHistory st2).2) (getHistory st2).1
     = elements_at (objects st) (this_history st)
  /\ items_of (getHistory st2).2 (getHistory st2).1 = view st
  /\ (forall input context options,
        Prompt.createDefaultIntentPrompt input context (Some (view st2)) options
        = Prompt.createDefaultIntentPrompt input context (Some (view st)) options)
  (* the items are shared *)
  /\ (forall i l item g,
        elements_at (objects st1) r !! i = Some l ->
        item_at (objects st1) l = Some item ->
        view (update_item l g st1) !! i = Some (g item)).
Proof.
  intros Hwf r st1 st2.
  destruct (getHistory_spec st Hwf) as (Hfresh & Hne & Ht1 & Hp1 & Hel1).
  fold r in Hfresh, Hne, Hel1, Hp1. fold st1 in Ht1, Hp1, Hel1.
  destruct (apply_ops_spec r ops st1) as (Hp2 & Ht2 & _). fold st2 in Hp2, Ht2.
  assert (preserved_except r (objects st) (objects st2)) as Hp
      by (eapply preserved_except_trans; eassumption).
  assert (this_history st2 = this_history st) as Ht by congruence.
  destruct (view_preserved r st st2 Hwf Hfresh Hp Ht) as [Hel2 Hview2].
  split; [exact Hfresh|]. split; [exact Hne|]. split; [exact Hel1|].
  split; [exact Ht|]. split; [exact Hel2|]. split; [exact Hview2|].
  assert (elements_at (objects (getHistory st2).2) (getHistory st2).1
          = elements_at (objects st) (this_history st)) as Hel3.
  { unfold getHistory.
    destruct (alloc (objects st2) _) as [r' h'] eqn:Ha.
    pose proof (alloc_spec (objects st2)
                  (Array (elements_at (objects st2) (this_history st2)))) as [_ Heq].
    rewrite Ha in Heq. simpl in Heq. subst h'. simpl.
    unfold elements_at at 1. rewrite lookup_insert_eq. exact Hel2. }
  split; [exact Hel3|]. split.
  { unfold items_of. rewrite Hel3.
    destruct Hwf as (xs & Harr & Hitems).
    unfold view, elements_at at 2. unfold elements_at at 1. rewrite Harr.
    apply omap_agree. eapply Forall_impl; [exact Hitems|].
    intros l [item Hl]. unfold item_at in Hl |- *.
    destruct (objects st !! l) as [[|item']|] eqn:Hol; try discriminate.
    assert (l <> r) as Hlr by congruence.
    pose proof (Hp _ _ Hlr Hol) as Hol2.
    unfold getHistory.
    destruct (alloc (objects st2) _) as [r' h'] eqn:Ha.
    pose proof (alloc_spec (objects st2)
                  (Array (elements_at (objects st2) (this_history st2)))) as [Hf' Heq].
    rewrite Ha in Hf', Heq. simpl in Hf', Heq. subst h'. simpl.
    rewrite lookup_insert_ne by congruence. rewrite Hol2. reflexivity. }
  split.
  { intros. rewrite Hview2. reflexivity. }
  intros i l item g Hil Hitem.
  unfold update_item. rewrite Hitem.
  unfold view. cbn [objects this_history].
  assert (objects st1 !! l = Some (Item item)) as Hol.
  { unfold item_at in Hitem. destruct (objects st1 !! l) as [[|it]|]; congruence. }
  destruct Hwf as (xs & Harr & Hitems).
  assert (objects st1 !! this_history st = Some (Array xs)) as Harr1
      by (apply Hp1; [congruence | exact Harr]).
  assert (l <> this_history st) as Hlt by congruence.
  rewrite Ht1. unfold elements_at at 1.
  rewrite lookup_insert_ne by congruence. rewrite Harr1.
  rewrite Hel1 in Hil. unfold elements_at in Hil. rewrite Harr in Hil.
  clear -Hil Hitems Hp1 Hfresh Hol. clearbody st1 r.
  revert i Hil. induction Hitems as [|x xs Hx Hxs IH]; intros i Hil; [discriminate|].
  assert (is_Some (item_at (<[l:=Item (g item)]> (objects st1)) x)) as [y Hy].
  { unfold item_at. destruct (decide (x = l)) as [->|Hxl].
    - rewrite lookup_insert_eq. eauto.
    - rewrite lookup_insert_ne by congruence.
      destruct Hx as [it Hit]. unfold item_at in Hit.
      destruct (objects st !! x) as [[|it']|] eqn:Hox; try discriminate.
      assert (x <> r) by congruence.
      rewrite (Hp1 _ _ H Hox). eauto. }
  rewrite omap_step, Hy.
  destruct i as [|i]; simpl in Hil |- *.
  - injection Hil as ->. unfold item_at in Hy. rewrite lookup_insert_eq in Hy.
    congruence.
  - apply IH. exact Hil.
Qed.

(** ** The store and the sequence of items *)

Lemma omap_length_all (A B : Type) (f : A -> option B) (xs : list A) :
  Forall (fun x => is_Some (f x)) xs -> length (omap f xs) = length xs.
Proof.
  induction 1 as [|x xs [y Hy] _ IH]; [reflexivity|].
  rewrite omap_step, Hy. simpl. rewrite IH. reflexivity.
Qed.

Lemma omap_drop_all (A B : Type) (f : A -> option B) (xs : list A) (n : nat) :
  Forall (fun x => is_Some (f x)) xs -> omap f (drop n xs) = drop n (omap f xs).
Proof.
  intros H. revert n. induction H as [|x xs [y Hy] _ IH]; intros n.
  - change (omap f []) with (@nil B). rewrite !drop_nil. reflexivity.
  - destruct n as [|n]; [reflexivity|].
    rewrite omap_step, Hy. simpl. apply IH.
Qed.

Lemma slice_from_length (A B : Type) (start : Z) (xs : list A) (ys : list B) :
  length xs = length ys ->
  exists n, Prompt.slice_from start xs = drop n xs
            /\ Prompt.slice_from start ys = drop n ys.
Proof.
  intros Hlen. unfold Prompt.slice_from. rewrite Hlen. eauto.
Qed.

Lemma init_well_formed (limit : option Z) :
  well_formed (init limit) /\ view (init limit) = [].
Proof.
  unfold well_formed, init, view.
  destruct (alloc_spec ∅ (Array [])) as [_ Heq].
  destruct (alloc ∅ (Array [])) as [a h]. cbn [fst snd] in Heq. subst h.
  cbn [objects this_history]. unfold elements_at. rewrite lookup_insert_eq.
  split; [|reflexivity]. exists []. split; [reflexivity | constructor].
Qed.

(** [HistoryStore.addToHistory] keeps the store well formed, and on the
    sequence of items it is [NLU.addToHistory]. *)
Lemma addToHistory_refines (E : Type) (this : NLU.NaturalLanguageUnderstanding E)
      (st : State) input intent now :
  well_formed st ->
  NLUTypes.historyLimit (NLU.options this) = historyLimit st ->
  NLU.history this = view st ->
  well_formed (addToHistory st input intent now)
  /\ view (addToHistory st input intent now)
     = NLU.history (NLU.addToHistory this input intent now)
  /\ historyLimit (addToHistory st input intent now) = historyLimit st.
Proof.
  intros (xs & Harr & Hitems) Hlimit Hview.
  set (item := {| Prompt.input := input; Prompt.intent := intent;
                  Prompt.timestamp := now |}).
  unfold addToHistory. fold item.
  destruct (alloc_spec (objects st) (Item item)) as [Hfresh Heq].
  destruct (alloc (objects st) (Item item)) as [i h]. cbn [fst snd] in Hfresh, Heq.
  subst h.
  assert (i <> this_history st) as Hne by congruence.
  assert (elements_at (<[i:=Item item]> (objects st)) (this_history st) = xs) as Hel.
  { unfold elements_at. rewrite lookup_insert_ne by congruence. rewrite Harr.
    reflexivity. }
  rewrite Hel.
  set (h2 := <[this_history st := Array (xs ++ [i])]> (<[i:=Item item]> (objects st))).
  assert (h2 !! this_history st = Some (Array (xs ++ [i]))) as Hh2
      by (subst h2; apply lookup_insert_eq).
  assert (forall l, is_Some (item_at (objects st) l) ->
                    item_at h2 l = item_at (objects st) l) as Hkeep.
  { intros l [it Hl]. unfold item_at in Hl |- *. subst h2.
    destruct (objects st !! l) as [[|it']|] eqn:Hol; try discriminate.
    rewrite lookup_insert_ne by congruence.
    rewrite lookup_insert_ne by congruence. rewrite Hol. reflexivity. }
  assert (item_at h2 i = Some item) as Hnew.
  { unfold item_at. subst h2. rewrite lookup_insert_ne by congruence.
    rewrite lookup_insert_eq. reflexivity. }
  assert (Forall (fun l => is_Some (item_at h2 l)) (xs ++ [i])) as Hall.
  { apply Forall_app. split.
    - eapply Forall_impl; [exact Hitems|]. intros l Hl. rewrite Hkeep; assumption.
    - constructor; [eauto | constructor]. }
  assert (omap (item_at h2) (xs ++ [i]) = view st ++ [item]) as Hpushed.
  { rewrite omap_app. f_equal.
    - unfold view, elements_at. rewrite Harr. apply omap_agree.
      eapply Forall_impl; [exact Hitems|]. intros l Hl. apply Hkeep. exact Hl.
    - rewrite omap_step, Hnew. reflexivity. }
  assert (length (xs ++ [i]) = length (NLU.history this ++ [item])) as Hlen.
  { rewrite Hview, <- Hpushed. symmetry. apply omap_length_all. exact Hall. }
  unfold NLU.addToHistory. fold item. rewrite Hlimit, <- Hlen.
  destruct (historyLimit st) as [limit|]; cbn [default from_option id].
  2:{ cbn [objects this_history historyLimit NLU.history NLU.set_history].
      fold h2. split; [|split; [|reflexivity]].
      - exists (xs ++ [i]). split; [exact Hh2|exact Hall].
      - unfold view. cbn [objects this_history].
        unfold elements_at. rewrite Hh2, Hpushed, Hview. reflexivity. }
  destruct (negb (limit =? 0)%Z && (limit <? Z.of_nat (length (xs ++ [i])))%Z).
  - fold h2.
    destruct (alloc_spec h2 (Array (Prompt.slice_from (- limit) (xs ++ [i]))))
      as [Hfresh2 Heq2].
    destruct (alloc h2 _) as [a h3]. cbn [fst snd] in Hfresh2, Heq2.
    cbn [objects this_history historyLimit NLU.history NLU.set_history].
    destruct (slice_from_length _ _ (- limit) _ _ Hlen) as (n & Hs1 & Hs2).
    assert (h3 !! a = Some (Array (Prompt.slice_from (- limit) (xs ++ [i])))) as Hh3
        by (subst h3; apply lookup_insert_eq).
    assert (forall l, is_Some (item_at h2 l) -> item_at h3 l = item_at h2 l) as Hkeep2.
    { intros l [it Hl]. unfold item_at in Hl |- *. subst h3.
      destruct (h2 !! l) as [[|it']|] eqn:Hol; try discriminate.
      rewrite lookup_insert_ne by congruence. rewrite Hol. reflexivity. }
    clear Heq2.
    assert (Forall (fun l => is_Some (item_at h3 l)) (xs ++ [i])) as Hall2.
    { eapply Forall_impl; [exact Hall|]. intros l Hl. rewrite Hkeep2; assumption. }
    split; [|split; [|reflexivity]].
    + exists (Prompt.slice_from (- limit) (xs ++ [i])).
      split; [exact Hh3|].
      rewrite Hs1. apply Forall_drop. exact Hall2.
    + unfold view. cbn [objects this_history].
      unfold elements_at. rewrite Hh3.
      rewrite Hs1, Hs2, omap_drop_all by exact Hall2.
      f_equal. rewrite Hview, <- Hpushed. apply omap_agree.
      eapply Forall_impl; [exact Hall|]. intros l Hl. apply Hkeep2. exact Hl.
  - cbn [objects this_history historyLimit NLU.history NLU.set_history].
    fold h2. split; [|split; [|reflexivity]].
    + exists (xs ++ [i]). split; [exact Hh2|exact Hall].
    + unfold view. cbn [objects this_history].
      unfold elements_at. rewrite Hh2, Hpushed, Hview. reflexivity.
Qed.

End ReturnedArray.

(* ===================================================================== *)
(** * The claims on concrete inputs *)
(* ===================================================================== *)

(** C1 fails on the program: with three retries allowed, a response that
    carries an error is not followed by another invocation. *)
Lemma model_error_is_not_retried :
  let this := Examples.nlu_with Examples.failing_provider 10 in
  let run := NLU.parseIntent this (lit "hello") None Examples.w0 in
  ~ (forall i request response,
       NLU.calls run !! i = Some (request, Returned response) ->
       NLU.has_error response = true ->
       (i < NLU.maxRetries_ this)%nat ->
       (S i < length (NLU.calls run))%nat).
Proof.
  intros this run H.
  assert (exists request response,
             NLU.calls run !! 0%nat = Some (request, Returned response)
             /\ NLU.has_error response = true) as (request & response & Hi & Herr)
      by (eexists _, _; split; vm_compute; reflexivity).
  specialize (H 0%nat request response Hi Herr).
  assert (0 < NLU.maxRetries_ this)%nat as Hk by (vm_compute; lia).
  apply H in Hk. vm_compute in Hk. lia.
Qed.

Lemma model_error_ends_the_call_decode_failure_is_retried_witness :
  let failing := Examples.nlu_with Examples.failing_provider 10 in
  let run1 := NLU.parseIntent failing (lit "hello") None Examples.w0 in
  let garbled := Examples.nlu_with (Examples.constant_provider (lit "not json")) 10 in
  let run2 := NLU.parseIntent garbled (lit "hello") None Examples.w0 in
  (1%nat = length (NLU.calls run1)
   /\ NLU.result run1 =
        Some (model_error (Date_now Examples.w0) Examples.failing_response
                          (NLU.world run1) 0)
   /\ NLU.instance run1 = failing)
  /\ (1 < length (NLU.calls run2))%nat.
Proof.
  intros failing run1 garbled run2. split.
  - refine (proj1 (model_error_ends_the_call_decode_failure_is_retried
                     failing (lit "hello") None Examples.w0 0%nat _
                     Examples.failing_response _) _);
      vm_compute; reflexivity.
  - refine (proj2 (model_error_ends_the_call_decode_failure_is_retried
                     garbled (lit "hello") None Examples.w0 0%nat _
                     {| LLM.content := lit "not json"; LLM.usage := None;
                        LLM.error := None |} _) _ _ _).
    + vm_compute. reflexivity.
    + reflexivity.
    + vm_compute. exact I.
    + vm_compute. lia.
Defined.



(** C6 fails on the program when the confidence is not a number: the word
    [high] coerces to NaN, NaN is what is returned and stored, and NaN is
    not below [minConfidence], so the call succeeds. *)
Lemma confidence_that_is_a_word_is_returned_as_NaN :
  let this := Examples.nlu_with (Examples.constant_provider Examples.high_json) 10 in
  let run := NLU.parseIntent this (lit "hello") None Examples.w0 in
  let intent := Json.JObj [(lit "action", Json.JStr (lit "greet"));
                           (lit "confidence", Json.JNum JsNum.NaN)] in
  NLU.result run =
    Some {| NLUTypes.success := true;
            NLUTypes.intent := Some intent;
            NLUTypes.error := None;
            NLUTypes.rawLLMResponse := None;
            NLUTypes.processingTime := Some 0%Z;
            NLUTypes.retries := Some 0%Z;
            NLUTypes.correctionSuggestion := None |}
  /\ NLU.history (NLU.instance run) =
       [{| Prompt.input := lit "hello"; Prompt.intent := intent;
           Prompt.timestamp := 1000 |}]
  /\ NLU.confidence_of intent = Some (Json.JNum JsNum.NaN)
  /\ ~ in_unit_interval JsNum.NaN.
Proof.
  vm_compute. repeat split. intros [H _]. discriminate.
Qed.

Lemma returned_confidence_is_clamped_witness :
  let this := Examples.nlu_with (Examples.constant_provider
                                   (litq "{`action`:`greet`,`confidence`:7}")) 10 in
  let run := NLU.parseIntent this (lit "hello") None Examples.w0 in
  exists request response raw intent,
    last (NLU.calls run) = Some (request, Returned response)
    /\ Json.parse (LLM.content response) = Returned raw
    /\ (NLUTypes.intent <$> NLU.result run) = Some (Some intent)
    /\ NLU.instance run = after_success this (lit "hello") intent (NLU.world run)
    /\ match NLU.confidence_of raw with
       | None => intent = raw
       | Some confidence =>
           exists c,
             Json.to_number confidence = Returned c
             /\ NLU.confidence_of intent = Some (Json.JNum (NLU.clamp c))
             /\ JsNum.lt (NLU.clamp c) (NLU.minConfidence_ this) = false
             /\ (c <> JsNum.NaN ->
                 in_unit_interval (NLU.clamp c)
                 /\ (JsNum.lt c JsNum.zero = true -> NLU.clamp c = JsNum.zero)
                 /\ (JsNum.lt JsNum.one c = true -> NLU.clamp c = JsNum.one))
       end.
Proof.
  intros this run.
  destruct (NLU.result run) as [r|] eqn:Hr; [|vm_compute in Hr; discriminate].
  destruct (returned_confidence_is_clamped this (lit "hello") None Examples.w0 r Hr)
    as (request & response & raw & intent & H1 & H2 & H3 & H4 & H5).
  { vm_compute in Hr. injection Hr as <-. reflexivity. }
  exists request, response, raw, intent.
  split; [exact H1|]. split; [exact H2|]. split; [simpl; rewrite H3; reflexivity|].
  split; [exact H4 | exact H5].
Defined.


(** C7 fails on the program in the text of the message. *)
Lemma rejection_message_names_the_intent :
  let response :=
    (Router.routeIntent Examples.call_object_prototype Examples.one_executor
                        Examples.delete_intent None Examples.guarded 0%nat).1.1 in
  Types.message response = Some (lit "Intent rejected by middleware")
  /\ Types.message response <> Some (lit "rejected by middleware").
Proof. vm_compute. split; [reflexivity | discriminate]. Qed.

Lemma middleware_rejection_short_circuits_witness :
  Router.routeIntent Examples.call_object_prototype Examples.one_executor
                     Examples.delete_intent None Examples.guarded 0%nat
  = (Router.respond false (Some (lit "Intent rejected by middleware")) None,
     1%nat,
     [Router.MiddlewareRan 0; Router.MiddlewareRan 1]).
Proof.
  apply (middleware_rejection_short_circuits
           Examples.call_object_prototype Examples.one_executor
           Examples.delete_intent None Examples.guarded 0%nat
           [Examples.counting] [Examples.counting] Examples.only_navigate
           Examples.delete_intent 1%nat [Router.MiddlewareRan 0] 1%nat).
  - reflexivity.
  - reflexivity.
  - vm_compute. reflexivity.
Defined.

(** C8 fails on the program in the text of the message, and for an action
    that names a property of [Object.prototype]: nothing is registered under
    [constructor], yet [actionExecutors["constructor"]] is the function
    [Object], which is called and returns the intent. *)
Lemma unknown_action_message_and_inherited_names :
  let route intent :=
    (Router.routeIntent Examples.call_object_prototype Examples.one_executor
                        intent None Router.no_options 0%nat).1.1 in
  (Types.message (route Examples.navigate_intent) = Some (lit "Unknown action: navigate")
   /\ Types.message (route Examples.navigate_intent) <> Some (lit "unknown action: navigate"))
  /\ (Examples.one_executor !! lit "constructor" = None
      /\ route Examples.constructor_intent
         = Router.respond true None (Some (Examples.AnIntent Examples.constructor_intent))).
Proof.
  vm_compute. repeat split. discriminate.
Qed.

Lemma unknown_action_response_witness :
  Router.routeIntent Examples.call_object_prototype Examples.one_executor
                     Examples.navigate_intent None Router.no_options 0%nat
  = (Router.respond false (Some (lit "Unknown action: " ++ lit "navigate")) None,
     0%nat, []).
Proof.
  apply (unknown_action_response
           Examples.call_object_prototype Examples.one_executor
           Examples.navigate_intent None Router.no_options 0%nat
           Examples.navigate_intent 0%nat []).
  - reflexivity.
  - vm_compute. reflexivity.
  - vm_compute. reflexivity.
  - exact I.
Defined.

Lemma two_items_well_formed : HistoryStore.well_formed Examples.two_items.
Proof.
  exists [1%nat; 2%nat]. split; [vm_compute; reflexivity|].
  repeat constructor; vm_compute; eauto.
Defined.

Lemma getHistory_returns_a_fresh_array_witness :
  let st := Examples.two_items in
  let r := (HistoryStore.getHistory st).1 in
  let st2 := fold_left (HistoryStore.apply_op r) Examples.caller_ops
                       (HistoryStore.getHistory st).2 in
  r <> HistoryStore.this_history st
  /\ HistoryStore.view st2 = HistoryStore.view st
  /\ HistoryStore.items_of (HistoryStore.getHistory st2).2 (HistoryStore.getHistory st2).1
     = HistoryStore.view st
  /\ HistoryStore.elements_at (HistoryStore.objects st2) r <>
     HistoryStore.elements_at (HistoryStore.objects st) (HistoryStore.this_history st).
Proof.
  intros st r st2.
  destruct (getHistory_returns_a_fresh_array Examples.two_items Examples.caller_ops
              two_items_well_formed)
    as (_ & Hne & _ & _ & _ & Hview & _ & Hitems & _).
  split; [exact Hne|]. split; [exact Hview|]. split; [exact Hitems|].
  vm_compute. discriminate.
Defined.

(* ===================================================================== *)
(** * The substrate on examples *)
(* ===================================================================== *)

Example normalizeInput_politeness_mapping_typos :
  Normalizer.normalizeInput (lit "  Please   OPEN the dasboard setting  ")
  = lit "navigate to the dashboard settings".
Proof. vm_compute. reflexivity. Qed.

Example normalizeInput_show_me :
  Normalizer.normalizeInput (lit "Show me sales from last month")
  = lit "show sales from last month".
Proof. vm_compute. reflexivity. Qed.

Example hasSensitiveContent_whole_words :
  Normalizer.hasSensitiveContent (lit "what is my Password?") = true
  /\ Normalizer.hasSensitiveContent (lit "passwords") = false.
Proof. vm_compute. split; reflexivity. Qed.

Example number_texts :
  map (fun text => JsNum.to_string (JsNum.of_string (lit text)))
      ["0.95"; "1500"; "0.000001"; "1e-7"; "1.5e-7"; "1e21"; "-0.40"; "0x1F"; " 12 "; "high"]%string
  = map lit ["0.95"; "1500"; "0.000001"; "1e-7"; "1.5e-7"; "1e+21"; "-0.4"; "31"; "12"; "NaN"]%string.
Proof. vm_compute. reflexivity. Qed.

Example parse_orders_properties :
  Json.parse (litq " {`b`: 1, `2`: [1 , 2.50e1], `a`: -0.0, `1`: {}, `b`: null} ")
  = Returned (Json.JObj [(lit "1", Json.JObj []);
                         (lit "2", Json.JArr [Json.JNum (JsNum.Fin (JsNum.Dec 1 0));
                                              Json.JNum (JsNum.Fin (JsNum.Dec 25 0))]);
                         (lit "b", Json.JNull);
                         (lit "a", Json.JNum (JsNum.Fin (JsNum.Dec 0 0)))]).
Proof. vm_compute. reflexivity. Qed.

Example parse_rejects :
  Forall (fun text => Json.parse (litq text) = Thrown Json.not_valid_json)
         ["01"; "[1,]"; "{`a`:1 `b`:2}"; "nul"; "`a\x`"; "1 2"; "-"; ""; "{'a':1}"]%string.
Proof.
  repeat (apply List.Forall_cons; [vm_compute; reflexivity|]).
  apply List.Forall_nil.
Qed.

Example stringify_then_parse :
  Forall (fun response => exists v, Json.parse response = Returned v
                                    /\ Json.stringify v = response)
         (map snd LLM.patternResponses).
Proof.
  unfold LLM.patternResponses. cbn [map snd].
  repeat (apply List.Forall_cons;
          [eexists; split; [vm_compute; reflexivity | vm_compute; reflexivity]|]).
  apply List.Forall_nil.
Qed.

Example fallback_round_trip :
  Json.parse (Json.stringify (LLM.fallback (mock_prompt (lit "asdkjasd") None)))
  = Returned (LLM.fallback (mock_prompt (lit "asdkjasd") None)).
Proof. vm_compute. reflexivity. Qed.

(** The scenario of the sales of last month: the first pattern of the stub
    matches the line of the prompt that quotes the input. *)
Example mock_sales_last_month :
  let run := NLU.parseIntent (Examples.mock_nlu unit)
                             (lit "Show me sales from last month") None Examples.w0 in
  (NLU.result run ≫= NLUTypes.intent)
  = Some (Json.JObj [(lit "action", Json.JStr (lit "filter"));
                     (lit "target", Json.JStr (lit "sales"));
                     (lit "params", Json.JObj [(lit "dateRange", Json.JStr (lit "last_month"))]);
                     (lit "confidence", Json.JNum (JsNum.Fin (JsNum.Dec 95 (-2))))])
  /\ (NLU.result run ≫= NLUTypes.retries) = Some 0%Z.
Proof. vm_compute. split; reflexivity. Qed.

(** A confidence below the threshold on every pass: the result after the
    retry is the low-confidence failure with its suggestion. *)
Example low_confidence_after_retries :
  let this := Examples.nlu_with (Examples.constant_provider
                                   (litq "{`action`:`unknown`,`confidence`:0.4}")) 10 in
  let run := NLU.parseIntent this (lit "asdkjasd") None Examples.w0 in
  NLU.result run =
    Some (NLU.failure (lit "Low confidence intent (0.4)")
                      (Some (litq "{`action`:`unknown`,`confidence`:0.4}"))
                      0 (Some 3%Z)
                      (Some (lit "Can you rephrase or clarify your command?")))
  /\ length (NLU.calls run) = 4%nat
  /\ NLU.history (NLU.instance run) = [].
Proof. vm_compute. repeat split. Qed.

(* ===================================================================== *)
(** * What a call of parseIntent returns and leaves behind *)
(* ===================================================================== *)
Section Bookkeeping.
Context {E : Type}.
Variable this : NLU.NaturalLanguageUnderstanding E.
Variable input : jsstring.
Variable context : option Prompt.PromptContext.









(** ** The invocations, pass by pass *)

(** Every invocation of a call is the one of a pass of the loop: the pass
    with the number [i + 1] has made the invocation with the index [i].
    How that pass ends decides what follows: after [continue] comes another
    invocation while the condition of the loop holds; [break], [return]
    and a [continue] that meets the end of the loop make this invocation
    the last one and fix the result. *)
Lemma attempts_loop_pass startTime fuel attempts lastResult w calls :
  Normalizer.hasSensitiveContent (Normalizer.normalizeInput input) = false ->
  (S (NLU.maxRetries_ this) - attempts <= fuel)%nat ->
  length calls = attempts ->
  let run := NLU.attempts_loop this input context startTime fuel attempts
                               lastResult w calls in
  forall i,
    (length calls <= i < length (NLU.calls run))%nat ->
    exists lr_i w_i ctl w_i' call,
      NLU.calls run !! i = Some call
      /\ NLU.attempt this input context startTime (S i) lr_i w_i = (ctl, w_i', [call])
      /\ match ctl with
         | NLU.Continue lr' =>
             if (S i <=? NLU.maxRetries_ this)%nat
             then (S i < length (NLU.calls run))%nat
             else S i = length (NLU.calls run) /\ NLU.result run = lr'
                  /\ NLU.instance run = this /\ NLU.world run = w_i'
         | NLU.Break lr' =>
             S i = length (NLU.calls run) /\ NLU.result run = lr'
             /\ NLU.instance run = this /\ NLU.world run = w_i'
         | NLU.Return r t =>
             S i = length (NLU.calls run) /\ NLU.result run = Some r
             /\ NLU.instance run = t /\ NLU.world run = w_i'
         end.
Proof.
  intros Hs. revert attempts lastResult w calls.
  induction fuel as [|fuel IH]; intros attempts lastResult w calls Hfuel Hlen run i Hi;
    subst run.
  - exfalso. rewrite attempts_loop_exit in Hi by lia. simpl in Hi. lia.
  - destruct (Nat.leb_spec attempts (NLU.maxRetries_ this)) as [Hle|Hlt].
    2:{ exfalso. rewrite attempts_loop_exit in Hi by lia. simpl in Hi. lia. }
    rewrite attempts_loop_step in Hi |- * by assumption.
    pose proof (attempt_spec this input context startTime (S attempts) lastResult w) as Hspec.
    destruct (NLU.attempt this input context startTime (S attempts) lastResult w)
      as [[ctl w'] sent] eqn:Hpass.
    destruct Hspec as [(Hs' & _) | (_ & rq & out & -> & _)]; [congruence|].
    destruct (decide (i = length calls)) as [->|Hne].
    + (* the invocation of this pass *)
      exists lastResult, w, ctl, w', (rq, out).
      rewrite Hlen. split; [|split; [exact Hpass|]].
      * destruct ctl as [lr|lr|r t]; cbn [NLU.calls].
        -- pose proof (attempts_loop_calls_prefix this input context startTime fuel
                         (S attempts) lr w' (calls ++ [(rq, out)])) as Hp.
           eapply prefix_lookup_Some; [|exact Hp].
           rewrite lookup_app_r, Hlen, Nat.sub_diag by lia. reflexivity.
        -- rewrite lookup_app_r, Hlen, Nat.sub_diag by lia. reflexivity.
        -- rewrite lookup_app_r, Hlen, Nat.sub_diag by lia. reflexivity.
      * destruct ctl as [lr|lr|r t]; cbn [NLU.calls NLU.result NLU.instance NLU.world].
        -- destruct (Nat.leb_spec (S attempts) (NLU.maxRetries_ this)) as [Hle'|Hgt'].
           ++ destruct fuel as [|fuel]; [lia|].
              eapply Nat.le_lt_trans;
                [|apply attempts_loop_invokes; [lia|assumption]].
              rewrite length_app. simpl. lia.
           ++ rewrite attempts_loop_exit by lia.
              cbn [NLU.calls NLU.result NLU.instance NLU.world].
              rewrite length_app. simpl. repeat split. lia.
        -- rewrite length_app. simpl. repeat split. lia.
        -- rewrite length_app. simpl. repeat split. lia.
    + (* an invocation of a later pass *)
      destruct ctl as [lr|lr|r t]; cbn [NLU.calls] in Hi |- *.
      * apply IH; [lia | rewrite length_app; simpl; lia |].
        rewrite length_app. simpl. lia.
      * exfalso. rewrite length_app in Hi. simpl in Hi. lia.
      * exfalso. rewrite length_app in Hi. simpl in Hi. lia.
Qed.

(** How a pass ends whose invocation gave a response without an error. *)
Lemma attempt_on_response startTime attempts lastResult w ctl w' request response :
  NLU.attempt this input context startTime attempts lastResult w
  = (ctl, w', [(request, Returned response)]) ->
  NLU.has_error response = false ->
  match NLU.decode (LLM.content response) with
  | NLU.Intent intent =>
      if NLU.low_confidence intent (NLU.minConfidence_ this)
      then if (attempts <=? NLU.maxRetries_ this)%nat && NLU.retryOnFailure_ this
           then ctl = NLU.Continue lastResult
           else ctl = NLU.Return
                        (low_confidence_failure startTime response intent w'
                                                (Z.of_nat attempts - 1))
                        this
      else exists r, ctl = NLU.Return r (after_success this input intent w')
                     /\ NLUTypes.success r = true /\ NLUTypes.intent r = Some intent
  | _ =>
      ctl = NLU.Continue (decode_failure startTime response w' (Z.of_nat attempts - 1))
  end.
Proof.
  unfold NLU.attempt, decode_failure, low_confidence_failure.
  destruct (Normalizer.hasSensitiveContent _); cbv beta iota zeta; [discriminate|].
  destruct (LLM.generate _ _ _) as [[response'|e] w1]; cbv beta iota zeta;
    [|intros [= _ _ _ Hout]; discriminate].
  destruct (NLU.has_error response') eqn:Herr'; cbv beta iota zeta.
  { intros [= _ _ _ <-] Herr. congruence. }
  destruct (NLU.decode (LLM.content response')) as [intent| |e] eqn:Hd;
    cbv beta iota zeta.
  - destruct (NLU.low_confidence intent _) eqn:Hlow;
      [destruct (_ && _) eqn:Hretry|]; cbv beta iota zeta;
      intros [= <- <- _ <-] _; rewrite Hd, Hlow, ?Hretry; eauto.
  - intros [= <- <- _ <-] _. rewrite Hd. reflexivity.
  - intros [= <- <- _ <-] _. rewrite Hd. reflexivity.
Qed.

(** X4. An answer whose confidence is below [minConfidence] is retried
    while retries remain and [retryOnFailure] is not switched off: then
    another invocation follows. Otherwise the invocation is the last one,
    and [parseIntent] returns the failure [Low confidence intent (c)]
    with the suggestion to rephrase; the instance is as before. *)
Theorem low_confidence_is_retried_while_allowed (w : World E) :
  let run := NLU.parseIntent this input context w in
  forall i request response intent,
    NLU.calls run !! i = Some (request, Returned response) ->
    NLU.has_error response = false ->
    NLU.decode (LLM.content response) = NLU.Intent intent ->
    NLU.low_confidence intent (NLU.minConfidence_ this) = true ->
    if (i <? NLU.maxRetries_ this)%nat && NLU.retryOnFailure_ this
    then (S i < length (NLU.calls run))%nat
    else S i = length (NLU.calls run)
         /\ NLU.result run =
              Some (low_confidence_failure (Date_now w) response intent
                                           (NLU.world run) (Z.of_nat i))
         /\ NLU.instance run = this.
Proof.
  intros run i request response intent Hi Herr Hd Hlow.
  destruct (Normalizer.hasSensitiveContent (Normalizer.normalizeInput input)) eqn:Hs.
  { exfalso. subst run. rewrite parseIntent_on_sensitive_input in Hi by assumption.
    discriminate. }
  destruct (attempts_loop_pass (Date_now w) (S (NLU.maxRetries_ this)) 0 None w []
              Hs ltac:(lia) eq_refl i)
    as (lr_i & w_i & ctl & w_i' & call & Hcall & Hpass & Hctl).
  { split; [simpl; lia|]. eapply lookup_lt_Some. exact Hi. }
  change (NLU.attempts_loop this input context (Date_now w)
            (S (NLU.maxRetries_ this)) 0 None w []) with run in Hcall, Hctl.
  assert (call = (request, Returned response)) as -> by congruence.
  pose proof (attempt_on_response _ _ _ _ _ _ _ _ Hpass Herr) as Hend.
  rewrite Hd, Hlow in Hend.
  change (i <? NLU.maxRetries_ this)%nat with (S i <=? NLU.maxRetries_ this)%nat.
  destruct ((S i <=? NLU.maxRetries_ this)%nat && NLU.retryOnFailure_ this) eqn:Hretry.
  - subst ctl. apply andb_true_iff in Hretry as [Hle _]. rewrite Hle in Hctl.
    exact Hctl.
  - subst ctl. destruct Hctl as (Hlast & Hres & Hinst & Hw).
    split; [exact Hlast|]. split; [|exact Hinst].
    rewrite Hres, Hw. do 2 f_equal. unfold low_confidence_failure. f_equal. f_equal. lia.
Qed.


End Bookkeeping.


Lemma low_confidence_is_retried_while_allowed_witness :
  let this := Examples.nlu_with (Examples.constant_provider Examples.unsure_json) 10 in
  let run := NLU.parseIntent this (lit "asdkjasd") None Examples.w0 in
  let response := {| LLM.content := Examples.unsure_json; LLM.usage := None;
                     LLM.error := None |} in
  let intent := Json.JObj [(lit "action", Json.JStr (lit "unknown"));
                           (lit "confidence", Json.JNum (JsNum.Fin (JsNum.Dec 4 (-1))))] in
  (1 < length (NLU.calls run))%nat
  /\ (4%nat = length (NLU.calls run)
      /\ NLU.result run =
           Some (low_confidence_failure (Date_now Examples.w0) response intent
                                        (NLU.world run) 3)
      /\ NLU.instance run = this).
Proof.
  intros this run response intent. split.
  - pose proof (low_confidence_is_retried_while_allowed this (lit "asdkjasd") None
                  Examples.w0 0%nat) as H.
    specialize (H {| LLM.prompt := mock_prompt (lit "asdkjasd") None; LLM.options := None |}
                  response intent).
    apply H; vm_compute; reflexivity.
  - pose proof (low_confidence_is_retried_while_allowed this (lit "asdkjasd") None
                  Examples.w0 3%nat) as H.
    specialize (H {| LLM.prompt := mock_prompt (lit "asdkjasd") None; LLM.options := None |}
                  response intent).
    apply H; vm_compute; reflexivity.
Defined.



(* ===================================================================== *)
(** * What routeIntent runs *)
(* ===================================================================== *)

Section RouterTrace.
Import Router Types.
Context {W C D : Type}.
Variable call_inherited : jsstring -> @ExecutorFunction W C D.
Variable actionExecutors : gmap jsstring (@ExecutorFunction W C D).





End RouterTrace.


Section RouterErrors.
Import Router Types.
Context {W C D : Type}.
Variable call_inherited : jsstring -> @ExecutorFunction W C D.
Variable actionExecutors : gmap jsstring (@ExecutorFunction W C D).

(** X7. [routeIntent] reports what is thrown while it runs. An error of a
    middleware ends the call with the message [Router error: ...], and no
    executor runs. An error of the executor of the action is answered with
    its message or, when that is empty, with [defaultErrorMessage], which
    is [Action execution failed] unless the options say otherwise. An
    error of the fallback executor is outside the inner [try] and is
    answered with [Router error: ...] as well. *)
Theorem routeIntent_reports_what_is_thrown
        intent context (options : @RouterOptions W) w chain w1 trace :
  run_middleware (default [] (middleware options)) 0 intent w [] = (chain, w1, trace) ->
  let answer := Router.routeIntent call_inherited actionExecutors intent context options w in
  (forall e,
      chain = Threw e ->
      answer = (respond false (Some (lit "Router error: " ++ error_message e)) None,
                w1, trace))
  /\ (forall intent' executor e w2,
         chain = Passed intent' ->
         lookup_executor call_inherited actionExecutors (action intent') = Some executor ->
         executor intent' context w1 = (Thrown e, w2) ->
         answer = (respond false
                     (Some (if JsString.truthy (error_message e)
                            then error_message e
                            else default (lit "Action execution failed")
                                         (defaultErrorMessage options)))
                     None,
                   w2, trace ++ [ExecutorRan (action intent')]))
  /\ (forall intent' name fallbackExecutor e w2,
         chain = Passed intent' ->
         lookup_executor call_inherited actionExecutors (action intent') = None ->
         fallbackAction options = Some name ->
         name <> [] ->
         lookup_executor call_inherited actionExecutors name = Some fallbackExecutor ->
         fallbackExecutor intent' context w1 = (Thrown e, w2) ->
         answer = (respond false (Some (lit "Router error: " ++ error_message e)) None,
                   w2, trace ++ [ExecutorRan name])).
Proof.
  intros Hmw answer. subst answer. split; [|split].
  - intros e ->. unfold Router.routeIntent. cbn [middleware merge_options].
    destruct (middleware options) as [[|fn fns]|]; cbn [default from_option id] in Hmw.
    + simpl in Hmw. discriminate.
    + rewrite Hmw. reflexivity.
    + simpl in Hmw. discriminate.
  - intros intent' executor e w2 -> Hlook Hthrow.
    rewrite (routeIntent_after_middleware _ _ _ _ _ _ _ _ _ Hmw).
    unfold dispatch. rewrite Hlook, Hthrow.
    cbn [defaultErrorMessage merge_options].
    destruct (JsString.truthy (error_message e)); reflexivity.
  - intros intent' name fallbackExecutor e w2 -> Hlook Hfb Hname Hlookfb Hthrow.
    rewrite (routeIntent_after_middleware _ _ _ _ _ _ _ _ _ Hmw).
    unfold dispatch. rewrite Hlook. cbn [fallbackAction merge_options].
    rewrite Hfb.
    destruct name as [|c name]; [congruence|]. cbn [JsString.truthy].
    rewrite Hlookfb, Hthrow. reflexivity.
Qed.

(** X8. The fallback. When the action of the intent that leaves the
    middleware has no executor and the options name a fallback action
    that has one, that executor runs on the intent and its data are
    returned with [success: true] and the message [Executed fallback
    action: ] followed by the name. When the action has an executor, the
    fallback is not looked at: the options without [fallbackAction] give
    the same answer. *)
Theorem fallback_answers_for_unknown_actions_only
        intent context (options : @RouterOptions W) w intent' w1 trace :
  run_middleware (default [] (middleware options)) 0 intent w [] = (Passed intent', w1, trace) ->
  (forall name fallbackExecutor d w2,
      lookup_executor call_inherited actionExecutors (action intent') = None ->
      fallbackAction options = Some name ->
      name <> [] ->
      lookup_executor call_inherited actionExecutors name = Some fallbackExecutor ->
      fallbackExecutor intent' context w1 = (Returned d, w2) ->
      Router.routeIntent call_inherited actionExecutors intent context options w
      = (respond true (Some (lit "Executed fallback action: " ++ name)) (Some d),
         w2, trace ++ [ExecutorRan name]))
  /\ (is_Some (lookup_executor call_inherited actionExecutors (action intent')) ->
      Router.routeIntent call_inherited actionExecutors intent context options w
      = Router.routeIntent call_inherited actionExecutors intent context
          {| defaultErrorMessage := defaultErrorMessage options;
             fallbackAction := None;
             debug := debug options;
             middleware := middleware options |} w).
Proof.
  intros Hmw. split.
  - intros name fallbackExecutor d w2 Hlook Hfb Hname Hlookfb Hreturn.
    rewrite (routeIntent_after_middleware _ _ _ _ _ _ _ _ _ Hmw).
    unfold dispatch. rewrite Hlook. cbn [fallbackAction merge_options].
    rewrite Hfb.
    destruct name as [|c name]; [congruence|]. cbn [JsString.truthy].
    rewrite Hlookfb, Hreturn. reflexivity.
  - intros [executor Hlook].
    rewrite (routeIntent_after_middleware _ _ _ _ _ _ _ _ _ Hmw).
    rewrite (routeIntent_after_middleware call_inherited actionExecutors intent context
               {| defaultErrorMessage := defaultErrorMessage options;
                  fallbackAction := None;
                  debug := debug options;
                  middleware := middleware options |} w intent' w1 trace Hmw).
    unfold dispatch. rewrite Hlook. reflexivity.
Qed.

End RouterErrors.

Lemma routeIntent_reports_what_is_thrown_witness :
  let route intent options :=
    Router.routeIntent Examples.call_object_prototype Examples.three_executors
                       intent (Some tt) options 0%nat in
  route Examples.save_intent Router.no_options
  = (Router.respond false (Some (lit "disk full")) None, 1%nat,
     [Router.ExecutorRan (lit "save")])
  /\ route Examples.drop_intent Router.no_options
     = (Router.respond false (Some (lit "Action execution failed")) None, 0%nat,
        [Router.ExecutorRan (lit "drop")])
  /\ route Examples.delete_intent (Examples.with_fallback (lit "save"))
     = (Router.respond false (Some (lit "Router error: disk full")) None, 1%nat,
        [Router.ExecutorRan (lit "save")]).
Proof.
  intros route. subst route. cbv beta.
  split; [|split].
  - apply (proj1 (proj2 (routeIntent_reports_what_is_thrown
                    Examples.call_object_prototype Examples.three_executors
                    Examples.save_intent (Some tt) Router.no_options 0%nat
                    (Router.Passed Examples.save_intent) 0%nat [] eq_refl))
             Examples.save_intent Examples.thrower (Error (lit "disk full")) 1%nat);
      vm_compute; reflexivity.
  - apply (proj1 (proj2 (routeIntent_reports_what_is_thrown
                    Examples.call_object_prototype Examples.three_executors
                    Examples.drop_intent (Some tt) Router.no_options 0%nat
                    (Router.Passed Examples.drop_intent) 0%nat [] eq_refl))
             Examples.drop_intent Examples.silent_thrower (Error []) 0%nat);
      vm_compute; reflexivity.
  - apply (proj2 (proj2 (routeIntent_reports_what_is_thrown
                    Examples.call_object_prototype Examples.three_executors
                    Examples.delete_intent (Some tt) (Examples.with_fallback (lit "save"))
                    0%nat (Router.Passed Examples.delete_intent) 0%nat [] eq_refl))
             Examples.delete_intent (lit "save") Examples.thrower
             (Error (lit "disk full")) 1%nat);
      try (vm_compute; reflexivity).
    discriminate.
Defined.

Lemma fallback_answers_for_unknown_actions_only_witness :
  Router.routeIntent Examples.call_object_prototype Examples.three_executors
                     Examples.delete_intent (Some tt)
                     (Examples.with_fallback (lit "greet")) 0%nat
  = (Router.respond true (Some (lit "Executed fallback action: greet"))
                    (Some (Examples.Text (lit "Hello, world!"))),
     0%nat, [Router.ExecutorRan (lit "greet")]).
Proof.
  apply (proj1 (fallback_answers_for_unknown_actions_only
                  Examples.call_object_prototype Examples.three_executors
                  Examples.delete_intent (Some tt)
                  (Examples.with_fallback (lit "greet")) 0%nat
                  Examples.delete_intent 0%nat [] eq_refl)
           (lit "greet") Examples.greeter (Examples.Text (lit "Hello, world!")) 0%nat);
    try (vm_compute; reflexivity).
  discriminate.
Defined.


(* ===================================================================== *)
(** * The history in the prompt *)
(* ===================================================================== *)

Lemma slice_from_shown (limit : Z) (history : list Prompt.PromptHistoryItem) :
  Prompt.slice_from (- limit) history = shown_history limit history.
Proof.
  unfold Prompt.slice_from, shown_history.
  destruct (Z.eqb_spec limit 0) as [->|Hne].
  - simpl. rewrite Z.min_l by lia. reflexivity.
  - destruct (Z.ltb_spec 0 limit) as [Hpos|Hneg].
    + destruct (Z.ltb_spec (- limit) 0) as [_|]; [|lia]. f_equal. lia.
    + destruct (Z.ltb_spec (- limit) 0) as [|_]; [lia|].
      destruct (Z.le_ge_cases (- limit) (Z.of_nat (length history))) as [Hle|Hge].
      * rewrite Z.min_l by lia. reflexivity.
      * rewrite Z.min_r by lia. rewrite Nat2Z.id.
        rewrite !drop_ge by lia. reflexivity.
Qed.

(** X9. The history enters the prompt only when the prompt options say
    [includeHistory: true] and the history is not empty. The block
    [Recent history] then stands before the closing instruction and lists
    the last [historyLimit] items, three by default. The limit 0 does not
    switch the block off: [slice(-0)] keeps every item. A negative limit
    drops that many of the oldest items. *)
Theorem prompt_shows_the_last_items_of_the_history
        input context (history : list Prompt.PromptHistoryItem)
        (options : Prompt.PromptTemplateOptions) :
  let without := Prompt.createDefaultIntentPrompt input context None (Some options) in
  let prompt := Prompt.createDefaultIntentPrompt input context (Some history) (Some options) in
  if default false (Prompt.includeHistory options) && negb (bool_decide (history = []))
  then exists body,
         without = body ++ Prompt.closing
         /\ prompt = body
                     ++ Prompt.history_block
                          (shown_history (default 3%Z (Prompt.historyLimit options)) history)
                     ++ Prompt.closing
  else prompt = without.
Proof.
  intros without prompt. subst without prompt.
  unfold Prompt.createDefaultIntentPrompt. cbn [default from_option id].
  destruct (default false (Prompt.includeHistory options)) eqn:Hinc;
    cbn [andb]; [|reflexivity].
  destruct history as [|item history].
  - reflexivity.
  - rewrite bool_decide_eq_false_2 by discriminate.
    cbn [negb andb length Nat.ltb Nat.leb].
    rewrite slice_from_shown.
    eexists. split; [reflexivity|]. rewrite <- app_assoc. reflexivity.
Qed.

Example prompt_history_limits :
  let lines limit :=
    map Prompt.input
        (shown_history (default 3%Z (Prompt.historyLimit (Examples.with_history limit)))
                       Examples.four_items) in
  lines None = [lit "open settings"; lit "sort by date"; lit "export as pdf"]
  /\ lines (Some 1%Z) = [lit "export as pdf"]
  /\ lines (Some 0%Z) = map Prompt.input Examples.four_items
  /\ lines (Some (-3)%Z) = [lit "export as pdf"]
  /\ Prompt.createDefaultIntentPrompt (lit "hello") None (Some Examples.four_items)
       (Some (Examples.with_history (Some 1%Z)))
     = Prompt.preamble ++ lit "hello" ++ litq "`
" ++ litq "
Recent history:
- Input: `export as pdf` " ++ Prompt.arrow ++ litq " Intent: {`action`:`export`}
" ++ Prompt.closing.
Proof. vm_compute. repeat split. Qed.


(* ===================================================================== *)
(** * The rules of the stub provider *)
(* ===================================================================== *)

Section Alternation.
Import Regex.

Lemma match_here_Alt ic r1 r2 prev s :
  match_here ic (Alt r1 r2) prev s =
    match match_here ic r1 prev s with
    | Some rest => Some rest
    | None => match_here ic r2 prev s
    end.
Proof. reflexivity. Qed.

Lemma exec_from_None_Alt ic r1 r2 prev s :
  exec_from ic (Alt r1 r2) prev s = None
  <-> exec_from ic r1 prev s = None /\ exec_from ic r2 prev s = None.
Proof.
  revert prev. induction s as [|x s IH]; intros prev.
  - simpl. rewrite match_here_Alt.
    destruct (match_here ic r1 prev []), (match_here ic r2 prev []);
      split; intros H; try discriminate; try (destruct H; discriminate); auto.
  - cbn [exec_from]. rewrite match_here_Alt.
    destruct (match_here ic r1 prev (x :: s)).
    { split; [discriminate | intros [? _]; discriminate]. }
    destruct (match_here ic r2 prev (x :: s)).
    { split; [discriminate | intros [_ ?]; discriminate]. }
    specialize (IH (Some x)).
    destruct (exec_from ic (Alt r1 r2) (Some x) s) as [[b a]|],
             (exec_from ic r1 (Some x) s) as [[b1 a1]|],
             (exec_from ic r2 (Some x) s) as [[b2 a2]|];
      split; intros H; try discriminate; try (destruct H; discriminate); auto;
      exfalso; destruct IH as [IH1 IH2];
      solve [ destruct (IH1 eq_refl); discriminate | discriminate (IH2 (conj eq_refl eq_refl)) ].
Qed.

(** A pattern with alternatives is found where one of them is. *)
Lemma test_Alt ic r1 r2 s :
  test ic (Alt r1 r2) s = test ic r1 s || test ic r2 s.
Proof.
  unfold test. pose proof (exec_from_None_Alt ic r1 r2 None s) as H.
  destruct (exec_from ic (Alt r1 r2) None s), (exec_from ic r1 None s),
           (exec_from ic r2 None s); try reflexivity; exfalso; destruct H as [H1 H2].
  - discriminate (H2 (conj eq_refl eq_refl)).
  - destruct (H1 eq_refl); discriminate.
  - destruct (H1 eq_refl); discriminate.
  - destruct (H1 eq_refl); discriminate.
Qed.

End Alternation.

(** X10. The rules of the stub are tried in their order, and in
    [/navigate|go|open|show.*dashboard/i] the words [navigate], [go] and
    [open] are alternatives of their own. So a prompt that contains one of
    these words, in any letter case, is answered with the first rule or
    with the dashboard, whatever page it names: the rules for the settings
    and the profile answer only through [show.*settings] and
    [show.*profile]. *)
Theorem navigation_words_lead_to_the_dashboard (input : jsstring) :
  Regex.test true (Regex.Str (lit "navigate")) input
  || Regex.test true (Regex.Str (lit "go")) input
  || Regex.test true (Regex.Str (lit "open")) input = true ->
  LLM.first_match LLM.patternResponses input
  = Some (litq "{`action`:`filter`,`target`:`sales`,`params`:{`dateRange`:`last_month`},`confidence`:0.95}")
  \/ LLM.first_match LLM.patternResponses input
     = Some (litq "{`action`:`navigate`,`target`:`dashboard`,`confidence`:0.95}").
Proof.
  intros Hwords.
  assert (Regex.test true (LLM.navigate_pattern (lit "dashboard")) input = true) as Hnav.
  { unfold LLM.navigate_pattern. cbn [Regex.Alts].
    rewrite !test_Alt.
    apply orb_true_iff in Hwords as [Hwords|Hopen].
    - apply orb_true_iff in Hwords as [Hnavigate|Hgo].
      + rewrite Hnavigate. reflexivity.
      + rewrite Hgo. rewrite orb_true_r. reflexivity.
    - rewrite Hopen. rewrite !orb_true_r. reflexivity. }
  unfold LLM.patternResponses. cbn [LLM.first_match].
  destruct (Regex.test true (LLM.dot_star [lit "show"; lit "sales"; lit "last month"]) input).
  - left. f_equal.
  - right. rewrite Hnav. f_equal.
Qed.

Lemma navigation_words_lead_to_the_dashboard_witness :
  LLM.first_match LLM.patternResponses (mock_prompt (lit "open settings") None)
  = Some (litq "{`action`:`filter`,`target`:`sales`,`params`:{`dateRange`:`last_month`},`confidence`:0.95}")
  \/ LLM.first_match LLM.patternResponses (mock_prompt (lit "open settings") None)
     = Some (litq "{`action`:`navigate`,`target`:`dashboard`,`confidence`:0.95}").
Proof.
  apply (navigation_words_lead_to_the_dashboard (mock_prompt (lit "open settings") None)).
  vm_compute. reflexivity.
Defined.

Example open_settings_goes_to_the_dashboard :
  let run := NLU.parseIntent (Examples.mock_nlu unit) (lit "Open settings") None Examples.w0 in
  Normalizer.normalizeInput (lit "Open settings") = lit "navigate to settings"
  /\ (NLU.result run ≫= NLUTypes.intent)
     = Some (Json.JObj [(lit "action", Json.JStr (lit "navigate"));
                        (lit "target", Json.JStr (lit "dashboard"));
                        (lit "confidence", Json.JNum (JsNum.Fin (JsNum.Dec 95 (-2))))]).
Proof. vm_compute. split; reflexivity. Qed.


(* ===================================================================== *)
(** * The answers of the stub provider as JSON texts *)
(* ===================================================================== *)

Section QuotedStrings.
Import Json.

Lemma hex_value_hex_digit (d : N) :
  (d < 16)%N -> JsNum.hex_value (hex_digit d) = Some (Z.of_N d).
Proof.
  intros Hd. destruct d as [|p]; [reflexivity|].
  repeat (destruct p as [p|p|]; try reflexivity; try (exfalso; lia)).
Qed.

Lemma hex4_unicode_escape (c : N) :
  (c < 65536)%N ->
  hex4 (hex_digit (c / 4096 mod 16)) (hex_digit (c / 256 mod 16))
       (hex_digit (c / 16 mod 16)) (hex_digit (c mod 16)) = Some c.
Proof.
  intros Hc. unfold hex4.
  rewrite !hex_value_hex_digit by (apply N.mod_lt; discriminate).
  f_equal. rewrite !N2Z.inj_mod, !N2Z.inj_div.
  change (Z.of_N 4096) with 4096%Z. change (Z.of_N 256) with 256%Z.
  change (Z.of_N 16) with 16%Z.
  assert (forall z, (0 <= z < 65536)%Z ->
                    (((z / 4096 mod 16 * 16 + z / 256 mod 16) * 16 + z / 16 mod 16) * 16
                     + z mod 16 = z)%Z) as Hz
      by (intros z Hz; Z.div_mod_to_equations; lia).
  rewrite Hz by lia. apply N2Z.id.
Qed.

(** Reading back a quoted string gives the string. *)
Lemma parse_chars_quote_body (s : jsstring) :
  forall paired acc rest,
    parse_chars (quote_body paired s ++ 34%N :: rest) acc = Some (rev acc ++ s, rest).
Proof.
  induction s as [|c s IH]; intros paired acc rest.
  - simpl. rewrite app_nil_r. reflexivity.
  - assert (forall p acc', parse_chars (quote_body p s ++ 34%N :: rest) (acc' :: acc)
                           = Some (rev acc ++ acc' :: s, rest)) as IH'.
    { intros p acc'. rewrite IH. simpl. rewrite <- app_assoc. reflexivity. }
    assert (forall p, (c < 65536)%N ->
               parse_chars ((unicode_escape c ++ quote_body p s) ++ 34%N :: rest) acc
               = Some (rev acc ++ c :: s, rest)) as Hesc.
    { intros p Hc. unfold unicode_escape. simpl.
      rewrite (hex4_unicode_escape c Hc). apply IH'. }
    cbn [quote_body].
    destruct (N.eqb_spec c 34) as [->|H34]; [simpl; apply IH'|].
    destruct (N.eqb_spec c 92) as [->|H92]; [simpl; apply IH'|].
    destruct (N.eqb_spec c 8) as [->|H8]; [simpl; apply IH'|].
    destruct (N.eqb_spec c 12) as [->|H12]; [simpl; apply IH'|].
    destruct (N.eqb_spec c 10) as [->|H10]; [simpl; apply IH'|].
    destruct (N.eqb_spec c 13) as [->|H13]; [simpl; apply IH'|].
    destruct (N.eqb_spec c 9) as [->|H9]; [simpl; apply IH'|].
    assert (forall p, parse_chars ((c :: quote_body p s) ++ 34%N :: rest) acc
                      = (if (c <? 32)%N then None else Some (rev acc ++ c :: s, rest)))
      as Hraw.
    { intros p. simpl.
      destruct (N.eqb_spec c 34) as [|_]; [contradiction|].
      destruct (N.eqb_spec c 92) as [|_]; [contradiction|].
      destruct (c <? 32)%N; [reflexivity | apply IH']. }
    destruct (N.ltb_spec c 32) as [Hlt|Hge].
    { apply Hesc. lia. }
    unfold is_lead, is_trail.
    destruct ((55296 <=? c)%N && (c <=? 56319)%N) eqn:Hlead.
    { apply andb_true_iff in Hlead as [H1 H2].
      apply N.leb_le in H1, H2.
      destruct (match s with [] => false | d :: _ => _ end).
      - apply Hraw.
      - apply Hesc. lia. }
    destruct ((56320 <=? c)%N && (c <=? 57343)%N) eqn:Htrail.
    { apply andb_true_iff in Htrail as [H1 H2].
      apply N.leb_le in H1, H2.
      destruct paired.
      - apply Hraw.
      - apply Hesc. lia. }
    apply Hraw.
Qed.

End QuotedStrings.

Section ParseSteps.
Import Json.

Lemma parse_value_object (fuel : nat) (s1 : jsstring) :
  parse_value (S fuel) (123%N :: s1) =
    match skip_ws s1 with
    | 125%N :: rest => Some (JObj [], rest)
    | _ => parse_members fuel fuel [] s1
    end.
Proof.
  assert (forall n props s,
             (fix members (n : nat) (props : list (jsstring * value))
                  (s : jsstring) : option (value * jsstring) :=
                match n with
                | O => None
                | S n' =>
                    match skip_ws s with
                    | 34%N :: s2 =>
                        match parse_chars s2 [] with
                        | Some (key, s3) =>
                            match skip_ws s3 with
                            | 58%N :: s4 =>
                                match parse_value fuel s4 with
                                | Some (v, s5) =>
                                    let props := set_prop props key v in
                                    match skip_ws s5 with
                                    | 44%N :: s6 => members n' props s6
                                    | 125%N :: rest => Some (JObj props, rest)
                                    | _ => None
                                    end
                                | None => None
                                end
                            | _ => None
                            end
                        | None => None
                        end
                    | _ => None
                    end
                end) n props s = parse_members fuel n props s) as Hloop.
  { induction n as [|n IH]; intros props s; [reflexivity|].
    cbn [parse_members].
    destruct (skip_ws s) as [|c s2]; [reflexivity|].
    destruct c as [|p]; [reflexivity|].
    repeat (destruct p as [p|p|]; try reflexivity).
    destruct (parse_chars s2 []) as [[key s3]|]; [|reflexivity].
    destruct (skip_ws s3) as [|c s4]; [reflexivity|].
    destruct c as [|p]; [reflexivity|].
    repeat (destruct p as [p|p|]; try reflexivity).
    destruct (parse_value fuel s4) as [[v s5]|]; [|reflexivity].
    cbv zeta.
    destruct (skip_ws s5) as [|c s6]; [reflexivity|].
    destruct c as [|p]; [reflexivity|].
    repeat (destruct p as [p|p|]; try reflexivity).
    apply IH. }
  rewrite <- Hloop. reflexivity.
Qed.

End ParseSteps.

Section FallbackRoundTrip.
Import Json.

Lemma parse_value_quoted (fuel : nat) (s rest : jsstring) :
  parse_value (S fuel) (quote_string s ++ rest) = Some (JStr s, rest).
Proof.
  unfold quote_string. rewrite <- !app_assoc.
  change ([34%N] ++ quote_body false s ++ [34%N] ++ rest)
    with (34%N :: (quote_body false s ++ 34%N :: rest)).
  change (parse_value (S fuel) (34%N :: (quote_body false s ++ 34%N :: rest)))
    with (match parse_chars (quote_body false s ++ 34%N :: rest) [] with
          | Some (str, rest) => Some (JStr str, rest)
          | None => None
          end).
  rewrite parse_chars_quote_body. reflexivity.
Qed.

Lemma parse_members_quoted (fuel n : nat) props (key s4 : jsstring) :
  parse_members fuel (S n) props (quote_string key ++ 58%N :: s4) =
    match parse_value fuel s4 with
    | Some (v, s5) =>
        match skip_ws s5 with
        | 44%N :: s6 => parse_members fuel n (set_prop props key v) s6
        | 125%N :: rest => Some (JObj (set_prop props key v), rest)
        | _ => None
        end
    | None => None
    end.
Proof.
  unfold quote_string. rewrite <- !app_assoc.
  change ([34%N] ++ quote_body false key ++ [34%N] ++ 58%N :: s4)
    with (34%N :: (quote_body false key ++ 34%N :: 58%N :: s4)).
  cbn [parse_members].
  change (skip_ws (34%N :: (quote_body false key ++ 34%N :: 58%N :: s4)))
    with (34%N :: (quote_body false key ++ 34%N :: 58%N :: s4)).
  cbv beta iota.
  rewrite parse_chars_quote_body. reflexivity.
Qed.

Lemma parse_object_quoted (fuel : nat) (key rest : jsstring) :
  parse_value (S fuel) (123%N :: quote_string key ++ rest)
  = parse_members fuel fuel [] (quote_string key ++ rest).
Proof. rewrite parse_value_object. reflexivity. Qed.

Lemma fallback_members (input : jsstring) :
  stringify (LLM.fallback input)
  = 123%N :: quote_string (lit "action") ++ 58%N
      :: quote_string (lit "unknown") ++ 44%N
      :: quote_string (lit "params") ++ 58%N
      :: 123%N :: quote_string (lit "rawInput") ++ 58%N
      :: quote_string input ++ 125%N :: 44%N
      :: quote_string (lit "confidence") ++ 58%N :: lit "0.4}".
Proof.
  unfold stringify, LLM.fallback, LLM.str, LLM.num.
  cbn [serialize map fst snd JsString.join].
  change (JsNum.to_string (JsNum.Fin {| JsNum.mant := 4; JsNum.dexp := -1 |}))
    with (lit "0.4").
  generalize (quote_string (lit "action")) (quote_string (lit "unknown"))
             (quote_string (lit "params")) (quote_string (lit "rawInput"))
             (quote_string input) (quote_string (lit "confidence")).
  intros a b c d e f.
  change (lit "{") with [123%N]. change (lit "}") with [125%N].
  change (lit ":") with [58%N]. change (lit ",") with [44%N].
  change (lit "0.4}") with (lit "0.4" ++ [125%N]).
  generalize (lit "0.4"). intros g.
  rewrite <- !app_assoc. reflexivity.
Qed.

(** The fallback answer of the stub, read back by [JSON.parse], is the
    fallback object, whatever the prompt holds. *)
Lemma parse_fallback (input : jsstring) :
  parse (stringify (LLM.fallback input)) = Returned (LLM.fallback input).
Proof.
  unfold parse. rewrite fallback_members.
  set (text := quote_string (lit "action") ++ _).
  set (fuel := length (123%N :: text)).
  assert (exists n, fuel = S (S (S (S n)))) as [n ->].
  { subst fuel text. cbn [length]. unfold quote_string at 1.
    rewrite !length_app. cbn [length Nat.add]. eexists. reflexivity. }
  subst text.
  rewrite parse_object_quoted.
  rewrite parse_members_quoted, parse_value_quoted.
  change (skip_ws (44%N :: ?s)) with (44%N :: s). cbv beta iota.
  rewrite parse_members_quoted.
  rewrite parse_object_quoted.
  rewrite parse_members_quoted, parse_value_quoted.
  cbn [skip_ws is_ws N.eqb Pos.eqb orb].
  rewrite parse_members_quoted.
  reflexivity.
Qed.

End FallbackRoundTrip.

Lemma first_match_in rules input response :
  LLM.first_match rules input = Some response -> In response (map snd rules).
Proof.
  induction rules as [|[pattern r] rules IH]; simpl; [discriminate|].
  destruct (Regex.test true pattern input).
  - intros [= ->]. left. reflexivity.
  - intros H. right. apply IH. exact H.
Qed.

(** X11. Every answer of the stub is a JSON text that [parseIntent] decodes
    to an intent: [generate] never rejects and never reports an error, it
    takes 300 ms, and its content is one of the canned answers or, when no
    pattern matches the prompt, the fallback intent, which is read back as
    it was written whatever characters the prompt holds. At the default
    threshold exactly the fallback is below the minimum confidence. *)
Theorem stub_answers_always_decode (E : Type) (options : LLM.LLMProviderOptions)
        (request : LLM.LLMRequest) (w : World E) :
  exists response intent,
    LLM.generate (LLM.MockProvider options) request w
    = (Returned response, sleep 300 w)
    /\ NLU.has_error response = false
    /\ NLU.decode (LLM.content response) = NLU.Intent intent
    /\ match LLM.first_match LLM.patternResponses (LLM.prompt request) with
       | Some canned =>
           LLM.content response = canned
           /\ NLU.low_confidence intent (JsNum.Fin (JsNum.Dec 6 (-1))) = false
       | None =>
           intent = LLM.fallback (LLM.prompt request)
           /\ NLU.low_confidence intent (JsNum.Fin (JsNum.Dec 6 (-1))) = true
       end.
Proof.
  cbn [LLM.generate LLM.MockProvider]. unfold LLM.MockProvider_generate.
  destruct (LLM.first_match LLM.patternResponses (LLM.prompt request))
    as [canned|] eqn:Hfirst.
  - pose proof canned_responses_accepted as Hacc.
    rewrite forallb_forall in Hacc.
    specialize (Hacc canned (first_match_in _ _ _ Hfirst)).
    unfold accepted in Hacc.
    destruct (NLU.decode canned) as [intent| |] eqn:Hd; try discriminate.
    apply negb_true_iff in Hacc.
    eexists _, intent. split; [reflexivity|]. split; [reflexivity|].
    cbn [LLM.content]. split; [exact Hd|]. split; [reflexivity | exact Hacc].
  - eexists _, (LLM.fallback (LLM.prompt request)).
    split; [reflexivity|]. split; [reflexivity|].
    cbn [LLM.content]. split; [|split; reflexivity].
    unfold NLU.decode. rewrite parse_fallback. reflexivity.
Qed.


(* ===================================================================== *)
(** * The normalizer and the check for sensitive content *)
(* ===================================================================== *)

Section Blank.

Lemma trim_start_blank (s : jsstring) :
  forallb is_space s = true -> trim_start s = [].
Proof.
  induction s as [|c s IH]; simpl; [reflexivity|].
  intros H. apply andb_true_iff in H as [Hc Hs]. rewrite Hc. apply IH. exact Hs.
Qed.

(** X12. An input that is empty or consists of white space only is
    normalized to the empty string. *)
Theorem normalizeInput_of_blank_input (input : jsstring) :
  forallb is_space input = true -> Normalizer.normalizeInput input = [].
Proof.
  intros Hblank. unfold Normalizer.normalizeInput.
  destruct (negb (truthy input)); [reflexivity|].
  unfold trim. rewrite (trim_start_blank input Hblank). reflexivity.
Qed.

End Blank.

Lemma normalizeInput_of_blank_input_witness :
  Normalizer.normalizeInput [32; 9; 10; 160; 32]%N = [].
Proof.
  apply (normalizeInput_of_blank_input [32; 9; 10; 160; 32]%N). reflexivity.
Defined.

Section Finding.
Import Regex.

Lemma last_or_cons prev x before :
  last_or prev (x :: before) = last_or (Some x) before.
Proof.
  unfold last_or. destruct before as [|y before]; [reflexivity|].
  change (last (x :: y :: before)) with (last (y :: before)).
  destruct (last (y :: before)) eqn:Hl; [reflexivity|].
  apply last_None in Hl. discriminate.
Qed.

(** A match that starts after [before] is found by [exec], when the
    pattern matches there with [before] in front of it. *)
Lemma exec_from_finds_after ic r (before s : jsstring) (prev : option N) :
  match_here ic r (last_or prev before) s <> None ->
  exec_from ic r prev (before ++ s) <> None.
Proof.
  revert prev. induction before as [|x before IH]; intros prev Hs.
  - change (last_or prev []) with prev in Hs. simpl.
    destruct s as [|y s']; simpl;
      (destruct (match_here ic r prev _) eqn:Hm; [discriminate | congruence]).
  - rewrite last_or_cons in Hs. simpl.
    destruct (match_here ic r prev (x :: before ++ s)); [discriminate|].
    specialize (IH (Some x) Hs).
    destruct (exec_from ic r (Some x) (before ++ s)) as [[b a]|];
      [discriminate | congruence].
Qed.

(** A literal pattern matches a text with the same letters. *)
Lemma rmatch_Str ic (phrase w rest : jsstring) prev k :
  Forall2 (fun c x => chr_eq ic c x = true) phrase w ->
  rmatch ic (Str phrase) prev (w ++ rest) k = k (last_or prev w) rest.
Proof.
  intros Hsame. revert prev. induction Hsame as [|c x phrase w Hcx Hsame IH]; intros prev.
  - reflexivity.
  - rewrite last_or_cons.
    destruct phrase as [|c' phrase].
    + inversion Hsame; subst. simpl. rewrite Hcx. reflexivity.
    + change (Str (c :: c' :: phrase)) with (Seq (Chr c) (Str (c' :: phrase))).
      cbn [rmatch app]. rewrite Hcx. apply IH.
Qed.

(** One alternative that matches is enough. *)
Lemma rmatch_Alts ic (rs : list regex) r prev s k :
  In r rs -> rmatch ic r prev s k <> None -> rmatch ic (Alts rs) prev s k <> None.
Proof.
  intros Hin Hr. induction rs as [|r1 rs IH]; [contradiction|].
  destruct rs as [|r2 rs].
  - destruct Hin as [->|[]]. exact Hr.
  - change (Alts (r1 :: r2 :: rs)) with (Alt r1 (Alts (r2 :: rs))).
    cbn [rmatch].
    destruct (rmatch ic r1 prev s k) eqn:H1; [discriminate|].
    destruct Hin as [->|Hin]; [congruence|]. apply IH. exact Hin.
Qed.

End Finding.

Section Sensitive.
Import Regex.

(** X13. The check for sensitive content does not miss a phrase of its
    list that stands as a whole word: when the input contains [password],
    [credit card], [social security], [ssn] or [private key], in any
    letter case, with no word character directly before or after it, the
    input is flagged, whatever else it holds. *)
Theorem sensitive_phrases_are_flagged (before w after phrase : jsstring) :
  In phrase [lit "password"; lit "credit card"; lit "social security";
             lit "ssn"; lit "private key"] ->
  same_letters phrase w ->
  is_word_at (last before) = false ->
  is_word_at (head after) = false ->
  Normalizer.hasSensitiveContent (before ++ w ++ after) = true.
Proof.
  intros Hphrase Hsame Hbefore Hafter.
  assert (is_word_at (head w) = true /\ is_word_at (last w) = true
          /\ is_word_at (head (w ++ after)) = true) as (Hhead & Hlast & Hhead').
  { assert (forall c x, chr_eq true c x = true -> is_lower c = true -> is_word x = true)
      as Hletter.
    { intros c x Hcx Hc. unfold chr_eq, canon in Hcx. rewrite Hc in Hcx.
      unfold is_word, is_upper, is_lower, is_digit in *.
      apply andb_true_iff in Hc as [Hc1 Hc2].
      apply N.leb_le in Hc1, Hc2. apply N.eqb_eq in Hcx.
      destruct ((97 <=? x)%N && (x <=? 122)%N) eqn:Hx.
      - rewrite orb_true_r. reflexivity.
      - assert (x = c - 32)%N as -> by lia.
        assert ((65 <=? c - 32)%N && (c - 32 <=? 90)%N = true) as ->
            by (apply andb_true_iff; split; apply N.leb_le; lia).
        reflexivity. }
    unfold same_letters in Hsame.
    assert (forall c, head phrase = Some c -> is_lower c = true) as Hfirst.
    { cbn [In] in Hphrase.
      destruct Hphrase as [<-|[<-|[<-|[<-|[<-|[]]]]]]; intros c [= <-]; reflexivity. }
    assert (forall c, last phrase = Some c -> is_lower c = true) as Hend.
    { cbn [In] in Hphrase.
      destruct Hphrase as [<-|[<-|[<-|[<-|[<-|[]]]]]]; intros c [= <-]; reflexivity. }
    assert (phrase <> []) as Hne.
    { cbn [In] in Hphrase.
      destruct Hphrase as [<-|[<-|[<-|[<-|[<-|[]]]]]]; discriminate. }
    assert (is_word_at (head w) = true) as Hh.
    { destruct Hsame as [|c x phrase w Hcx _]; [congruence|].
      simpl. eapply Hletter; [exact Hcx|]. apply Hfirst. reflexivity. }
    split; [exact Hh|]. split.
    - clear Hfirst Hh Hphrase. induction Hsame as [|c x phrase w Hcx Hsame IH]; [congruence|].
      destruct Hsame as [|c' x' phrase w Hcx' Hsame].
      + simpl. eapply Hletter; [exact Hcx|]. apply Hend. reflexivity.
      + change (last (x :: x' :: w)) with (last (x' :: w)).
        apply IH; [|discriminate].
        intros c0 H0. apply Hend. exact H0.
    - destruct w; [simpl in Hh; discriminate | exact Hh]. }
  unfold Normalizer.hasSensitiveContent, Normalizer.sensitivePatterns.
  cbn [existsb]. rewrite orb_false_r.
  unfold test.
  match goal with
  | |- match exec_from true ?r None _ with _ => _ end = true =>
      pose proof (exec_from_finds_after true r before (w ++ after) None) as Hfind
  end.
  match type of Hfind with
  | ?P -> _ => assert P as Hhere
  end.
  { unfold match_here. cbn [rmatch].
    assert (is_word_at (last_or None before) = false) as Hprev.
    { unfold last_or. destruct (last before); [exact Hbefore | reflexivity]. }
    rewrite Hprev, Hhead'. cbn [xorb].
    apply rmatch_Alts with (r := Str phrase).
    - cbn [In] in Hphrase |- *.
      destruct Hphrase as [<-|[<-|[<-|[<-|[<-|[]]]]]]; auto 10.
    - rewrite (rmatch_Str true phrase w after _ _ Hsame).
      cbn [rmatch].
      assert (is_word_at (last_or (last_or None before) w) = true) as Hw.
      { unfold last_or at 1. destruct (last w); [exact Hlast | discriminate Hlast]. }
      rewrite Hw, Hafter. discriminate. }
  specialize (Hfind Hhere).
  destruct (exec_from true _ None (before ++ w ++ after)); [reflexivity | congruence].
Qed.

End Sensitive.

Lemma sensitive_phrases_are_flagged_witness :
  Normalizer.hasSensitiveContent (lit "my " ++ lit "Credit CARD" ++ lit ", please") = true.
Proof.
  apply (sensitive_phrases_are_flagged (lit "my ") (lit "Credit CARD") (lit ", please")
           (lit "credit card")).
  - right. left. reflexivity.
  - repeat constructor.
  - reflexivity.
  - reflexivity.
Defined.


(* ===================================================================== *)
(** * What the matcher finds *)
(* ===================================================================== *)

Section MatcherSound.
Import Regex.

(** The matcher hands to its continuation only positions that the pattern
    reaches. *)
Lemma rmatch_sound ic r :
  forall prev s k out,
    rmatch ic r prev s k = Some out ->
    exists prev' s', Matches ic r prev s prev' s' /\ k prev' s' = Some out.
Proof.
  induction r as [| c | | | | | r1 IH1 r2 IH2 | r1 IH1 r2 IH2 | r IH];
    intros prev s k out; cbn [rmatch].
  - intros H. eexists _, _. split; [constructor | exact H].
  - destruct s as [|x s]; [discriminate|].
    destruct (chr_eq ic c x) eqn:Hc; [|discriminate].
    intros H. eexists _, _. split; [constructor; exact Hc | exact H].
  - destruct s as [|x s]; [discriminate|].
    destruct (is_line_terminator x) eqn:Hx; [discriminate|].
    intros H. eexists _, _. split; [constructor; exact Hx | exact H].
  - destruct s as [|x s]; [discriminate|].
    destruct (is_space x) eqn:Hx; [|discriminate].
    intros H. eexists _, _. split; [constructor; exact Hx | exact H].
  - destruct (xorb _ _) eqn:Hx; [|discriminate].
    intros H. eexists _, _. split; [constructor; exact Hx | exact H].
  - destruct prev; [discriminate|].
    intros H. eexists _, _. split; [constructor | exact H].
  - intros H. apply IH1 in H as (p1 & s1 & H1 & H).
    apply IH2 in H as (p2 & s2 & H2 & H).
    eexists _, _. split; [econstructor; eassumption | exact H].
  - destruct (rmatch ic r1 prev s k) eqn:H1.
    + intros [= ->]. apply IH1 in H1 as (p1 & s1 & H1 & H).
      eexists _, _. split; [apply Matches_Alt_l; eassumption | exact H].
    + intros H. apply IH2 in H as (p2 & s2 & H2 & H).
      eexists _, _. split; [apply Matches_Alt_r; eassumption | exact H].
  - generalize (length s) as n. intros n. revert prev s.
    induction n as [|n IHn]; intros prev s.
    + intros H. eexists _, _. split; [apply Matches_Star_stop | exact H].
    + match goal with
      | |- context [rmatch ic r prev s ?k1] => destruct (rmatch ic r prev s k1) eqn:H1
      end.
      * intros [= ->]. apply IH in H1 as (p1 & s1 & H1 & H).
        destruct (Nat.ltb_spec (length s1) (length s)) as [Hlt|]; [|discriminate].
        apply IHn in H as (p2 & s2 & H2 & H).
        eexists _, _. split; [eapply Matches_Star_more; eassumption | exact H].
      * intros H. eexists _, _. split; [apply Matches_Star_stop | exact H].
Qed.

Lemma match_here_sound ic r prev s rest :
  match_here ic r prev s = Some rest -> exists prev', Matches ic r prev s prev' rest.
Proof.
  intros H. apply rmatch_sound in H as (p & s' & Hm & [= ->]). eauto.
Qed.

(** What a match has consumed stands in front of the rest. *)
Lemma Matches_consumed ic r prev s prev' s' :
  Matches ic r prev s prev' s' ->
  exists m, s = m ++ s' /\ prev' = last_or prev m.
Proof.
  induction 1 as [prev s | c x prev s Hc | x prev s Hx | x prev s Hx | prev s Hx | s
                  | r1 r2 prev s p1 s1 p2 s2 _ IH1 _ IH2
                  | r1 r2 prev s p1 s1 _ IH | r1 r2 prev s p2 s2 _ IH
                  | r prev s | r prev s p1 s1 p2 s2 _ IH1 _ _ IH2];
    try (exists []; split; reflexivity);
    try (exists [x]; split; reflexivity);
    try exact IH.
  - destruct IH1 as (m1 & -> & ->). destruct IH2 as (m2 & -> & ->).
    exists (m1 ++ m2). split; [rewrite app_assoc; reflexivity|].
    unfold last_or. rewrite last_app. destruct (last m2); reflexivity.
  - destruct IH1 as (m1 & -> & ->). destruct IH2 as (m2 & -> & ->).
    exists (m1 ++ m2). split; [rewrite app_assoc; reflexivity|].
    unfold last_or. rewrite last_app. destruct (last m2); reflexivity.
Qed.

End MatcherSound.


(* ===================================================================== *)
(** * The white space of a normalized input *)
(* ===================================================================== *)

Section Trimmed.

Lemma trim_start_begins (s : jsstring) : begins_with_text (trim_start s).
Proof.
  induction s as [|c s IH]; simpl; [exact I|].
  destruct (is_space c) eqn:Hc; [exact IH | exact Hc].
Qed.

Lemma trim_start_snoc (a : jsstring) (x : N) :
  is_space x = false -> exists a', trim_start (a ++ [x]) = a' ++ [x].
Proof.
  intros Hx. induction a as [|c a IH]; simpl.
  - rewrite Hx. exists []. reflexivity.
  - destruct (is_space c); [exact IH|]. exists (c :: a). reflexivity.
Qed.

Lemma trim_start_ends (s : jsstring) :
  ends_with_text s -> ends_with_text (trim_start s).
Proof.
  unfold ends_with_text. destruct s as [|c s] using rev_ind; [intros _; exact I|].
  rewrite last_snoc. intros Hx.
  destruct (trim_start_snoc s c Hx) as [a' ->]. rewrite last_snoc. exact Hx.
Qed.

Lemma trim_begins_and_ends (s : jsstring) :
  begins_with_text (trim s) /\ ends_with_text (trim s).
Proof.
  unfold trim, trim_end.
  pose proof (trim_start_begins s) as Hb.
  pose proof (trim_start_begins (rev (trim_start s))) as He.
  destruct (trim_start s) as [|x t].
  - simpl. split; exact I.
  - simpl in Hb. split.
    + cbn [rev]. destruct (trim_start_snoc (rev t) x Hb) as [a' ->].
      rewrite rev_app_distr. exact Hb.
    + unfold ends_with_text.
      destruct (trim_start (rev (x :: t))) as [|y u]; [exact I|].
      cbn [rev]. rewrite last_snoc. exact He.
Qed.

End Trimmed.

Section Collapse.
Import Regex.

(** [\s*] takes all the white space that follows. *)
Lemma star_space_rest ic prev (s : jsstring) :
  rmatch ic (Star Space) prev s (fun _ rest => Some rest) = Some (trim_start s).
Proof.
  cbn [rmatch].
  assert (length s <= length s)%nat as Hn by lia.
  revert Hn. generalize (length s) at 2 3 as n. intros n. revert prev s.
  induction n as [|n IH]; intros prev s Hn.
  - destruct s; [reflexivity | simpl in Hn; lia].
  - destruct s as [|x s]; [reflexivity|].
    cbn [rmatch trim_start]. destruct (is_space x); [|reflexivity].
    cbn [length].
    destruct (Nat.ltb_spec (length s) (S (length s))) as [_|]; [|lia].
    rewrite IH by (simpl in Hn; lia). reflexivity.
Qed.

Lemma match_here_spaces ic prev (s : jsstring) :
  match_here ic Normalizer.multiple_spaces prev s =
    match s with
    | x :: s' => if is_space x then Some (trim_start s') else None
    | [] => None
    end.
Proof.
  unfold match_here, Normalizer.multiple_spaces, Plus.
  change (rmatch ic (Seq Space (Star Space)) prev s (fun _ rest => Some rest))
    with (rmatch ic Space prev s
            (fun p s' => rmatch ic (Star Space) p s' (fun _ rest => Some rest))).
  destruct s as [|x s]; [reflexivity|].
  change (rmatch ic Space prev (x :: s)
            (fun p s' => rmatch ic (Star Space) p s' (fun _ rest => Some rest)))
    with (if is_space x
          then rmatch ic (Star Space) (Some x) s (fun _ rest => Some rest)
          else None).
  destruct (is_space x); [apply star_space_rest | reflexivity].
Qed.

Lemma trim_start_length (s : jsstring) : (length (trim_start s) <= length s)%nat.
Proof.
  induction s as [|c s IH]; simpl; [lia|]. destruct (is_space c); simpl; lia.
Qed.

(** Skipping the white space at the start of [s] leaves the search at the
    text that follows it. *)
Lemma skip_leading_spaces ic r repl (s : jsstring) prev :
  exists prev',
    replace_all_from ic r repl prev s (length s - length (trim_start s))
    = replace_all_from ic r repl prev' (trim_start s) 0.
Proof.
  revert prev. induction s as [|x s IH]; intros prev.
  - exists prev. reflexivity.
  - cbn [trim_start]. destruct (is_space x).
    + pose proof (trim_start_length s) as Hl.
      replace (length (x :: s) - length (trim_start s))%nat
        with (S (length s - length (trim_start s))) by (simpl; lia).
      cbn [replace_all_from]. apply IH.
    + rewrite Nat.sub_diag. exists prev. reflexivity.
Qed.

(** [replace(/\s+/g, ' ')] on a text that does not end with white space
    leaves single spaces between the other characters. *)
Lemma collapse_spaced (n : nat) :
  forall (s : jsstring) prev,
    (length s <= n)%nat ->
    ends_with_text s ->
    let collapsed := replace_all_from false Normalizer.multiple_spaces (lit " ") prev s 0 in
    spaced true collapsed = true
    /\ (s <> [] -> begins_with_text s ->
        spaced false collapsed = true /\ collapsed <> []).
Proof.
  induction n as [|n IH]; intros s prev Hn Hends collapsed; subst collapsed.
  - destruct s; [|simpl in Hn; lia]. split; [reflexivity | congruence].
  - destruct s as [|x s]; [split; [reflexivity | congruence]|].
    cbn [replace_all_from]. rewrite match_here_spaces.
    assert (ends_with_text s \/ s = [] /\ is_space x = false) as Htail.
    { unfold ends_with_text in Hends |- *. destruct s as [|y s]; [right; auto|].
      left. exact Hends. }
    destruct (is_space x) eqn:Hx.
    + destruct Htail as [Htail|[_ ?]]; [|discriminate].
      assert (s <> []) as Hs.
      { intros ->. unfold ends_with_text in Hends. simpl in Hends. congruence. }
      pose proof (trim_start_length s) as Hl.
      replace (length (x :: s) - length (trim_start s))%nat
        with (S (length s - length (trim_start s))) by (simpl; lia).
      destruct (skip_leading_spaces false Normalizer.multiple_spaces (lit " ") s (Some x))
        as [prev' ->].
      pose proof (trim_start_ends s Htail) as Hends'.
      pose proof (trim_start_begins s) as Hbegins'.
      assert (trim_start s <> []) as Hne.
      { destruct s as [|y s] using rev_ind; [congruence|].
        unfold ends_with_text in Htail. rewrite last_snoc in Htail.
        destruct (trim_start_snoc s y Htail) as [a' ->]. destruct a'; discriminate. }
      destruct (IH (trim_start s) prev' ltac:(simpl in Hn; lia) Hends')
        as [_ Hfalse].
      destruct (Hfalse Hne Hbegins') as [Hspaced _].
      split.
      * change (spaced true
                  (32%N :: replace_all_from false Normalizer.multiple_spaces (lit " ")
                             prev' (trim_start s) 0) = true).
        cbn [spaced]. change (is_space 32) with true. change (32 =? 32)%N with true.
        exact Hspaced.
      * intros _ Hb. simpl in Hb. congruence.
    + assert (ends_with_text s) as Htail'.
      { destruct Htail as [?|[-> _]]; [assumption | exact I]. }
      destruct (IH s (Some x) ltac:(simpl in Hn; lia) Htail') as [Htrue _].
      split.
      * cbn [spaced]. rewrite Hx. exact Htrue.
      * intros _ _. cbn [spaced]. rewrite Hx. split; [exact Htrue | discriminate].
Qed.

Lemma tidy_after_collapse (input : jsstring) :
  tidy (replace_all false Normalizer.multiple_spaces (lit " ") (trim input)) = true.
Proof.
  destruct (trim_begins_and_ends input) as [Hb He].
  unfold replace_all.
  destruct (collapse_spaced (length (trim input)) (trim input) None (le_n _) He)
    as [_ Hfalse].
  destruct (trim input) as [|x s] eqn:Ht; [reflexivity|].
  destruct (Hfalse ltac:(discriminate) Hb) as [Hspaced Hne].
  unfold tidy.
  destruct (replace_all_from _ _ _ _ _ _); [congruence | exact Hspaced].
Qed.

End Collapse.

Section Prefixes.
Import Regex.

(** A pattern that begins with [^] matches at the start of the subject
    only. *)
Lemma exec_from_Bol ic r x (s : jsstring) :
  exec_from ic (Seq Bol r) (Some x) s = None.
Proof.
  revert x. induction s as [|y s IH]; intros x; [reflexivity|].
  cbn [exec_from]. change (match_here ic (Seq Bol r) (Some x) (y :: s)) with (@None jsstring).
  rewrite IH. reflexivity.
Qed.

Lemma exec_from_Bol_start ic r (s : jsstring) :
  exec_from ic (Seq Bol r) None s =
    match match_here ic (Seq Bol r) None s with
    | Some rest => Some ([], rest)
    | None => None
    end.
Proof.
  destruct s as [|x s]; cbn [exec_from];
    destruct (match_here ic (Seq Bol r) None _); try reflexivity.
  rewrite exec_from_Bol. reflexivity.
Qed.

Lemma Matches_star_space ic prev (s : jsstring) prev' s' :
  Matches ic (Star Space) prev s prev' s' ->
  (exists c, prev = Some c /\ is_space c = true) ->
  exists c, prev' = Some c /\ is_space c = true.
Proof.
  intros H. remember (Star Space) as r eqn:Hr.
  induction H as [ | | | | | | | | | r0 prev s
                   | r0 prev s p1 s1 p2 s2 H1 _ Hlt _ IH2]; try discriminate.
  - auto.
  - injection Hr as ->. intros _. apply IH2; [reflexivity|].
    inversion H1; subst. eauto.
Qed.

(** What a pattern of the form [^...\s+] has matched ends with white
    space. *)
Lemma match_here_ends_with_space ic r (s rest : jsstring) :
  match_here ic (Seq Bol (Seq r (Plus Space))) None s = Some rest ->
  exists m c, s = m ++ rest /\ last m = Some c /\ is_space c = true.
Proof.
  intros H. apply match_here_sound in H as [prev' H].
  inversion H as [ | | | | | | r1 r2 p s0 p1 s1 p2 s2 Hbol Hrest | | | | ]; subst.
  inversion Hbol; subst.
  inversion Hrest as [ | | | | | | r1 r2 p s0 p1 s1' p2 s2 Hr Hspaces | | | | ]; subst.
  unfold Plus in Hspaces.
  inversion Hspaces as [ | | | | | | r1 r2 p s0 p3 s3 p2 s2 Hone Hmore | | | | ]; subst.
  inversion Hone; subst.
  destruct (Matches_consumed _ _ _ _ _ _ Hr) as (m1 & -> & _).
  destruct (Matches_consumed _ _ _ _ _ _ Hmore) as (m3 & -> & Hlast).
  destruct (Matches_star_space _ _ _ _ _ Hmore) as (c & -> & Hc); [eauto|].
  exists (m1 ++ x :: m3), c. split; [rewrite <- app_assoc; reflexivity|].
  split; [|exact Hc].
  rewrite last_app. unfold last_or in Hlast.
  destruct m3 as [|y m3].
  - simpl in Hlast |- *. congruence.
  - change (last (x :: y :: m3)) with (last (y :: m3)).
    destruct (last (y :: m3)) eqn:Hl; [congruence|].
    apply last_None in Hl. discriminate.
Qed.

Lemma spaced_after_space (m rest : jsstring) (b : bool) (c : N) :
  spaced b (m ++ rest) = true -> last m = Some c -> is_space c = true ->
  spaced false rest = true.
Proof.
  revert b. induction m as [|y m IH]; intros b Hsp Hlast Hc; [discriminate|].
  destruct m as [|z m].
  - injection Hlast as ->. cbn [app spaced] in Hsp. rewrite Hc in Hsp.
    apply andb_true_iff in Hsp as [_ Hsp]. exact Hsp.
  - change (last (y :: z :: m)) with (last (z :: m)) in Hlast.
    change ((y :: z :: m) ++ rest) with (y :: ((z :: m) ++ rest)) in Hsp.
    cbn [spaced] in Hsp. destruct (is_space y).
    + apply andb_true_iff in Hsp as [_ Hsp]. eapply IH; eassumption.
    + eapply IH; eassumption.
Qed.

(** Replacing what a pattern [^...\s+] has matched, in a tidy text,
    leaves the replacement followed by a text that begins with a
    character that is not white space. *)
Lemma replace_prefix ic r repl (s : jsstring) :
  tidy s = true ->
  replace ic (Seq Bol (Seq r (Plus Space))) repl s = s
  \/ exists rest,
       replace ic (Seq Bol (Seq r (Plus Space))) repl s = repl ++ rest
       /\ spaced false rest = true.
Proof.
  intros Htidy. unfold replace. rewrite exec_from_Bol_start.
  destruct (match_here ic _ None s) as [rest|] eqn:Hm; [|left; reflexivity].
  right. exists rest. split; [reflexivity|].
  destruct (match_here_ends_with_space _ _ _ _ Hm) as (m & c & -> & Hlast & Hc).
  unfold tidy in Htidy.
  destruct (m ++ rest) as [|y t] eqn:Hmr.
  - destruct m; discriminate.
  - rewrite <- Hmr in Htidy. eapply spaced_after_space; eassumption.
Qed.

End Prefixes.

Section Words.
Import Regex.

Lemma Matches_Str ic (phrase : jsstring) :
  forall prev s prev' s',
    Matches ic (Str phrase) prev s prev' s' ->
    exists m, s = m ++ s' /\ Forall2 (fun c x => chr_eq ic c x = true) phrase m.
Proof.
  induction phrase as [|c phrase IH]; intros prev s prev' s' H.
  - inversion H; subst. exists []. split; [reflexivity | constructor].
  - destruct phrase as [|c' phrase].
    + inversion H; subst. exists [x]. split; [reflexivity|].
      constructor; [assumption | constructor].
    + change (Str (c :: c' :: phrase)) with (Seq (Chr c) (Str (c' :: phrase))) in H.
      inversion H as [ | | | | | | r1 r2 p s0 p1 s1 p2 s2 Hc Hrest | | | | ]; subst.
      inversion Hc; subst.
      destruct (IH _ _ _ _ Hrest) as (m & -> & Hm).
      exists (x :: m). split; [reflexivity|]. constructor; assumption.
Qed.

(** A letter of a pattern matches letters only. *)
Lemma letter_matches_no_space (c x : N) :
  is_lower c = true -> chr_eq true c x = true -> is_space x = false.
Proof.
  intros Hc Hcx. unfold chr_eq, canon in Hcx. rewrite Hc in Hcx.
  unfold is_lower in *. apply andb_true_iff in Hc as [Hc1 Hc2].
  apply N.leb_le in Hc1, Hc2. apply N.eqb_eq in Hcx.
  assert ((65 <= x <= 90)%N \/ (97 <= x <= 122)%N) as Hx.
  { destruct ((97 <=? x)%N && (x <=? 122)%N) eqn:Hl.
    - apply andb_true_iff in Hl as [H1 H2]. apply N.leb_le in H1, H2. lia.
    - lia. }
  unfold is_space.
  repeat match goal with
         | |- context [(?a <=? ?b)%N] => destruct (N.leb_spec a b)
         | |- context [(?a =? ?b)%N] => destruct (N.eqb_spec a b)
         end; try reflexivity; lia.
Qed.

(** What the pattern of a typo has matched is the typo, up to the case of
    its letters. *)
Lemma match_here_typo (typo : jsstring) prev (s rest : jsstring) :
  match_here true (Normalizer.typo_regExp typo) prev s = Some rest ->
  exists m, s = m ++ rest /\ same_letters typo m.
Proof.
  intros H. apply match_here_sound in H as [prev' H].
  unfold Normalizer.typo_regExp in H.
  inversion H as [ | | | | | | r1 r2 p s0 p1 s1 p2 s2 Hb1 Hrest | | | | ]; subst.
  inversion Hb1; subst.
  inversion Hrest as [ | | | | | | r3 r4 q t0 q1 t1 q2 t2 Hstr Hb2 | | | | ]; subst.
  inversion Hb2; subst.
  exact (Matches_Str _ _ _ _ _ _ Hstr).
Qed.

Lemma spaced_word_app (m rest : jsstring) (b : bool) :
  Forall (fun c => is_space c = false) m -> m <> [] ->
  spaced b (m ++ rest) = spaced true rest.
Proof.
  intros Hm. revert b. induction Hm as [|c m Hc Hm IH]; intros b Hne; [congruence|].
  cbn [app spaced]. rewrite Hc.
  destruct m as [|c' m]; [reflexivity|]. apply IH. discriminate.
Qed.

Lemma skip_matched ic r repl (n : nat) :
  forall (s : jsstring) prev,
    (n <= length s)%nat ->
    exists prev',
      replace_all_from ic r repl prev s n = replace_all_from ic r repl prev' (drop n s) 0.
Proof.
  induction n as [|n IH]; intros s prev Hn.
  - exists prev. reflexivity.
  - destruct s as [|x s]; [simpl in Hn; lia|].
    cbn [replace_all_from drop]. apply IH. simpl in Hn. lia.
Qed.

(** Replacing every match by a word, when the pattern matches words only,
    keeps the white space of the text as it is. *)
Lemma replace_all_words ic r (repl : jsstring) :
  (forall prev s rest,
      match_here ic r prev s = Some rest ->
      exists m, s = m ++ rest /\ m <> [] /\ Forall (fun c => is_space c = false) m) ->
  repl <> [] -> Forall (fun c => is_space c = false) repl ->
  forall (n : nat) (s : jsstring) prev b,
    (length s <= n)%nat ->
    spaced b s = true ->
    spaced b (replace_all_from ic r repl prev s 0) = true.
Proof.
  intros Hr Hne Hrepl. induction n as [|n IH]; intros s prev b Hn Hs.
  - destruct s; [|simpl in Hn; lia].
    cbn [replace_all_from]. destruct (match_here ic r prev []) as [rest|] eqn:Hm;
      [|exact Hs].
    destruct (Hr _ _ _ Hm) as (m & Heq & Hm0 & _). destruct m; [congruence | discriminate].
  - destruct s as [|x s].
    { cbn [replace_all_from]. destruct (match_here ic r prev []) as [rest|] eqn:Hm;
        [|exact Hs].
      destruct (Hr _ _ _ Hm) as (m & Heq & Hm0 & _).
      destruct m; [congruence | discriminate]. }
    cbn [replace_all_from].
    destruct (match_here ic r prev (x :: s)) as [rest|] eqn:Hm.
    + destruct (Hr _ _ _ Hm) as (m & Heq & Hm0 & Hword).
      destruct m as [|y m]; [congruence|]. injection Heq as -> ->.
      replace (length (y :: m ++ rest) - length rest)%nat with (S (length m))
        by (simpl; rewrite length_app; lia).
      destruct (skip_matched ic r repl (length m) (m ++ rest) (Some y)) as [prev' ->];
        [rewrite length_app; lia|].
      rewrite drop_app_length.
      rewrite spaced_word_app by assumption.
      change (y :: m ++ rest) with ((y :: m) ++ rest) in Hs.
      rewrite spaced_word_app in Hs by (assumption || discriminate).
      apply IH; [simpl in Hn; rewrite length_app in Hn; lia | exact Hs].
    + cbn [spaced] in Hs |- *. destruct (is_space x).
      * apply andb_true_iff in Hs as [Hs1 Hs2]. rewrite Hs1. cbn [andb].
        apply IH; [simpl in Hn; lia | exact Hs2].
      * apply IH; [simpl in Hn; lia | exact Hs].
Qed.

Lemma tidy_nonempty (s : jsstring) :
  tidy s = true -> s = [] \/ spaced false s = true.
Proof. destruct s; [left; reflexivity | right; assumption]. Qed.

Lemma spaced_tidy (s : jsstring) : spaced false s = true -> tidy s = true.
Proof. destruct s; [reflexivity | intros H; exact H]. Qed.

(** One typo correction keeps a tidy text tidy. *)
Lemma tidy_after_typo (typo correction s : jsstring) :
  forallb is_lower typo = true -> typo <> [] ->
  forallb is_lower correction = true -> correction <> [] ->
  tidy s = true ->
  tidy (replace_all true (Normalizer.typo_regExp typo) correction s) = true.
Proof.
  intros Htypo Htypo0 Hcorr Hcorr0 Htidy.
  assert (forall prev s rest,
             match_here true (Normalizer.typo_regExp typo) prev s = Some rest ->
             exists m, s = m ++ rest /\ m <> []
                       /\ Forall (fun c => is_space c = false) m) as Hr.
  { intros prev s0 rest Hm. destruct (match_here_typo _ _ _ _ Hm) as (m & -> & Hsame).
    exists m. split; [reflexivity|]. unfold same_letters in Hsame. split.
    - destruct Hsame; [congruence | discriminate].
    - rewrite forallb_forall in Htypo.
      clear -Hsame Htypo. induction Hsame as [|c x p m Hcx Hsame IH]; constructor.
      + eapply letter_matches_no_space; [|exact Hcx]. apply Htypo. left. reflexivity.
      + apply IH. intros y Hy. apply Htypo. right. exact Hy. }
  assert (Forall (fun c => is_space c = false) correction) as Hword.
  { rewrite forallb_forall in Hcorr. apply List.Forall_forall. intros c Hc.
    apply Hcorr in Hc. unfold is_lower in Hc. apply andb_true_iff in Hc as [H1 H2].
    apply N.leb_le in H1, H2. unfold is_space.
    repeat match goal with
           | |- context [(?a <=? ?b)%N] => destruct (N.leb_spec a b)
           | |- context [(?a =? ?b)%N] => destruct (N.eqb_spec a b)
           end; try reflexivity; lia. }
  unfold replace_all.
  destruct (tidy_nonempty s Htidy) as [->|Hs].
  - cbn [replace_all_from].
    destruct (match_here true _ None []) as [rest|] eqn:Hm; [|reflexivity].
    destruct (Hr _ _ _ Hm) as (m & Heq & Hm0 & _).
    destruct m; [congruence | discriminate].
  - apply spaced_tidy.
    apply (replace_all_words true _ correction Hr Hcorr0 Hword (length s)); [lia | exact Hs].
Qed.

End Words.

Section Tidy.
Import Regex.

Lemma tidy_after_action_mapping (entries : list (jsstring * jsstring)) (s : jsstring) :
  Forall (fun entry : jsstring * jsstring =>
            forall rest, spaced false ((entry.2 ++ lit " ") ++ rest) = spaced false rest)
         entries ->
  tidy s = true ->
  tidy (Normalizer.apply_action_mapping entries s) = true.
Proof.
  intros Hentries Htidy. induction Hentries as [|[pattern replacement] entries Hrepl _ IH];
    [exact Htidy|].
  cbn [Normalizer.apply_action_mapping].
  destruct (test true (Normalizer.action_regExp pattern) s); [|exact IH].
  unfold Normalizer.action_regExp.
  destruct (replace_prefix true (Str pattern) (replacement ++ lit " ") s Htidy)
    as [->|(rest & -> & Hrest)]; [exact Htidy|].
  apply spaced_tidy. cbn [snd] in Hrepl. rewrite Hrepl. exact Hrest.
Qed.

Lemma tidy_after_typo_corrections (entries : list (jsstring * jsstring)) (s : jsstring) :
  Forall (fun entry : jsstring * jsstring =>
            forallb is_lower entry.1 = true /\ entry.1 <> []
            /\ forallb is_lower entry.2 = true /\ entry.2 <> [])
         entries ->
  tidy s = true ->
  tidy (Normalizer.apply_typo_corrections entries s) = true.
Proof.
  intros Hentries. revert s.
  induction Hentries as [|[typo correction] entries (H1 & H2 & H3 & H4) _ IH];
    intros s Htidy; [exact Htidy|].
  unfold Normalizer.apply_typo_corrections. cbn [fold_left].
  apply IH. apply tidy_after_typo; assumption.
Qed.

Lemma spaced_space (before after : jsstring) (c : N) (b : bool) :
  spaced b (before ++ c :: after) = true -> is_space c = true ->
  c = 32%N
  /\ match last before with
     | Some l => is_space l = false
     | None => b = true
     end
  /\ exists a, head after = Some a /\ is_space a = false.
Proof.
  revert b. induction before as [|y before IH]; intros b Hsp Hc.
  - cbn [app spaced] in Hsp. rewrite Hc in Hsp.
    apply andb_true_iff in Hsp as [Hsp Hafter].
    apply andb_true_iff in Hsp as [H32 Hb]. apply N.eqb_eq in H32.
    split; [exact H32|]. split; [exact Hb|].
    destruct after as [|a after]; [discriminate|].
    exists a. split; [reflexivity|]. cbn [spaced] in Hafter.
    destruct (is_space a); [|reflexivity].
    rewrite andb_false_r in Hafter. discriminate.
  - change ((y :: before) ++ c :: after) with (y :: (before ++ c :: after)) in Hsp.
    cbn [spaced] in Hsp. destruct (is_space y) eqn:Hy.
    + apply andb_true_iff in Hsp as [_ Hsp].
      destruct (IH false Hsp Hc) as (H32 & Hlast & Hafter).
      split; [exact H32|]. split; [|exact Hafter].
      destruct before as [|z before]; [discriminate Hlast|].
      change (last (y :: z :: before)) with (last (z :: before)).
      destruct (last (z :: before)) eqn:Hl; [exact Hlast|].
      apply last_None in Hl. discriminate.
    + destruct (IH true Hsp Hc) as (H32 & Hlast & Hafter).
      split; [exact H32|]. split; [|exact Hafter].
      destruct before as [|z before]; [exact Hy|].
      change (last (y :: z :: before)) with (last (z :: before)).
      destruct (last (z :: before)) eqn:Hl; [exact Hlast|].
      apply last_None in Hl. discriminate.
Qed.

Lemma normalizeInput_tidy (input : jsstring) :
  tidy (Normalizer.normalizeInput input) = true.
Proof.
  unfold Normalizer.normalizeInput.
  destruct (negb (truthy input)); [reflexivity|]. cbv zeta.
  apply tidy_after_typo_corrections.
  { unfold Normalizer.typoCorrections.
    repeat (apply List.Forall_cons;
            [split; [reflexivity|]; split; [discriminate|];
             split; [reflexivity | discriminate]|]).
    apply List.Forall_nil. }
  apply tidy_after_action_mapping.
  { unfold Normalizer.actionMappings.
    repeat (apply List.Forall_cons; [intros rest; reflexivity|]).
    apply List.Forall_nil. }
  unfold Normalizer.leading_phrase.
  pose proof (tidy_after_collapse input) as Hcollapsed.
  destruct (replace_prefix true
              (Alts [Str (lit "please"); Str (lit "can you"); Str (lit "could you");
                     Str (lit "i want to"); Str (lit "i would like to")])
              [] _ Hcollapsed) as [->|(rest & -> & Hrest)]; [exact Hcollapsed|].
  apply spaced_tidy. exact Hrest.
Qed.

(** X14. The white space of a normalized input, for every input: the text
    that [normalizeInput] returns does not begin or end with white space,
    and every white-space character in it is a single space (U+0020) that
    stands between two characters that are not white space. *)
Theorem normalizeInput_leaves_single_spaces (input : jsstring) :
  let normalized := Normalizer.normalizeInput input in
  begins_with_text normalized
  /\ ends_with_text normalized
  /\ forall before c after,
       normalized = before ++ c :: after ->
       is_space c = true ->
       c = 32%N
       /\ (exists b, last before = Some b /\ is_space b = false)
       /\ (exists a, head after = Some a /\ is_space a = false).
Proof.
  intros normalized. pose proof (normalizeInput_tidy input) as Htidy.
  fold normalized in Htidy. clearbody normalized.
  destruct (tidy_nonempty normalized Htidy) as [->|Hspaced].
  { split; [exact I|]. split; [exact I|].
    intros before c after Heq. destruct before; discriminate. }
  assert (forall before c after,
             normalized = before ++ c :: after ->
             is_space c = true ->
             c = 32%N
             /\ (exists b, last before = Some b /\ is_space b = false)
             /\ (exists a, head after = Some a /\ is_space a = false)) as Hspaces.
  { intros before c after -> Hc.
    destruct (spaced_space before after c false Hspaced Hc) as (H32 & Hlast & Hafter).
    split; [exact H32|]. split; [|exact Hafter].
    destruct (last before) as [l|]; [eauto | discriminate]. }
  split; [|split; [|exact Hspaces]].
  - unfold begins_with_text. destruct normalized as [|c s]; [exact I|].
    destruct (is_space c) eqn:Hc; [|reflexivity].
    destruct (Hspaces [] c s eq_refl Hc) as (_ & (b & Hb & _) & _). discriminate.
  - unfold ends_with_text. destruct (last normalized) as [c|] eqn:Hlast; [|exact I].
    destruct (is_space c) eqn:Hc; [|reflexivity].
    apply last_Some in Hlast as [before ->].
    destruct (Hspaces before c [] eq_refl Hc) as (_ & _ & (a & Ha & _)). discriminate.
Qed.

End Tidy.

Example normalizeInput_collapses_white_space :
  Normalizer.normalizeInput (litq "  Could   you	 open
 the   dasboard  ")
  = lit "navigate to the dashboard".
Proof. vm_compute. reflexivity. Qed.


(* ===================================================================== *)
(** * The middleware that fills in defaults *)
(* ===================================================================== *)

Section Defaults.
Import Router Types.

Lemma eqb_eq (s t : jsstring) : JsString.eqb s t = true <-> s = t.
Proof. unfold JsString.eqb. apply bool_decide_eq_true. Qed.

Lemma lookup_set_prop_other props k v k' :
  k' <> k -> Json.lookup_prop (Json.set_prop props k v) k' = Json.lookup_prop props k'.
Proof.
  intros Hne.
  assert (JsString.eqb k' k = false) as Hk'
      by (apply not_true_iff_false; rewrite eqb_eq; exact Hne).
  induction props as [|[k0 v0] props IH]; simpl.
  - rewrite Hk'. reflexivity.
  - destruct (JsString.eqb k k0) eqn:Hk; simpl.
    + apply eqb_eq in Hk as <-. rewrite Hk'. reflexivity.
    + destruct (Json.array_index k) as [i|]; [destruct (Json.array_index k0) as [i0|]|].
      * destruct (i <? i0)%Z; simpl; rewrite ?Hk'; [reflexivity|].
        destruct (JsString.eqb k' k0); [reflexivity | exact IH].
      * simpl. rewrite Hk'. reflexivity.
      * simpl. destruct (JsString.eqb k' k0); [reflexivity | exact IH].
Qed.

Lemma lookup_prop_app (l1 l2 : list (jsstring * Json.value)) k :
  Json.lookup_prop (l1 ++ l2) k =
    match Json.lookup_prop l1 k with
    | Some v => Some v
    | None => Json.lookup_prop l2 k
    end.
Proof.
  induction l1 as [|[k0 v0] l1 IH]; simpl; [reflexivity|].
  destruct (JsString.eqb k k0); [reflexivity | exact IH].
Qed.

Lemma lookup_prop_absent (l : list (jsstring * Json.value)) k :
  ~ In k (map fst l) -> Json.lookup_prop l k = None.
Proof.
  induction l as [|[k0 v0] l IH]; simpl; [reflexivity|].
  intros Hin. destruct (JsString.eqb k k0) eqn:Hk.
  - apply eqb_eq in Hk. exfalso. apply Hin. left. congruence.
  - apply IH. intros H. apply Hin. right. exact H.
Qed.

(** In an object that holds each name once, the order of the properties
    does not matter to a lookup. *)
Lemma lookup_prop_rev (l : list (jsstring * Json.value)) k :
  List.NoDup (map fst l) -> Json.lookup_prop (rev l) k = Json.lookup_prop l k.
Proof.
  induction l as [|[k0 v0] l IH]; intros Hnd; [reflexivity|].
  inversion Hnd as [|? ? Hnotin Hnd']; subst.
  cbn [rev]. rewrite lookup_prop_app, (IH Hnd'). simpl.
  destruct (JsString.eqb k k0) eqn:Hk.
  - apply eqb_eq in Hk as ->. rewrite (lookup_prop_absent l k0 Hnotin). reflexivity.
  - destruct (Json.lookup_prop l k); reflexivity.
Qed.

(** Defining properties one after the other: the last value defined under
    a name is the one found. *)
Lemma lookup_prop_fold (kvs acc : list (jsstring * Json.value)) k :
  Json.lookup_prop
    (fold_left (fun props (kv : jsstring * Json.value) => Json.set_prop props kv.1 kv.2)
               kvs acc) k
  = match Json.lookup_prop (rev kvs) k with
    | Some v => Some v
    | None => Json.lookup_prop acc k
    end.
Proof.
  revert acc. induction kvs as [|[k0 v0] kvs IH]; intros acc; [reflexivity|].
  cbn [fold_left rev fst snd]. rewrite IH, lookup_prop_app.
  destruct (Json.lookup_prop (rev kvs) k); [reflexivity|].
  simpl. destruct (JsString.eqb k k0) eqn:Hk.
  - apply eqb_eq in Hk as ->. apply lookup_set_prop.
  - apply lookup_set_prop_other. intros ->.
    assert (JsString.eqb k0 k0 = true) by (apply eqb_eq; reflexivity). congruence.
Qed.

(** X15. The middleware that [createDefaultsMiddleware] builds never
    rejects an intent and leaves the state alone. It keeps the action and
    the confidence; the target is the one of the intent unless that is
    missing or empty, then the default one. The params of the result are
    always an object: under every name it holds the value of the params of
    the intent, and the default value where the intent has none. *)
Theorem defaults_fill_in_what_the_intent_lacks
        {W : Type} (defaults_target : option jsstring)
        (defaults_params : option Json.value) (intent : Intent) (w : W) :
  List.NoDup (map fst (own_enumerable defaults_params)) ->
  List.NoDup (map fst (own_enumerable (params intent))) ->
  exists intent' merged,
    createDefaultsMiddleware defaults_target defaults_params intent w
    = (Returned (Some intent'), w)
    /\ action intent' = action intent
    /\ confidence intent' = confidence intent
    /\ target intent' = (if JsString.truthy (default [] (target intent))
                         then target intent else defaults_target)
    /\ params intent' = Some (Json.JObj merged)
    /\ forall k,
         Json.lookup_prop merged k =
           match Json.lookup_prop (own_enumerable (params intent)) k with
           | Some v => Some v
           | None => Json.lookup_prop (own_enumerable defaults_params) k
           end.
Proof.
  intros Hdefaults Hparams.
  eexists _, _. split; [reflexivity|]. cbn [action confidence target params].
  split; [reflexivity|]. split; [reflexivity|]. split.
  { destruct (target intent) as [t|]; reflexivity. }
  split; [reflexivity|].
  intros k. unfold spread. rewrite lookup_prop_fold.
  rewrite rev_app_distr, lookup_prop_app.
  rewrite (lookup_prop_rev _ k Hparams), (lookup_prop_rev _ k Hdefaults).
  destruct (Json.lookup_prop (own_enumerable (params intent)) k);
    [reflexivity|].
  destruct (Json.lookup_prop (own_enumerable defaults_params) k); reflexivity.
Qed.

End Defaults.

Lemma defaults_fill_in_what_the_intent_lacks_witness :
  exists intent' merged,
    Router.createDefaultsMiddleware (Some (lit "data")) (Some Examples.sort_defaults)
                                    Examples.sort_intent 0%nat
    = (Returned (Some intent'), 0%nat)
    /\ Types.action intent' = lit "sort"
    /\ Types.confidence intent' = None
    /\ Types.target intent' = Some (lit "data")
    /\ Types.params intent' = Some (Json.JObj merged)
    /\ forall k,
         Json.lookup_prop merged k =
           match Json.lookup_prop [(lit "field", Json.JStr (lit "date"))] k with
           | Some v => Some v
           | None => Json.lookup_prop [(lit "field", Json.JStr (lit "name"));
                                       (lit "direction", Json.JStr (lit "asc"))] k
           end.
Proof.
  apply (defaults_fill_in_what_the_intent_lacks
           (Some (lit "data")) (Some Examples.sort_defaults) Examples.sort_intent 0%nat).
  - simpl.
    repeat (apply List.NoDup_cons;
            [intros H; repeat (destruct H as [H|H]; [discriminate H|]); exact H|]).
    apply List.NoDup_nil.
  - simpl.
    repeat (apply List.NoDup_cons;
            [intros H; repeat (destruct H as [H|H]; [discriminate H|]); exact H|]).
    apply List.NoDup_nil.
Defined.
